(** * SOP_OpenVDB_From_Particles: particles to narrow-band VDB volumes

    A shallow embedding of
    [openvdb_houdini/houdini/SOP_OpenVDB_From_Particles.cc] and the
    properties of its cook that the specification states.

    Conventions of the embedding.
    - [openvdb::Real], [fpreal] and [float] values are the rationals
      they denote ([Qc], canonical fractions with Leibniz equality).
      [to_float] and [to_double] round a rational to the nearest
      binary32 or binary64 number, ties to even, subnormal numbers
      included.  The cook rounds where the code narrows a value to
      [float] (the voxel size, the half-band width, the trail
      spacing), where a rounded result decides a comparison or is
      converted to [int] (the band width, the dilation counts of the
      mask) and where the unit converter stores a product or a
      quotient.  A product that is only handed to a tool (the radius
      multiplier of a mask pass, the radius and the velocity of a
      particle) is carried exactly.
    - Infinities and NaN are not numbers of the model: the exponent
      range is not bounded above, and the quotient of the unit
      converter by a zero voxel size is [None].
    - [int] and the integer parameters are [Z]; overflow of [int] is not
      modelled: a theorem that states the value of an [int] computed
      from reals (the band width) assumes that the divisor is not zero
      and that the value lies in the range of [int].
    - A sparse grid is a finite map from voxel coordinates to values
      together with a background value, a class tag, a transform and a
      name.
    - The cook is a function on the node state: the diagnostics it adds,
      the primitives it appends to the output detail and the calls it
      makes to the volume tools are recorded in order.
    - Tools that live outside this file (the sphere/trail rasterizer,
      the topology builder, the point-mask voxelizer, the attribute
      transfer kernel, group matching and the interrupter) are methods
      of the class [Externals]; every theorem holds for all of its
      instances.  They are total functions: an exception escaping from
      a tool into the [catch] of the cook is not modelled. *)

From Stdlib Require Import QArith Qcanon Qround Qpower Qabs Lqa ZArith Bool.
From stdpp Require Import base gmap strings list pretty.

Local Open Scope Z_scope.

(** ** Numbers *)

Definition Real := Qc.

Definition real (q : Q) : Real := Q2Qc q.

(** [(Real) z] for an [int] [z]. *)
Definition of_int (z : Z) : Real := Q2Qc (inject_Z z).

(** [x < y] on reals, as a test. *)
Definition Real_ltb (x y : Real) : bool :=
  match (x ?= y)%Qc with Lt => true | _ => false end.

(** [std::min(a, b)] is [(b < a) ? b : a]; [std::max(a, b)] is
    [(a < b) ? b : a]. *)
Definition std_min (a b : Real) : Real := if Real_ltb b a then b else a.
Definition std_max (a b : Real) : Real := if Real_ltb a b then b else a.

(** [std::ceil] followed by the conversion to [int]. *)
Definition ceil (x : Real) : Z := Qceiling x.

(** [int(x)] on a real: truncation toward zero. *)
Definition to_int (x : Real) : Z :=
  if Real_ltb x (real 0) then Qceiling x else Qfloor x.

(** [openvdb::Int32(n)] for a [size_t] [n]: two's complement wrap. *)
Definition Int32 (n : Z) : Z := (n + 2 ^ 31) mod 2 ^ 32 - 2 ^ 31.

(** ** Binary floating point

    [2^e], the exponent of a positive rational, rounding to the nearest
    integer with ties to even, and rounding to [prec] significant bits
    over exponents from [emin] up. *)

Definition pow2 (e : Z) : Q := ((2 # 1) ^ e)%Q.

(** For [0 < q]: the [e] with [2^e <= q < 2^(e+1)]. *)
Definition ilog2 (q : Q) : Z :=
  let e := Z.log2 (Qnum q) - Z.log2 (Zpos (Qden q)) in
  if Qle_bool (pow2 e) q then e else e - 1.

Definition rne (q : Q) : Z :=
  let f := Qfloor q in
  match Qcompare (q - inject_Z f) (1 # 2) with
  | Lt => f
  | Eq => if Z.even f then f else f + 1
  | Gt => f + 1
  end.

Definition round_binary (prec emin : Z) (q : Q) : Q :=
  let e := Z.max (ilog2 (Qabs q)) emin in
  let ulp := pow2 (e - prec + 1) in
  (inject_Z (rne (q / ulp)) * ulp)%Q.

(** [float(x)] and the rounding of a [float] operation. *)
Definition to_float (x : Real) : Real := Q2Qc (round_binary 24 (-126) x).

(** The rounding of a [double] operation. *)
Definition to_double (x : Real) : Real := Q2Qc (round_binary 53 (-1022) x).

(** Half the distance from one to the next [double], and the smallest
    positive normal [double]. *)
Definition double_roundoff : Real := Q2Qc (pow2 (-53)).
Definition double_min : Real := Q2Qc (pow2 (-1022)).

Arguments to_float _%_Qc : simpl never.
Arguments to_double _%_Qc : simpl never.

(** ** Vectors, coordinates, transforms *)

Definition Vec3 : Type := Real * Real * Real.
Definition Coord : Type := Z * Z * Z.

Definition vec_x (v : Vec3) : Real := fst (fst v).

(** Modelled from the spec: [openvdb::math::Transform] is declared in
    the OpenVDB headers; the data model describes it as a voxel size
    with an origin. *)
Record Transform := mkTransform {
  voxelSize : Vec3;
  origin : Vec3
}.

Definition createLinearTransform (vs : Real) : Transform :=
  {| voxelSize := (vs, vs, vs); origin := (real 0, real 0, real 0) |}.

(** ** Sparse grids *)

Inductive GridClass :=
| GRID_UNKNOWN
| GRID_LEVEL_SET
| GRID_FOG_VOLUME
| GRID_STAGGERED.

Global Instance GridClass_eq_dec : EqDecision GridClass.
Proof. solve_decision. Defined.

(** Modelled from the spec: the grid and tree classes are declared in
    the OpenVDB headers.  Coordinates absent from [voxels] are inactive
    and carry [background]. *)
Record Grid (V : Type) := mkGrid {
  voxels : gmap Coord V;
  background : V;
  gridClass : GridClass;
  transform : Transform;
  gridName : string;
  vectorType : Z
}.

Arguments mkGrid {V} _ _ _ _ _ _.
Arguments voxels {V} _.
Arguments background {V} _.
Arguments gridClass {V} _.
Arguments transform {V} _.
Arguments gridName {V} _.
Arguments vectorType {V} _.

Definition FloatGrid := Grid Real.
Definition Int32Grid := Grid Z.

(** [grid.background()]. *)
Definition Grid_background {V} (g : Grid V) : V := background g.

(** The value a grid holds at a coordinate. *)
Definition getValue {V} (g : Grid V) (c : Coord) : V :=
  default (background g) (voxels g !! c).

(** [GridType::create(background)]: an empty grid. *)
Definition Grid_create {V} (bg : V) : Grid V :=
  mkGrid ∅ bg GRID_UNKNOWN (createLinearTransform (real 1)) "" 0.

Definition setGridClass {V} (c : GridClass) (g : Grid V) : Grid V :=
  mkGrid (voxels g) (background g) c (transform g) (gridName g) (vectorType g).

Definition setTransform {V} (t : Transform) (g : Grid V) : Grid V :=
  mkGrid (voxels g) (background g) (gridClass g) t (gridName g) (vectorType g).

Definition setName {V} (n : string) (g : Grid V) : Grid V :=
  mkGrid (voxels g) (background g) (gridClass g) (transform g) n (vectorType g).

Definition setVectorType {V} (vt : Z) (g : Grid V) : Grid V :=
  mkGrid (voxels g) (background g) (gridClass g) (transform g) (gridName g) vt.

Definition setVoxels {V} (vx : gmap Coord V) (g : Grid V) : Grid V :=
  mkGrid vx (background g) (gridClass g) (transform g) (gridName g) (vectorType g).

(** The value types of the grids this node reads or writes. *)
Inductive ValueType :=
| TInt32 | TInt64 | TFloat | TDouble | TVec3i | TVec3s | TVec3d.

Definition denote (ty : ValueType) : Type :=
  match ty with
  | TInt32 | TInt64 => Z
  | TFloat | TDouble => Real
  | TVec3i => (Z * Z * Z)%type
  | TVec3s | TVec3d => Vec3
  end.

(** [openvdb::GridBase]: a grid of one of the registered value types. *)
Inductive GridBase :=
| FloatGridB (g : Grid Real)
| DoubleGridB (g : Grid Real)
| Int32GridB (g : Grid Z)
| Int64GridB (g : Grid Z)
| Vec3IGridB (g : Grid (Z * Z * Z))
| Vec3SGridB (g : Grid Vec3)
| Vec3DGridB (g : Grid Vec3).

Definition toBase (ty : ValueType) : Grid (denote ty) -> GridBase :=
  match ty with
  | TInt32 => Int32GridB
  | TInt64 => Int64GridB
  | TFloat => FloatGridB
  | TDouble => DoubleGridB
  | TVec3i => Vec3IGridB
  | TVec3s => Vec3SGridB
  | TVec3d => Vec3DGridB
  end.

Definition getGridClass (b : GridBase) : GridClass :=
  match b with
  | FloatGridB g | DoubleGridB g => gridClass g
  | Int32GridB g | Int64GridB g => gridClass g
  | Vec3IGridB g => gridClass g
  | Vec3SGridB g | Vec3DGridB g => gridClass g
  end.

Definition baseTransform (b : GridBase) : Transform :=
  match b with
  | FloatGridB g | DoubleGridB g => transform g
  | Int32GridB g | Int64GridB g => transform g
  | Vec3IGridB g => transform g
  | Vec3SGridB g | Vec3DGridB g => transform g
  end.

Definition baseName (b : GridBase) : string :=
  match b with
  | FloatGridB g | DoubleGridB g => gridName g
  | Int32GridB g | Int64GridB g => gridName g
  | Vec3IGridB g => gridName g
  | Vec3SGridB g | Vec3DGridB g => gridName g
  end.

Definition baseSetTransform (t : Transform) (b : GridBase) : GridBase :=
  match b with
  | FloatGridB g => FloatGridB (setTransform t g)
  | DoubleGridB g => DoubleGridB (setTransform t g)
  | Int32GridB g => Int32GridB (setTransform t g)
  | Int64GridB g => Int64GridB (setTransform t g)
  | Vec3IGridB g => Vec3IGridB (setTransform t g)
  | Vec3SGridB g => Vec3SGridB (setTransform t g)
  | Vec3DGridB g => Vec3DGridB (setTransform t g)
  end.

Definition baseSetName (n : string) (b : GridBase) : GridBase :=
  match b with
  | FloatGridB g => FloatGridB (setName n g)
  | DoubleGridB g => DoubleGridB (setName n g)
  | Int32GridB g => Int32GridB (setName n g)
  | Int64GridB g => Int64GridB (setName n g)
  | Vec3IGridB g => Vec3IGridB (setName n g)
  | Vec3SGridB g => Vec3SGridB (setName n g)
  | Vec3DGridB g => Vec3DGridB (setName n g)
  end.

(** [grid.type() == openvdb::FloatGrid::gridType()]. *)
Definition isFloatGrid (b : GridBase) : bool :=
  match b with FloatGridB _ => true | _ => false end.

(** [openvdb::gridPtrCast<openvdb::FloatGrid>]: null unless the grid is
    a float grid. *)
Definition gridPtrCast_Float (b : GridBase) : option FloatGrid :=
  match b with FloatGridB g => Some g | _ => None end.

(** A point-occupancy mask ([openvdb::MaskGrid]). *)
Record MaskGrid := mkMaskGrid {
  maskVoxels : gset Coord;
  maskTransform : Transform
}.

(** ** Volume operations used by the cook

    The three operations below are templates of the OpenVDB headers
    ([tools/Composite.h], [tools/LevelSetUtil.h]). *)

(** Modelled from the spec: [openvdb::tools::csgUnion(a, b)] is absent
    from the sources at hand.  The union keeps, per voxel, the smaller
    signed distance; the result replaces [a] and keeps its background,
    class, transform and name. *)
Definition csgUnion (a b : FloatGrid) : FloatGrid :=
  setVoxels
    (merge (fun oa ob =>
              match oa, ob with
              | None, None => None
              | _, _ => Some (std_min (default (background a) oa)
                                      (default (background b) ob))
              end) (voxels a) (voxels b)) a.

(** Modelled from the spec: [openvdb::tools::csgDifference(a, b)] is
    absent from the sources at hand.  The difference keeps the region
    inside [a] and outside [b]: per voxel the larger of the distance to
    [a] and the negated distance to [b]; the result replaces [a]. *)
Definition csgDifference (a b : FloatGrid) : FloatGrid :=
  setVoxels
    (merge (fun oa ob =>
              match oa, ob with
              | None, None => None
              | _, _ => Some (std_max (default (background a) oa)
                                      (- default (background b) ob)%Qc)
              end) (voxels a) (voxels b)) a.

(** Modelled from the spec: [openvdb::tools::sdfToFogVolume(grid)] is
    absent from the sources at hand; the tooltip of [buildfog] describes
    it.  Interior voxels become active densities in (0, 1], graded
    linearly through the interior half of the band; exterior voxels are
    set to zero and removed from the active set; the background becomes
    zero and the grid is retagged as a fog volume. *)
Definition sdfToFogVolume (g : FloatGrid) : FloatGrid :=
  mkGrid
    (omap (fun d : Real =>
             if Real_ltb d (real 0)
             then Some (std_min (real 1) (- d / background g)%Qc)
             else None) (voxels g))
    (real 0) GRID_FOG_VOLUME (transform g) (gridName g) (vectorType g).

(** [grid->deepCopy()]: grids are values here, a copy is the grid. *)
Definition deepCopy {V} (g : Grid V) : Grid V := g.

(** ** Host geometry *)

Inductive GA_Storage :=
| GA_STORE_INVALID | GA_STORE_BOOL | GA_STORE_UINT8 | GA_STORE_INT8
| GA_STORE_INT16 | GA_STORE_INT32 | GA_STORE_INT64
| GA_STORE_REAL16 | GA_STORE_REAL32 | GA_STORE_REAL64 | GA_STORE_STRING.

Inductive GA_TypeInfo :=
| GA_TYPE_VOID | GA_TYPE_POINT | GA_TYPE_HPOINT | GA_TYPE_VECTOR
| GA_TYPE_NORMAL | GA_TYPE_COLOR | GA_TYPE_TRANSFORM | GA_TYPE_QUATERNION.

(** The tuple interface of an attribute ([GA_AIFTuple]) and what the
    cook asks of it. *)
Record GA_AIFTuple := mkAIFTuple {
  getStorage : GA_Storage;
  getTupleSize : Z;
  getDefaults : list Real
}.

Record GA_Attribute := mkAttribute {
  getName : string;
  getTypeInfo : GA_TypeInfo;
  getAIFTuple : option GA_AIFTuple;
  attrTuples : list (list Real)       (* one tuple per point *)
}.

(** A VDB primitive holds a grid. *)
Record GU_PrimVDB := mkPrim { getGrid : GridBase }.

(** [GU_Detail] as far as the node reads it: point positions, the two
    standard point attributes that [ParticleList] binds ([pscale],
    [v]), the named point attributes, and the VDB primitives. *)
Record GU_Detail := mkDetail {
  pointPos : list Vec3;
  pscale : option (list Real);
  velocity : option (list Vec3);
  pointAttribs : list GA_Attribute;
  vdbPrims : list GU_PrimVDB
}.

Definition getNumPoints (gdp : GU_Detail) : nat := length (pointPos gdp).

Definition zeroVec : Vec3 := (real 0, real 0, real 0).

Definition getPos3 (gdp : GU_Detail) (n : nat) : Vec3 := nth n (pointPos gdp) zeroVec.

Fixpoint findAttribute (name : string) (l : list GA_Attribute) : option GA_Attribute :=
  match l with
  | [] => None
  | a :: rest => if String.eqb (getName a) name then Some a else findAttribute name rest
  end.

Definition findPointAttribute (gdp : GU_Detail) (name : string) : option GA_Attribute :=
  findAttribute name (pointAttribs gdp).

(** ** The particle source adapter ([ParticleList]) *)

Record ParticleList := mkParticleList {
  mGdp : GU_Detail;
  mHasRadius : bool;
  mHasVelocity : bool;
  mRadiusMult : Real;
  mVelocityMult : Real
}.

(** The constructor binds the two handles and records their validity. *)
Definition ParticleList_new (gdp : GU_Detail) (radiusMult velocityMult : Real)
  : ParticleList :=
  {| mGdp := gdp;
     mHasRadius := bool_decide (is_Some (pscale gdp));
     mHasVelocity := bool_decide (is_Some (velocity gdp));
     mRadiusMult := radiusMult;
     mVelocityMult := velocityMult |}.

Definition hasRadius (pa : ParticleList) : bool := mHasRadius pa.
Definition hasVelocity (pa : ParticleList) : bool := mHasVelocity pa.
Definition radiusMult (pa : ParticleList) : Real := mRadiusMult pa.

Definition setRadiusMult (mult : Real) (pa : ParticleList) : ParticleList :=
  {| mGdp := mGdp pa;
     mHasRadius := mHasRadius pa;
     mHasVelocity := mHasVelocity pa;
     mRadiusMult := mult;
     mVelocityMult := mVelocityMult pa |}.

(** [size()]. *)
Definition ParticleList_size (pa : ParticleList) : nat := getNumPoints (mGdp pa).

(** [mScaleHandle.get(m)] and [mVelHandle.get(m)]. *)
Definition mScaleHandle_get (pa : ParticleList) (n : nat) : Real :=
  nth n (default [] (pscale (mGdp pa))) (real 0).

Definition mVelHandle_get (pa : ParticleList) (n : nat) : Vec3 :=
  nth n (default [] (velocity (mGdp pa))) zeroVec.

Definition getPos (pa : ParticleList) (n : nat) : Vec3 := getPos3 (mGdp pa) n.

(** [getPosRad]: [UT_ASSERT(mHasRadius)] fails without a radius
    attribute, which is [None] here. *)
Definition getPosRad (pa : ParticleList) (n : nat) : option (Vec3 * Real) :=
  if mHasRadius pa
  then Some (getPos3 (mGdp pa) n, (mRadiusMult pa * mScaleHandle_get pa n)%Qc)
  else None.

(** [getPosRadVel]: [UT_ASSERT(mHasVelocity)]. *)
Definition getPosRadVel (pa : ParticleList) (n : nat)
  : option (Vec3 * Real * Vec3) :=
  if mHasVelocity pa
  then
    let rad := if mHasRadius pa
               then (mRadiusMult pa * mScaleHandle_get pa n)%Qc
               else mRadiusMult pa in
    let '(vx, vy, vz) := mVelHandle_get pa n in
    Some (getPos3 (mGdp pa) n, rad,
          ((mVelocityMult pa * vx)%Qc, (mVelocityMult pa * vy)%Qc,
           (mVelocityMult pa * vz)%Qc))
  else None.

Definition getAtt (n : nat) : Z := Int32 (Z.of_nat n).

(** ** Rasterization requests

    The three ways the cook invokes [ParticlesToLevelSet]. *)
Inductive RasterJob :=
| rasterizeSpheres (pa : ParticleList)
| rasterizeSpheresConst (pa : ParticleList) (radius : Real)
| rasterizeTrails (pa : ParticleList) (delta : Real).

Definition jobParticles (j : RasterJob) : ParticleList :=
  match j with
  | rasterizeSpheres pa => pa
  | rasterizeSpheresConst pa _ => pa
  | rasterizeTrails pa _ => pa
  end.

(** The radius the rasterizer obtains for particle [n].  The comments of
    [ParticleList] name the accessor each entry point requires:
    [getPosRad] for [rasterizeSpheres(pa)], [getPos] and the given
    radius for [rasterizeSpheres(pa, radius)], [getPosRadVel] for
    [rasterizeTrails]. *)
Definition jobRadius (j : RasterJob) (n : nat) : option Real :=
  match j with
  | rasterizeSpheres pa => snd <$> getPosRad pa n
  | rasterizeSpheresConst pa radius => Some radius
  | rasterizeTrails pa _ => (fun t => snd (fst t)) <$> getPosRadVel pa n
  end.

(** What a rasterization leaves behind: the voxels of the target grid
    after [finalize(prune)], the nearest-particle index tree, and the
    two counters of ignored particles. *)
Record RasterResult := mkRasterResult {
  sdfVoxels : gmap Coord Real;
  attVoxels : gmap Coord Z;
  attBackground : Z;
  getMinCount : Z;
  getMaxCount : Z
}.

(** Modelled from the spec: [ParticlesToLevelSet::ignoredParticles] is
    absent from the sources at hand; some particle was too small or too
    large. *)
Definition ignoredParticles (r : RasterResult) : bool :=
  (0 <? getMinCount r) || (0 <? getMaxCount r).

(** ** Calls to the volume tools, as the cook makes them *)
Inductive Call :=
| Call_FloatGrid_create (bg : Real)
| Call_deepCopyGrid
| Call_deepCopy
| Call_ParticlesToLevelSet (withAttributes : bool) (Rmin Rmax : Real)
    (job : RasterJob) (target : FloatGrid)
| Call_GUvdbCreatePointMaskGrid (tx : Transform)
| Call_topologyToLevelSet (halfWidth closing dilation smoothing : Z)
| Call_csgUnion
| Call_csgDifference
| Call_sdfToFogVolume
| Call_PointAttrTransfer (count : nat).

(** ** Parameters of the node

    One field per parameter token; the multi-parameter [attrList] is the
    list of its instances ([attribute#], [attributeGridName#],
    [vecType#]), instance [i] being the [i]-th element counted from 1. *)
Record AttrInstance := mkAttrInstance {
  attribute : string;
  attributeGridName : string;
  vecType : Z
}.

Record Parms := mkParms {
  builddistance : Z;
  distancename : string;
  buildfog : Z;
  fogname : string;
  buildmask : Z;
  maskname : string;
  boundinglimit : Real;
  referencevdb : string;
  merge_ : Z;                       (* token "merge" *)
  voxelsize : Real;
  useworldspace : Z;
  halfbandvoxels : Real;
  halfband : Real;
  conversion : Z;
  particlescale : Real;
  minradius : Real;
  velocitytrails : Z;
  velocityscale : Real;
  trailresolution : Real;
  attrList : list AttrInstance;
  dilation : Z;
  closing : Z;
  smoothing : Z
}.

(** [evalInt("attrList", 0, time)]: the number of instances. *)
Definition evalInt_attrList (P : Parms) : Z := Z.of_nat (length (attrList P)).

(** [evalStringInst("attribute#", &i, ...)] and its siblings; an
    instance that does not exist evaluates to the empty string and to
    zero. *)
Definition evalInst (P : Parms) (i : Z) : AttrInstance :=
  if i <? 1 then mkAttrInstance "" "" 0
  else nth (Z.to_nat (i - 1)) (attrList P) (mkAttrInstance "" "" 0).

(** [bool(evalInt(...))]. *)
Definition to_bool (z : Z) : bool := negb (z =? 0).

(** ** Diagnostics *)

Inductive Severity := SOP_Message | SOP_Warning | SOP_Error.

Global Instance Severity_eq_dec : EqDecision Severity.
Proof. solve_decision. Defined.

(** A diagnostic text is the sequence of items streamed into it. *)
Inductive Fragment :=
| Str (s : string)
| Num (r : Real)
| Cnt (z : Z).

Record Diagnostic := mkDiagnostic {
  severity : Severity;
  text : list Fragment
}.

(** ** The cook context and the node state *)

Record OP_Context := mkContext {
  parms : Parms;
  ptGeoInput : GU_Detail;               (* inputGeo(0, context) *)
  refGeoInput : option GU_Detail        (* inputGeo(1, context), may be null *)
}.

Record Node := mkNode {
  mVoxelSize : Real;                    (* Cache::mVoxelSize *)
  messages : list Diagnostic;           (* addError / addWarning / addMessage *)
  gdp : list GU_PrimVDB;                (* primitives of the output detail *)
  calls : list Call                     (* calls to the volume tools *)
}.

Definition set_mVoxelSize (v : Real) (self : Node) : Node :=
  mkNode v (messages self) (gdp self) (calls self).

Definition addDiagnostic (s : Severity) (t : list Fragment) (self : Node) : Node :=
  mkNode (mVoxelSize self) (messages self ++ [mkDiagnostic s t]) (gdp self) (calls self).

Definition addError := addDiagnostic SOP_Error.
Definition addWarning := addDiagnostic SOP_Warning.
Definition addMessage := addDiagnostic SOP_Message.

Definition logCall (c : Call) (self : Node) : Node :=
  mkNode (mVoxelSize self) (messages self) (gdp self) (calls self ++ [c]).

(** Modelled from the spec: [hvdb::createVdbPrimitive(gdp, grid)] and
    [hvdb::createVdbPrimitive(gdp, grid, name)] are declared in
    [Utils.h].  A primitive holding the grid is appended to the detail;
    a given name becomes its name. *)
Definition createVdbPrimitive (g : GridBase) (name : option string) (self : Node) : Node :=
  let g' := match name with Some n => baseSetName n g | None => g end in
  mkNode (mVoxelSize self) (messages self) (gdp self ++ [mkPrim g']) (calls self).

(** The state a cook starts from: an empty output detail
    ([gdp->clearAndDestroy()], or the fresh detail of a generator verb)
    and no diagnostics. *)
Definition beginCook (self : Node) : Node := mkNode (mVoxelSize self) [] [] [].

(** [error()]: the highest severity recorded so far. *)
Inductive OP_ERROR := UT_ERROR_NONE | UT_ERROR_MESSAGE | UT_ERROR_WARNING | UT_ERROR_ABORT.

Definition hasSeverity (s : Severity) (self : Node) : bool :=
  existsb (fun d => bool_decide (severity d = s)) (messages self).

Definition error (self : Node) : OP_ERROR :=
  if hasSeverity SOP_Error self then UT_ERROR_ABORT
  else if hasSeverity SOP_Warning self then UT_ERROR_WARNING
  else if hasSeverity SOP_Message self then UT_ERROR_MESSAGE
  else UT_ERROR_NONE.

(** ** Attribute descriptors *)

(** [hvdb::AttributeDetail<GridType>]. *)
Record AttributeDetail := mkAttributeDetail {
  adGrid : GridBase;
  adAttribute : GA_Attribute;
  adTupleIndex : Z;
  adIsVector : bool;
  adName : string
}.

Definition set_adName (n : string) (d : AttributeDetail) : AttributeDetail :=
  mkAttributeDetail (adGrid d) (adAttribute d) (adTupleIndex d) (adIsVector d) n.

(** ** External tools *)

Class Externals := {
  (** [matchGroup(detail, pattern)] followed by [VdbPrimCIterator]: the
      VDB primitives of the detail that the group selects, in iteration
      order. *)
  matchGroup : GU_Detail -> string -> list GU_PrimVDB;
  (** [boss.wasInterrupted()], which may depend on the work done. *)
  wasInterrupted : list Call -> bool;
  (** [ParticlesToLevelSet<FloatGrid, AttType>]: [setRmin], [setRmax],
      one rasterization entry point, [finalize(true)]. *)
  ParticlesToLevelSet : bool -> Real -> Real -> RasterJob -> FloatGrid -> RasterResult;
  (** The voxels of [GUvdbCreatePointMaskGrid(xform, detail)]. *)
  GUvdbCreatePointMaskGrid_voxels : Transform -> GU_Detail -> gset Coord;
  (** The voxels of [tools::topologyToLevelSet(mask, halfWidth,
      closing, dilation, smoothing)]. *)
  topologyToLevelSet_voxels : MaskGrid -> Z -> Z -> Z -> Z -> gmap Coord Real;
  (** [hvdb::evalAttrDefault<ValueType>(defaults, component)]. *)
  evalAttrDefault : forall ty : ValueType, list Real -> Z -> denote ty;
  (** The name an [AttributeDetail] is constructed with. *)
  AttributeDetail_defaultName : GA_Attribute -> Z -> bool -> string;
  (** [PointAttrTransfer]: the grid of one descriptor after the
      transfer. *)
  PointAttrTransfer : AttributeDetail -> Int32Grid -> GU_Detail -> GridBase
}.

Section Cook.
Context `{Ext : Externals}.

(** Modelled from the spec: [GUvdbCreatePointMaskGrid] is declared in
    [GU_VDBPointTools.h].  The occupancy mask of the points lives on
    the transform it is given. *)
Definition GUvdbCreatePointMaskGrid (xform : Transform) (detail : GU_Detail) : MaskGrid :=
  mkMaskGrid (GUvdbCreatePointMaskGrid_voxels xform detail) xform.

(** Modelled from the spec: [tools::topologyToLevelSet] is absent from
    the sources at hand.  The level set it returns lives on the
    transform of the mask and its band is [halfWidth] voxels wide. *)
Definition topologyToLevelSet (mask : MaskGrid) (halfWidth closing dilation smoothing : Z)
  : FloatGrid :=
  mkGrid (topologyToLevelSet_voxels mask halfWidth closing dilation smoothing)
         (of_int halfWidth * vec_x (voxelSize (maskTransform mask)))%Qc
         GRID_LEVEL_SET (maskTransform mask) "" 0.

(** Modelled from the spec: [ParticlesToLevelSet::attributeGrid] is
    absent from the sources at hand.  The index grid shares the
    transform of the distance grid it was derived from. *)
Definition attributeGrid (r : RasterResult) (sdf : FloatGrid) : Int32Grid :=
  mkGrid (attVoxels r) (attBackground r) GRID_UNKNOWN (transform sdf) "" 0.

(** The entry point both converters choose (lines 1036-1044 and
    1072-1080). *)
Definition rasterJob (P : Parms) (paList : ParticleList) : RasterJob :=
  let velocityTrails := velocitytrails P =? 1 in
  if velocityTrails && hasVelocity paList
  then rasterizeTrails paList (to_float (trailresolution P))
  else if hasRadius paList
       then rasterizeSpheres paList
       else rasterizeSpheresConst paList (radiusMult paList).

Definition Rmax : Real := to_float (real (1000000000000000 # 1)).   (* 1e15f *)

Definition ignoredWarning (r : RasterResult) : list Fragment :=
  [Str "Ignored "; Cnt (getMinCount r); Str " small and "; Cnt (getMaxCount r);
   Str " large particles (hint: change Minimum Radius in Voxels)"].

(** [convert]: rasterize into [outputGrid]; the grid after the call is
    returned with the node state. *)
Definition convert (P : Parms) (outputGrid : FloatGrid) (paList : ParticleList)
    (self : Node) : FloatGrid * Node :=
  let job := rasterJob P paList in
  let raster := ParticlesToLevelSet false (minradius P) Rmax job outputGrid in
  let self := logCall (Call_ParticlesToLevelSet false (minradius P) Rmax job outputGrid) self in
  (* always prune to produce a valid narrow-band level set *)
  let outputGrid := setVoxels (sdfVoxels raster) outputGrid in
  let self := if ignoredParticles raster
              then addWarning (ignoredWarning raster) self else self in
  (outputGrid, self).

(** [TreeType(closestPtnIdxGrid.tree(), defValue, TopologyCopy())]
    wrapped in a grid: the active voxels of the index grid, each holding
    the default value. *)
Definition topologyCopy {V} (closestPtnIdxGrid : Int32Grid) (defValue : V) : Grid V :=
  mkGrid ((fun _ => defValue) <$> voxels closestPtnIdxGrid) defValue
         GRID_UNKNOWN (createLinearTransform (real 1)) "" 0.

Definition push_back (d : AttributeDetail) (l : list AttributeDetail) := l ++ [d].

(** [addAttributeDetails<ValueType>]. *)
Definition addAttributeDetails (ty : ValueType) (attributeList : list AttributeDetail)
    (attr : GA_Attribute) (tupleAIF : GA_AIFTuple) (attrTupleSize : Z)
    (closestPtnIdxGrid : Int32Grid) (customName : string) (vecType : Z)
  : list AttributeDetail :=
  if negb (vecType =? -1) then
    (* vector grid *)
    let defValue := evalAttrDefault ty (getDefaults tupleAIF) 0 in
    let grid := setVectorType vecType (topologyCopy closestPtnIdxGrid defValue) in
    let d := mkAttributeDetail (toBase ty grid) attr 0 true
               (AttributeDetail_defaultName attr 0 true) in
    push_back (if (0 <? Z.of_nat (String.length customName))
               then set_adName customName d else d) attributeList
  else
    foldl (fun attributeList c =>
             let defValue := evalAttrDefault ty (getDefaults tupleAIF) c in
             let grid := topologyCopy closestPtnIdxGrid defValue in
             let d := mkAttributeDetail (toBase ty grid) attr c false
                        (AttributeDetail_defaultName attr c false) in
             push_back
               (if (0 <? Z.of_nat (String.length customName))
                then set_adName
                       (String.append customName
                          (if negb (attrTupleSize =? 1)
                           then String.append "_" (pretty c) else "")) d
                else d) attributeList)
          attributeList (seqZ 0 attrTupleSize).

Definition point_list_index : string := "point_list_index".

(** The state of the loop of [constructGenericAtttributeList]. *)
Record AttrLoop := mkAttrLoop {
  pointAttributes : list AttributeDetail;
  closestPointIndexInstance : Z;
  loopNode : Node
}.

(** One iteration of the loop, for instance [i]. *)
Definition attrLoopBody (P : Parms) (ptGeo : GU_Detail) (closestPtnIdxGrid : Int32Grid)
    (i : Z) (st : AttrLoop) : AttrLoop :=
  let attrName := attribute (evalInst P i) in
  if (String.length attrName =? 0)%nat then st
  else if String.eqb attrName point_list_index then
    (* the closest point index grid is a special case,
       the converter has already generated it *)
    mkAttrLoop (pointAttributes st) i (loopNode st)
  else
    match findPointAttribute ptGeo attrName with
    | None =>
        mkAttrLoop (pointAttributes st) (closestPointIndexInstance st)
          (addWarning [Str "Skipped unrecognized attribute: '"; Str attrName; Str "'"]
             (loopNode st))
    | Some attr =>
        let customName := attributeGridName (evalInst P i) in
        let vecType := vecType (evalInst P i) in
        match getAIFTuple attr with
        | None =>
            mkAttrLoop (pointAttributes st) (closestPointIndexInstance st)
              (addWarning [Str "Skipped unrecognized attribute type"] (loopNode st))
        | Some tupleAIF =>
            let attrStorage := getStorage tupleAIF in
            let attrTupleSize := getTupleSize tupleAIF in
            let typeInfo := getTypeInfo attr in
            let interpertAsVector :=
              match typeInfo with
              | GA_TYPE_HPOINT | GA_TYPE_POINT | GA_TYPE_VECTOR | GA_TYPE_NORMAL => true
              | _ => false
              end in
            let add ty vt :=
              mkAttrLoop
                (addAttributeDetails ty (pointAttributes st) attr tupleAIF attrTupleSize
                   closestPtnIdxGrid customName vt)
                (closestPointIndexInstance st) (loopNode st) in
            match attrStorage with
            | GA_STORE_INT16 | GA_STORE_INT32 =>
                if interpertAsVector || (attrTupleSize =? 3)
                then add TVec3i vecType else add TInt32 (-1)
            | GA_STORE_INT64 => add TInt64 (-1)
            | GA_STORE_REAL16 | GA_STORE_REAL32 =>
                if interpertAsVector || (attrTupleSize =? 3)
                then add TVec3s vecType else add TFloat (-1)
            | GA_STORE_REAL64 =>
                if interpertAsVector || (attrTupleSize =? 3)
                then add TVec3d vecType else add TDouble (-1)
            | _ =>
                mkAttrLoop (pointAttributes st) (closestPointIndexInstance st)
                  (addWarning [Str "Skipped unrecognized attribute type"] (loopNode st))
            end
        end
    end.

(** [for (int i = ...; i <= N; ++i)] with [n] iterations left. *)
Fixpoint attrLoop (P : Parms) (ptGeo : GU_Detail) (closestPtnIdxGrid : Int32Grid)
    (n : nat) (i : Z) (st : AttrLoop) : AttrLoop :=
  match n with
  | O => st
  | S n' =>
      attrLoop P ptGeo closestPtnIdxGrid n' (i + 1)
        (attrLoopBody P ptGeo closestPtnIdxGrid i st)
  end.

(** [constructGenericAtttributeList]: the filled descriptor list, the
    returned instance number and the node state. *)
Definition constructGenericAtttributeList (P : Parms) (pointAttributes : list AttributeDetail)
    (ptGeo : GU_Detail) (closestPtnIdxGrid : Int32Grid) (self : Node) : AttrLoop :=
  attrLoop P ptGeo closestPtnIdxGrid (Z.to_nat (evalInt_attrList P)) 1
    (mkAttrLoop pointAttributes (-1) self).

(** [transferAttributes]: run the transfer, then add one primitive per
    descriptor. *)
Definition transferAttributes (pointAttributes : list AttributeDetail)
    (closestPtnIdxGrid : Int32Grid) (transform : Transform) (ptGeo : GU_Detail)
    (self : Node) : Node :=
  let self := logCall (Call_PointAttrTransfer (length pointAttributes)) self in
  foldl (fun self attrDetail =>
           let grid := PointAttrTransfer attrDetail closestPtnIdxGrid ptGeo in
           createVdbPrimitive (baseSetTransform transform grid) (Some (adName attrDetail)) self)
        self pointAttributes.

(** [convertWithAttributes]. *)
Definition convertWithAttributes (P : Parms) (outputGrid : FloatGrid)
    (paList : ParticleList) (ptGeo : GU_Detail) (self : Node) : FloatGrid * Node :=
  let job := rasterJob P paList in
  let raster := ParticlesToLevelSet true (minradius P) Rmax job outputGrid in
  let self := logCall (Call_ParticlesToLevelSet true (minradius P) Rmax job outputGrid) self in
  (* always prune to produce a valid narrow-band level set *)
  let outputGrid := setVoxels (sdfVoxels raster) outputGrid in
  let closestPtnIdxGrid := attributeGrid raster outputGrid in
  let self := if ignoredParticles raster
              then addWarning (ignoredWarning raster) self else self in
  if wasInterrupted (calls self) then (outputGrid, self)
  else if 0 <? evalInt_attrList P then
    let st := constructGenericAtttributeList P [] ptGeo closestPtnIdxGrid self in
    let transform := transform outputGrid in
    let self := transferAttributes (pointAttributes st) closestPtnIdxGrid transform ptGeo
                  (loopNode st) in
    if -1 <? closestPointIndexInstance st then
      (* export the closest point idx grid *)
      let gridNameStr := attributeGridName (evalInst P (closestPointIndexInstance st)) in
      let gridNameStr := if (String.length gridNameStr =? 0)%nat
                         then point_list_index else gridNameStr in
      (outputGrid, createVdbPrimitive (Int32GridB closestPtnIdxGrid) (Some gridNameStr) self)
    else (outputGrid, self)
  else (outputGrid, self).

(** [openvdb::FloatGrid::create(background)], recorded as a call. *)
Definition FloatGrid_create (bg : Real) (self : Node) : FloatGrid * Node :=
  (Grid_create bg, logCall (Call_FloatGrid_create bg) self).

(** The clamp of the bounding limit to the zero-one range (line 947). *)
Definition clampOffset (offset : Real) : Real :=
  std_min (std_max offset (real 0)) (real 1).

(** Lines 943-990 of [cookVDBSop]: the body of
    [if (outputMaskVolumeGrid)]. *)
Definition buildMaskVolume (ctx : OP_Context) (paList : ParticleList)
    (background : Real) (transform : Transform) (doSphereConversion : bool)
    (bandWidth : Z) (pointMaskGrid : option MaskGrid) (self : Node) : Node :=
  let P := parms ctx in
  let dilation := dilation P in
  let closing := closing P in
  let smoothing := smoothing P in
  let radiusScale := radiusMult paList in
  let offset := clampOffset (boundinglimit P) in
  let '(maxGrid, self) := FloatGrid_create background self in
  let maxGrid := setTransform transform (setGridClass GRID_LEVEL_SET maxGrid) in
  let '(minGrid, self) := FloatGrid_create background self in
  let minGrid := setTransform transform (setGridClass GRID_LEVEL_SET minGrid) in
  let '(maxGrid, minGrid, self) :=
    if Real_ltb (real 0) offset then
      if doSphereConversion then
        let paList := setRadiusMult (radiusScale * (1 + offset))%Qc paList in
        let '(maxGrid, self) := convert P maxGrid paList self in
        let paList := setRadiusMult (radiusScale * (1 - offset))%Qc paList in
        let '(minGrid, self) := convert P minGrid paList self in
        (maxGrid, minGrid, self)
      else
        let '(pointMaskGrid, self) :=
          match pointMaskGrid with
          | Some m => (m, self)
          | None => (GUvdbCreatePointMaskGrid transform (ptGeoInput ctx),
                     logCall (Call_GUvdbCreatePointMaskGrid transform) self)
          end in
        let dx := of_int (Z.min dilation 1) in
        let increase := ceil (to_double (dx * to_double (1 + offset))) in
        let decrease := to_int (to_double (dx * to_double (1 - offset))) in
        let maxGrid := topologyToLevelSet pointMaskGrid bandWidth closing increase smoothing in
        let self := logCall (Call_topologyToLevelSet bandWidth closing increase smoothing) self in
        let minGrid := topologyToLevelSet pointMaskGrid bandWidth closing decrease smoothing in
        let self := logCall (Call_topologyToLevelSet bandWidth closing decrease smoothing) self in
        (maxGrid, minGrid, self)
    else (maxGrid, minGrid, self) in
  let maxGrid := csgDifference maxGrid minGrid in
  let self := logCall Call_csgDifference self in
  let maxGrid := sdfToFogVolume maxGrid in
  let self := logCall Call_sdfToFogVolume self in
  let maxGrid := setName (maskname P) maxGrid in
  createVdbPrimitive (FloatGridB maxGrid) None self.

(** Lines 992-1009 of [cookVDBSop]: the distance and fog outputs. *)
Definition exportOutputGrid (P : Parms) (outputGrid : FloatGrid) (self : Node) : Node :=
  let outputLevelSetGrid := to_bool (builddistance P) in
  let outputFogVolumeGrid := to_bool (buildfog P) in
  let outputGrid := if outputLevelSetGrid
                    then setName (distancename P) outputGrid else outputGrid in
  let self := if outputLevelSetGrid
              then createVdbPrimitive (FloatGridB outputGrid) None self else self in
  if outputFogVolumeGrid then
    (* only duplicate the output grid if both distance
       and fog volume grids are exported *)
    let '(outputGrid, self) :=
      if outputLevelSetGrid
      then (deepCopy outputGrid, logCall Call_deepCopy self)
      else (outputGrid, self) in
    let outputGrid := sdfToFogVolume outputGrid in
    let self := logCall Call_sdfToFogVolume self in
    let outputGrid := setName (fogname P) outputGrid in
    createVdbPrimitive (FloatGridB outputGrid) None self
  else self.

(** Lines 903-908 of [cookVDBSop]: the grid the conversion writes
    into, the copy of the reference grid when there is one and a new
    grid otherwise, tagged as a level set on the cook's transform. *)
Definition targetGrid (background : Real) (transform : Transform)
    (outputGrid : option FloatGrid) (self : Node) : FloatGrid * Node :=
  let '(outputGrid, self) :=
    match outputGrid with
    | Some g => (g, self)
    | None => FloatGrid_create background self
    end in
  (setTransform transform (setGridClass GRID_LEVEL_SET outputGrid), self).

(** Lines 910-941 of [cookVDBSop]: the primary conversion.  Returns the
    output grid, the point mask of the topology path and the node
    state. *)
Definition primaryConversion (ctx : OP_Context) (paList : ParticleList)
    (transform : Transform) (bandWidth : Z) (outputGrid : FloatGrid)
    (self : Node) : FloatGrid * option MaskGrid * Node :=
  let P := parms ctx in
  let ptGeo := ptGeoInput ctx in
  let outputAttributeGrid := 0 <? evalInt_attrList P in
  let doSphereConversion := conversion P =? 0 in
  if doSphereConversion then
    let self :=
      if negb (velocitytrails P =? 0) && negb (hasVelocity paList)
      then addWarning [Str "Velocity trails require a velocity point attribute named 'v' of type 3fv."] self
      else self in
    let '(outputGrid, self) :=
      if outputAttributeGrid
      then convertWithAttributes P outputGrid paList ptGeo self
      else convert P outputGrid paList self in
    (outputGrid, None, self)
  else
    let pointMaskGrid := GUvdbCreatePointMaskGrid transform ptGeo in
    let self := logCall (Call_GUvdbCreatePointMaskGrid transform) self in
    let sdfGrid := topologyToLevelSet pointMaskGrid bandWidth (closing P) (dilation P)
                     (smoothing P) in
    let self := logCall (Call_topologyToLevelSet bandWidth (closing P) (dilation P)
                           (smoothing P)) self in
    let outputGrid := csgUnion outputGrid sdfGrid in
    let self := logCall Call_csgUnion self in
    (outputGrid, Some pointMaskGrid, self).

(** Lines 900-1010 of [cookVDBSop]: "Perform the particle
    conversion". *)
Definition performConversion (ctx : OP_Context) (paList : ParticleList)
    (background : Real) (transform : Transform) (outputGrid : option FloatGrid)
    (self : Node) : Node :=
  let P := parms ctx in
  if wasInterrupted (calls self) then self
  else
    let '(outputGrid, self) := targetGrid background transform outputGrid self in
    (* point topology conversion settings; the quotient is a float
       division, its ceiling is converted to int *)
    let bandWidth := ceil (to_float (background / mVoxelSize self)) in
    let '(outputGrid, pointMaskGrid, self) :=
      primaryConversion ctx paList transform bandWidth outputGrid self in
    let self :=
      if to_bool (buildmask P)
      then buildMaskVolume ctx paList background transform (conversion P =? 0)
             bandWidth pointMaskGrid self
      else self in
    exportOutputGrid P outputGrid self.

Definition minVoxelSize : Real := real (1 # 100000).   (* 1e-5 *)

Definition matchingNote : list Fragment :=
  [Str "Note: Matching reference level set half-band width  and background value.  (UI half-band parameter is ignored.)"].

Definition notFloatWarning : list Fragment :=
  [Str "Cannot write into the selected reference grid because it is not a float grid."].

Definition notLevelSetWarning : list Fragment :=
  [Str "Can only write directly into a level set grid."].

(** The locals the reference block leaves to the conversion: the
    transform, the background, the grid to write into (null unless the
    reference is merged) and the node state. *)
Record ConversionSetup := mkSetup {
  setupTransform : Transform;
  setupBackground : Real;
  setupOutputGrid : option FloatGrid;
  setupNode : Node
}.

(** Lines 862-891 of [cookVDBSop]: the body of [if (refPrim)]. *)
Definition useReference (P : Parms) (refPrim : GU_PrimVDB) (background : Real)
    (self : Node) : ConversionSetup :=
  let transform := baseTransform (getGrid refPrim) in
  let self := set_mVoxelSize (to_float (vec_x (voxelSize transform))) self in
  let isLevelSet := bool_decide (getGridClass (getGrid refPrim) = GRID_LEVEL_SET) in
  (* match the narrow band width *)
  let matchBand := isLevelSet && isFloatGrid (getGrid refPrim) in
  let background :=
    if matchBand
    then match gridPtrCast_Float (getGrid refPrim) with
         | Some g => Grid_background g
         | None => background
         end
    else background in
  let self := if matchBand then addMessage matchingNote self else self in
  let '(outputGrid, self) :=
    if negb (merge_ P =? 0) then
      if isLevelSet then
        let outputGrid := gridPtrCast_Float (getGrid refPrim) in
        let self := logCall Call_deepCopyGrid self in
        (outputGrid,
         match outputGrid with
         | Some _ => self
         | None => addWarning notFloatWarning self
         end)
      else (None, addWarning notLevelSetWarning self)
    else (None, self) in
  mkSetup transform background outputGrid self.

(** [cookVDBSop]. *)
Definition cookVDBSop (ctx : OP_Context) (self : Node) : Node :=
  let self := beginCook self in
  let P := parms ctx in
  let ptGeo := ptGeoInput ctx in
  let refGeo := refGeoInput ctx in
  let self := set_mVoxelSize (to_float (voxelsize P)) self in
  if Real_ltb (mVoxelSize self) minVoxelSize then
    addError [Str "The voxel size ("; Num (mVoxelSize self); Str ") is too small."] self
  else
    let outputLevelSetGrid := to_bool (builddistance P) in
    let outputFogVolumeGrid := to_bool (buildfog P) in
    let outputAttributeGrid := 0 <? evalInt_attrList P in
    if negb outputFogVolumeGrid && negb outputLevelSetGrid && negb outputAttributeGrid then
      addWarning [Str "No output selected"] self
    else
      let paList := ParticleList_new ptGeo (particlescale P) (velocityscale P) in
      let background :=
        if negb (useworldspace P =? 0) then to_float (halfband P)
        else to_float (mVoxelSize self * to_float (halfbandvoxels P)) in
      let transform := createLinearTransform (mVoxelSize self) in
      (* optionally copy reference grid and/or transform *)
      match refGeo with
      | Some refGeo =>
          match head (matchGroup refGeo (referencevdb P)) with
          | Some refPrim =>
              let setup := useReference P refPrim background self in
              performConversion ctx paList (setupBackground setup) (setupTransform setup)
                (setupOutputGrid setup) (setupNode setup)
          | None =>
              addError [Str "Second input has no VDB primitives."] self
          end
      | None => performConversion ctx paList background transform None self
      end.

End Cook.

(** ** The half-band unit converter *)

(** The operator node: its parameters and, for a compiled node, the
    verb cache of its last cook. *)
Record SOP_OpenVDB_From_Particles := mkSOP {
  sopParms : Parms;
  myNodeVerbCache : option Node
}.

Definition setFloat_halfband (v : Real) (P : Parms) : Parms :=
  mkParms (builddistance P) (distancename P) (buildfog P) (fogname P) (buildmask P)
    (maskname P) (boundinglimit P) (referencevdb P) (merge_ P) (voxelsize P)
    (useworldspace P) (halfbandvoxels P) v (conversion P) (particlescale P)
    (minradius P) (velocitytrails P) (velocityscale P) (trailresolution P)
    (attrList P) (dilation P) (closing P) (smoothing P).

Definition setFloat_halfbandvoxels (v : Real) (P : Parms) : Parms :=
  mkParms (builddistance P) (distancename P) (buildfog P) (fogname P) (buildmask P)
    (maskname P) (boundinglimit P) (referencevdb P) (merge_ P) (voxelsize P)
    (useworldspace P) v (halfband P) (conversion P) (particlescale P)
    (minradius P) (velocitytrails P) (velocityscale P) (trailresolution P)
    (attrList P) (dilation P) (closing P) (smoothing P).

Definition setInt_useworldspace (v : Z) (P : Parms) : Parms :=
  mkParms (builddistance P) (distancename P) (buildfog P) (fogname P) (buildmask P)
    (maskname P) (boundinglimit P) (referencevdb P) (merge_ P) (voxelsize P)
    v (halfbandvoxels P) (halfband P) (conversion P) (particlescale P)
    (minradius P) (velocitytrails P) (velocityscale P) (trailresolution P)
    (attrList P) (dilation P) (closing P) (smoothing P).

(** The voxel size [convertUnits] works with: that of the cache when
    there is one, [0.1f] otherwise. *)
Definition voxSize (sop : SOP_OpenVDB_From_Particles) : Real :=
  match myNodeVerbCache sop with
  | Some cache => mVoxelSize cache
  | None => to_float (real (1 # 10))
  end.

(** The two conversions of the half-band width, in [double]: the
    rounded product (line 681) and the rounded quotient (line 687).
    The quotient by a zero voxel size is an infinity or a NaN, which is
    [None] here. *)
Definition voxelsToWorld (voxels voxSize : Real) : Real :=
  to_double (voxels * voxSize).
Definition worldToVoxels (world voxSize : Real) : option Real :=
  if bool_decide (voxSize = real 0) then None
  else Some (to_double (world / voxSize)).

(** [convertUnits]: the callback of the [useworldspace] toggle; returns
    1 and the node with one of the two parameters rewritten ([None]
    when the value written is not a number). *)
Definition convertUnits (sop : SOP_OpenVDB_From_Particles)
  : Z * option SOP_OpenVDB_From_Particles :=
  let P := sopParms sop in
  let voxSize := voxSize sop in
  if negb (useworldspace P =? 0) then
    (1, Some (mkSOP (setFloat_halfband (voxelsToWorld (halfbandvoxels P) voxSize) P)
                    (myNodeVerbCache sop)))
  else
    (1, (fun voxels => mkSOP (setFloat_halfbandvoxels voxels P) (myNodeVerbCache sop))
          <$> worldToVoxels (halfband P) voxSize).

(** ** The attribute menu *)

(** [PRM_Name]: a token and a label, null until set. *)
Record PRM_Name := mkPRM_Name {
  getToken : option string;
  getLabel : option string
}.

(** [PRM_SpareData]: a table of named strings. *)
Definition PRM_SpareData := gmap string string.

(** What the menu builder is handed as [data]: some node, which
    [CAST_SOPNODE] turns into a SOP node or into null. *)
Inductive OP_Node :=
| OtherNode
| SopNode (getInputLastGeo : Z -> option GU_Detail).

Definition CAST_SOPNODE (data : OP_Node) : option (Z -> option GU_Detail) :=
  match data with
  | OtherNode => None
  | SopNode inputs => Some inputs
  end.

(** Conversion to [size_t] on a 64-bit host. *)
Definition size_t (z : Z) : Z := z mod 2 ^ 64.

(** [menuEntries[i].setToken(t); menuEntries[i].setLabel(l)] for an
    index of type [size_t]; a write past the end of the array is
    [None]. *)
Definition setEntry (i : Z) (t l : option string) (menuEntries : list PRM_Name)
  : option (list PRM_Name) :=
  if bool_decide (i < Z.of_nat (length menuEntries))
  then Some (<[Z.to_nat i := mkPRM_Name t l]> menuEntries)
  else None.

Section Menu.
(** [PRM_Name::mySeparator] and the C library's [atoi]. *)
Variable mySeparator : string.
Variable atoi : string -> Z.

(** [lookupAttrInput]. *)
Definition lookupAttrInput (spare : option PRM_SpareData) : Z :=
  match spare with
  | None => 0
  | Some spare =>
      match spare !! "sop_input" with
      | Some istring => atoi istring
      | None => 0
      end
  end.

(** The loop over the public point attributes (lines 225-232): the
    index after the loop and the array. *)
Fixpoint menuLoop (iter : list GA_Attribute) (menuIdx menuEnd : Z)
    (menuEntries : list PRM_Name) : option (Z * list PRM_Name) :=
  match iter with
  | [] => Some (menuIdx, menuEntries)
  | a :: iter' =>
      if negb (menuIdx =? menuEnd) then
        match setEntry menuIdx (Some (getName a)) (Some (getName a)) menuEntries with
        | Some menuEntries => menuLoop iter' (size_t (menuIdx + 1)) menuEnd menuEntries
        | None => None
        end
      else Some (menuIdx, menuEntries)
  end.

(** [sopBuildAttrMenu].  The result is [None] when a write leaves the
    array, and otherwise the array after the call ([None] for a null
    array). *)
Definition sopBuildAttrMenu (data : option OP_Node) (menuEntries : option (list PRM_Name))
    (themenusize : Z) (spare : option PRM_SpareData)
  : option (option (list PRM_Name)) :=
  match data, menuEntries, spare with
  | Some data, Some menuEntries, Some _ =>
      match CAST_SOPNODE data with
      | None =>
          (* terminate and quit *)
          Some <$> setEntry 0 None None menuEntries
      | Some getInputLastGeo =>
          let inputIndex := lookupAttrInput spare in
          let gdp := getInputLastGeo inputIndex in
          let menuIdx := 0 in
          let menuEnd := size_t (themenusize - 2) in
          (* null object *)
          match setEntry menuIdx (Some "0") (Some "- no attribute selected -") menuEntries with
          | None => None
          | Some menuEntries =>
              let menuIdx := size_t (menuIdx + 1) in
              let filled :=
                match gdp with
                | Some gdp =>
                    (* point attribute names *)
                    let iter := pointAttribs gdp in
                    if negb (bool_decide (iter = [])) && negb (menuIdx =? menuEnd) then
                      let separated :=
                        if 0 <? menuIdx then
                          match setEntry menuIdx (Some mySeparator) (Some mySeparator)
                                  menuEntries with
                          | Some menuEntries => Some (size_t (menuIdx + 1), menuEntries)
                          | None => None
                          end
                        else Some (menuIdx, menuEntries) in
                      match separated with
                      | None => None
                      | Some (menuIdx, menuEntries) =>
                          match menuLoop iter menuIdx menuEnd menuEntries with
                          | None => None
                          | Some (menuIdx, menuEntries) =>
                              (* special case *)
                              match setEntry menuIdx (Some point_list_index)
                                      (Some point_list_index) menuEntries with
                              | Some menuEntries => Some (size_t (menuIdx + 1), menuEntries)
                              | None => None
                              end
                          end
                      end
                    else Some (menuIdx, menuEntries)
                | None => Some (menuIdx, menuEntries)
                end in
              match filled with
              | None => None
              | Some (menuIdx, menuEntries) =>
                  (* terminator *)
                  Some <$> setEntry menuIdx None None menuEntries
              end
          end
      end
  | _, _, _ => Some menuEntries
  end.

End Menu.

(** ** Parameter flags *)

(** The requests [updateParmsFlags] makes to the host. *)
Inductive FlagRequest :=
| enableParm (name : string) (state : bool)
| setVisibleState (name : string) (state : bool)
| enableParmInst (name : string) (inst : Z) (state : bool)
| setVisibleStateInst (name : string) (inst : Z) (state : bool).

(** Whether the vector type menu applies to the attribute an instance
    names (lines 771-790). *)
Definition vecTypeApplies (ptGeo : GU_Detail) (attrName : string) : bool :=
  if negb (String.length attrName =? 0)%nat then
    match findPointAttribute ptGeo attrName with
    | Some attr =>
        let typeInfo := getTypeInfo attr in
        let isVector :=
          match typeInfo with
          | GA_TYPE_HPOINT | GA_TYPE_POINT | GA_TYPE_VECTOR | GA_TYPE_NORMAL => true
          | _ => false
          end in
        if negb isVector then
          match getAIFTuple attr with
          | Some tupleAIF => getTupleSize tupleAIF =? 3
          | None => isVector
          end
        else isVector
    | None => false
    end
  else false.

(** [for (int i = ...; i <= N; ++i)] of [updateParmsFlags], with [n]
    iterations left. *)
Fixpoint flagsLoop (P : Parms) (ptGeo : GU_Detail) (n : nat) (i : Z)
    (requests : list FlagRequest) : list FlagRequest :=
  match n with
  | O => requests
  | S n' =>
      let isVector := vecTypeApplies ptGeo (attribute (evalInst P i)) in
      flagsLoop P ptGeo n' (i + 1)
        (requests ++ [enableParmInst "vecType#" i isVector;
                      setVisibleStateInst "vecType#" i isVector])
  end.

Section Flags.
(** What the host answers to a request, given the requests made before
    it: whether the flag changed. *)
Variable flagChanged : list FlagRequest -> FlagRequest -> bool.

(** [changed |= request], for each request in order. *)
Fixpoint askAll (earlier requests : list FlagRequest) : bool :=
  match requests with
  | [] => false
  | r :: rest =>
      let answer := flagChanged earlier r in
      let changed := askAll (earlier ++ [r]) rest in
      answer || changed
  end.

(** [updateParmsFlags]: the requests made, in order, and the returned
    [changed]; [nInputs] is the number of connected inputs and [ptGeo]
    the geometry of the first one, which may be null. *)
Definition updateParmsFlags (P : Parms) (nInputs : Z) (ptGeo : option GU_Detail)
  : bool * list FlagRequest :=
  let useMask := buildmask P =? 1 in
  let hasRefInput := nInputs =? 2 in
  let useWSUnits := to_bool (useworldspace P) in
  let useTrails := velocitytrails P =? 1 in
  let requests :=
    [enableParm "distancename" (to_bool (builddistance P));
     enableParm "fogname" (to_bool (buildfog P));
     enableParm "boundinglimit" useMask;
     enableParm "maskname" useMask;
     enableParm "referencevdb" hasRefInput;
     enableParm "merge" hasRefInput;
     enableParm "voxelsize" (negb hasRefInput);
     setVisibleState "halfbandvoxels" (negb useWSUnits);
     setVisibleState "halfband" useWSUnits;
     enableParm "trailresolution" useTrails;
     enableParm "velocityscale" useTrails] in
  (* enable / disable vector type menu *)
  let requests :=
    match ptGeo with
    | Some ptGeo => flagsLoop P ptGeo (Z.to_nat (evalInt_attrList P)) 1 requests
    | None => requests
    end in
  (askAll [] requests, requests).

End Flags.

(** ** A small executable instance of the external tools

    Sample tools for running the cook on concrete inputs: a rasterizer
    that writes the centre voxel of every accepted particle, a topology
    builder that puts the surface on the occupied voxels, an attribute
    transfer that leaves the defaults in place, a group pattern that
    selects by primitive name (the empty pattern selects everything) and
    an interrupter that never fires. *)
Module Sample.

Definition voxelOf (tx : Transform) (p : Vec3) : Coord :=
  let '(x, y, z) := p in
  let '(sx, sy, sz) := voxelSize tx in
  (Qfloor (x / sx)%Qc, Qfloor (y / sy)%Qc, Qfloor (z / sz)%Qc).

Fixpoint splat (rmin rmax : Real) (job : RasterJob) (target : FloatGrid)
    (k : nat) (n : nat) (acc : RasterResult) : RasterResult :=
  match k with
  | O => acc
  | S k' =>
      let r := default (real 0) (jobRadius job n) in
      let c := voxelOf (transform target) (getPos (jobParticles job) n) in
      let acc :=
        if Real_ltb r (rmin * vec_x (voxelSize (transform target)))%Qc then
          mkRasterResult (sdfVoxels acc) (attVoxels acc) (attBackground acc)
            (getMinCount acc + 1) (getMaxCount acc)
        else if Real_ltb rmax r then
          mkRasterResult (sdfVoxels acc) (attVoxels acc) (attBackground acc)
            (getMinCount acc) (getMaxCount acc + 1)
        else
          mkRasterResult (<[c := (- r)%Qc]> (sdfVoxels acc))
            (<[c := getAtt n]> (attVoxels acc)) (attBackground acc)
            (getMinCount acc) (getMaxCount acc) in
      splat rmin rmax job target k' (S n) acc
  end.

Definition sampleDefault (ty : ValueType) (defaults : list Real) (c : Z) : denote ty :=
  let d := nth (Z.to_nat c) defaults (real 0) in
  match ty with
  | TInt32 | TInt64 => Qfloor d
  | TFloat | TDouble => d
  | TVec3i => (Qfloor d, Qfloor d, Qfloor d)
  | TVec3s | TVec3d => (d, d, d)
  end.

Definition sampleName (attr : GA_Attribute) (c : Z) (isVector : bool) : string :=
  if isVector then getName attr
  else match getAIFTuple attr with
       | Some t => if getTupleSize t =? 1 then getName attr
                   else String.append (getName attr) (String.append "_" (pretty c))
       | None => getName attr
       end.

#[export] Instance tools : Externals := {|
  matchGroup gd pattern :=
    filter (fun p => Is_true ((String.length pattern =? 0)%nat
                              || String.eqb (baseName (getGrid p)) pattern))
           (vdbPrims gd);
  wasInterrupted _ := false;
  ParticlesToLevelSet _ rmin rmax job target :=
    splat rmin rmax job target (ParticleList_size (jobParticles job)) 0
      (mkRasterResult (voxels target) ∅ (-1) 0 0);
  GUvdbCreatePointMaskGrid_voxels tx gd := list_to_set (map (voxelOf tx) (pointPos gd));
  topologyToLevelSet_voxels mask _ _ _ _ := gset_to_gmap (real 0) (maskVoxels mask);
  evalAttrDefault := sampleDefault;
  AttributeDetail_defaultName := sampleName;
  PointAttrTransfer d _ _ := adGrid d
|}.

(** Two particles with radii, no velocity, one integer attribute. *)
Definition twoPoints : GU_Detail :=
  {| pointPos := [(real 0, real 0, real 0); (real 1, real 0, real 0)];
     pscale := Some [real (3 # 10); real (3 # 10)];
     velocity := None;
     pointAttribs :=
       [mkAttribute "id" GA_TYPE_VOID (Some (mkAIFTuple GA_STORE_INT32 1 [real 0]))
          [[real 7]; [real 9]]];
     vdbPrims := [] |}.

(** The factory defaults of the parameters. *)
Definition defaults : Parms :=
  {| builddistance := 1; distancename := "surface";
     buildfog := 0; fogname := "density";
     buildmask := 0; maskname := "boundingvolume";
     boundinglimit := real (1 # 4);
     referencevdb := ""; merge_ := 0;
     voxelsize := real (1 # 10);
     useworldspace := 0; halfbandvoxels := real 3; halfband := real 1;
     conversion := 0;
     particlescale := real 1; minradius := real (3 # 2);
     velocitytrails := 0; velocityscale := real 1; trailresolution := real 1;
     attrList := [];
     dilation := 1; closing := 1; smoothing := 0 |}.

Definition freshNode : Node := mkNode (real (1 # 10)) [] [] [].

Definition set_voxelsize (v : Real) (P : Parms) : Parms :=
  mkParms (builddistance P) (distancename P) (buildfog P) (fogname P) (buildmask P)
    (maskname P) (boundinglimit P) (referencevdb P) (merge_ P) v
    (useworldspace P) (halfbandvoxels P) (halfband P) (conversion P) (particlescale P)
    (minradius P) (velocitytrails P) (velocityscale P) (trailresolution P)
    (attrList P) (dilation P) (closing P) (smoothing P).

(** Which outputs are requested: distance, fog, mask, attributes. *)
Definition set_outputs (d f m : Z) (l : list AttrInstance) (P : Parms) : Parms :=
  mkParms d (distancename P) f (fogname P) m
    (maskname P) (boundinglimit P) (referencevdb P) (merge_ P) (voxelsize P)
    (useworldspace P) (halfbandvoxels P) (halfband P) (conversion P) (particlescale P)
    (minradius P) (velocitytrails P) (velocityscale P) (trailresolution P)
    l (dilation P) (closing P) (smoothing P).

(** A cook with the default parameters but a zero voxel size. *)
Definition zeroVoxelSize : OP_Context :=
  mkContext (set_voxelsize (real 0) defaults) twoPoints None.

(** Nothing requested. *)
Definition nothingRequested : OP_Context :=
  mkContext (set_outputs 0 0 0 [] defaults) twoPoints None.

(** Nothing requested, and a zero voxel size. *)
Definition nothingRequestedZeroVoxel : OP_Context :=
  mkContext (set_voxelsize (real 0) (set_outputs 0 0 0 [] defaults)) twoPoints None.

(** Only the mask requested. *)
Definition maskOnly : OP_Context :=
  mkContext (set_outputs 0 0 1 [] defaults) twoPoints None.

(** Only the mask requested, and a zero voxel size. *)
Definition maskOnlyZeroVoxel : OP_Context :=
  mkContext (set_voxelsize (real 0) (set_outputs 0 0 1 [] defaults)) twoPoints None.

(** Two particles without a radius attribute but with velocities. *)
Definition twoMovingPoints : GU_Detail :=
  {| pointPos := [(real 0, real 0, real 0); (real 1, real 0, real 0)];
     pscale := None;
     velocity := Some [(real 1, real 0, real 0); (real 0, real 1, real 0)];
     pointAttribs := [];
     vdbPrims := [] |}.

(** The reserved attribute requested twice, as "a" and as "b", around
    an ordinary attribute; no distance, fog or mask output. *)
Definition indexTwice : Parms :=
  set_outputs 0 0 0
    [mkAttrInstance "point_list_index" "a" 0;
     mkAttrInstance "id" "" 0;
     mkAttrInstance "point_list_index" "b" 0] defaults.

(** A level-set target grid on a transform of voxel size one tenth. *)
Definition emptyTarget : FloatGrid :=
  setTransform (createLinearTransform (real (1 # 10)))
    (setGridClass GRID_LEVEL_SET (Grid_create (real (3 # 10)))).

(** The topology path with a dilation of five voxels, the mask
    requested with a bounding limit of one half. *)
Definition topologyMask : OP_Context :=
  mkContext
    (mkParms 1 "surface" 0 "density" 1 "boundingvolume" (real (1 # 2)) "" 0
       (real (1 # 10)) 0 (real 3) (real 1) 1 (real 1) (real (3 # 2)) 0 (real 1) (real 1)
       [] 5 1 0)
    twoPoints None.

(** The topology path with the default dilation of one voxel, the mask
    requested with a bounding limit of one half. *)
Definition topologyMaskUnit : OP_Context :=
  mkContext
    (mkParms 1 "surface" 0 "density" 1 "boundingvolume" (real (1 # 2)) "" 0
       (real (1 # 10)) 0 (real 3) (real 1) 1 (real 1) (real (3 # 2)) 0 (real 1) (real 1)
       [] 1 1 0)
    twoPoints None.

(** The sphere path, the mask requested with a bounding limit of zero. *)
Definition sphereMaskZero : OP_Context :=
  mkContext
    (mkParms 1 "surface" 0 "density" 1 "boundingvolume" (real 0) "" 0
       (real (1 # 10)) 0 (real 3) (real 1) 0 (real 1) (real (3 # 2)) 0 (real 1) (real 1)
       [] 1 1 0)
    twoPoints None.

Definition set_merge (m : Z) (P : Parms) : Parms :=
  mkParms (builddistance P) (distancename P) (buildfog P) (fogname P) (buildmask P)
    (maskname P) (boundinglimit P) (referencevdb P) m (voxelsize P)
    (useworldspace P) (halfbandvoxels P) (halfband P) (conversion P) (particlescale P)
    (minradius P) (velocitytrails P) (velocityscale P) (trailresolution P)
    (attrList P) (dilation P) (closing P) (smoothing P).

(** A reference detail holding one float level set, voxel size one
    fifth, half-band width one. *)
Definition levelSetReference : GU_Detail :=
  mkDetail [] None None []
    [mkPrim (FloatGridB (mkGrid ∅ (real 1) GRID_LEVEL_SET
                           (createLinearTransform (real (1 # 5))) "ref" 0))].

(** A reference detail holding one float fog volume. *)
Definition fogReference : GU_Detail :=
  mkDetail [] None None []
    [mkPrim (FloatGridB (mkGrid ∅ (real 0) GRID_FOG_VOLUME
                           (createLinearTransform (real (1 # 5))) "ref" 0))].

(** A second input without any VDB primitive. *)
Definition emptyReference : GU_Detail := mkDetail [] None None [] [].

(** Merge requested, no second input. *)
Definition mergeWithoutInput : OP_Context :=
  mkContext (set_merge 1 defaults) twoPoints None.

(** Merge requested, a second input without VDB primitives. *)
Definition mergeWithoutPrimitive : OP_Context :=
  mkContext (set_merge 1 defaults) twoPoints (Some emptyReference).

(** Merge requested into a fog volume. *)
Definition mergeIntoFog : OP_Context :=
  mkContext (set_merge 1 defaults) twoPoints (Some fogReference).

(** A level-set reference, no merge. *)
Definition withLevelSetReference : OP_Context :=
  mkContext defaults twoPoints (Some levelSetReference).

(** A node whose last cook used a voxel size of one quarter. *)
Definition sampleSOP : SOP_OpenVDB_From_Particles :=
  mkSOP defaults (Some (mkNode (real (1 # 4)) [] [] [])).


(** The sample tools with an interrupter that has fired. *)
Definition cancelledTools : Externals := {|
  matchGroup := matchGroup (Externals:=tools);
  wasInterrupted _ := true;
  ParticlesToLevelSet := ParticlesToLevelSet (Externals:=tools);
  GUvdbCreatePointMaskGrid_voxels := GUvdbCreatePointMaskGrid_voxels (Externals:=tools);
  topologyToLevelSet_voxels := topologyToLevelSet_voxels (Externals:=tools);
  evalAttrDefault := sampleDefault;
  AttributeDetail_defaultName := sampleName;
  PointAttrTransfer := PointAttrTransfer (Externals:=tools)
|}.

(** Merge requested into a float level set. *)
Definition mergeIntoLevelSet : OP_Context :=
  mkContext (set_merge 1 defaults) twoPoints (Some levelSetReference).




(** The topology path with only an attribute requested. *)
Definition topologyAttributeOnly : OP_Context :=
  mkContext
    (mkParms 0 "surface" 0 "density" 0 "boundingvolume" (real (1 # 4)) "" 0
       (real (1 # 10)) 0 (real 3) (real 1) 1 (real 1) (real (3 # 2)) 0 (real 1) (real 1)
       [mkAttrInstance "id" "" 0] 1 1 0)
    twoPoints None.


Definition set_velocitytrails (v : Z) (P : Parms) : Parms :=
  {| builddistance := builddistance P; distancename := distancename P;
     buildfog := buildfog P; fogname := fogname P;
     buildmask := buildmask P; maskname := maskname P;
     boundinglimit := boundinglimit P;
     referencevdb := referencevdb P; merge_ := merge_ P;
     voxelsize := voxelsize P;
     useworldspace := useworldspace P; halfbandvoxels := halfbandvoxels P;
     halfband := halfband P;
     conversion := conversion P;
     particlescale := particlescale P; minradius := minradius P;
     velocitytrails := v; velocityscale := velocityscale P;
     trailresolution := trailresolution P;
     attrList := attrList P;
     dilation := dilation P; closing := closing P; smoothing := smoothing P |}.

(** Trails requested for particles that carry no velocity. *)
Definition trailsWithoutVelocity : OP_Context :=
  mkContext (set_velocitytrails 1 defaults) twoPoints None.

(** Trails requested for particles that carry velocities. *)
Definition trailsWithVelocity : OP_Context :=
  mkContext (set_velocitytrails 1 defaults) twoMovingPoints None.

(** The topology path next to a fog-volume reference. *)
Definition topologyWithFogReference : OP_Context :=
  mkContext (parms topologyMask) twoPoints (Some fogReference).

(** A node whose first input is [twoPoints], and an array of
    [n] stale menu entries. *)
Definition firstInput : Z -> option GU_Detail :=
  fun i => if i =? 0 then Some twoPoints else None.

Definition staleEntry : PRM_Name := mkPRM_Name (Some "old") (Some "old").

Definition theFirstInput : PRM_SpareData := {[ "sop_input" := "0" ]}.

(** A vector attribute next to the scalar one. *)
Definition pointsWithNormal : GU_Detail :=
  {| pointPos := [(real 0, real 0, real 0)];
     pscale := None;
     velocity := None;
     pointAttribs :=
       [mkAttribute "N" GA_TYPE_NORMAL
          (Some (mkAIFTuple GA_STORE_REAL32 3 [real 0; real 0; real 0]))
          [[real 0; real 1; real 0]];
        mkAttribute "id" GA_TYPE_VOID (Some (mkAIFTuple GA_STORE_INT32 1 [real 0]))
          [[real 7]]];
     vdbPrims := [] |}.

Definition normalAndId : Parms :=
  set_outputs 1 0 0 [mkAttrInstance "N" "" 2; mkAttrInstance "id" "" 0] defaults.

(** The defaults with every parameter changed that a cook of the
    defaults without second input does not read: the hidden half-band
    parameter, the names of the outputs that are off, the bounding
    limit, the reference pattern and the merge toggle, the trail
    spacing and the three topology counts. *)
Definition defaultsUnreadChanged : Parms :=
  {| builddistance := 1; distancename := "surface";
     buildfog := 0; fogname := "smoke";
     buildmask := 0; maskname := "bounds";
     boundinglimit := real (3 # 4);
     referencevdb := "ref*"; merge_ := 1;
     voxelsize := real (1 # 10);
     useworldspace := 0; halfbandvoxels := real 3; halfband := real 7;
     conversion := 0;
     particlescale := real 1; minradius := real (3 # 2);
     velocitytrails := 0; velocityscale := real 1; trailresolution := real 5;
     attrList := [];
     dilation := 4; closing := 0; smoothing := 9 |}.

(** Every output requested, with the attribute "id". *)
Definition everything : OP_Context :=
  mkContext (set_outputs 1 1 1 [mkAttrInstance "id" "" 0] defaults) twoPoints None.

(** An attribute list that names an attribute the points do not have. *)
Definition missingAttribute : Parms :=
  set_outputs 1 0 0 [mkAttrInstance "id" "" 0; mkAttrInstance "foo" "" 0] defaults.

(** A three-component colour attribute without a vector qualifier. *)
Definition colour : GA_Attribute :=
  mkAttribute "Cd" GA_TYPE_COLOR
    (Some (mkAIFTuple GA_STORE_REAL32 3 [real 1; real 1; real 1])) [].

Definition colourTuple : GA_AIFTuple := mkAIFTuple GA_STORE_REAL32 3 [real 1; real 1; real 1].

Definition emptyIndex : Int32Grid := Grid_create 0.

(** The sample tools with an interrupter that fires during the first
    tool call. *)
Definition interruptedTools : Externals := {|
  matchGroup := matchGroup (Externals:=tools);
  wasInterrupted cs := match cs with [] => false | _ => true end;
  ParticlesToLevelSet := ParticlesToLevelSet (Externals:=tools);
  GUvdbCreatePointMaskGrid_voxels := GUvdbCreatePointMaskGrid_voxels (Externals:=tools);
  topologyToLevelSet_voxels := topologyToLevelSet_voxels (Externals:=tools);
  evalAttrDefault := sampleDefault;
  AttributeDetail_defaultName := sampleName;
  PointAttrTransfer := PointAttrTransfer (Externals:=tools)
|}.
End Sample.

(** ** Views of the call record *)

(** The radius multiplier of the adapter at each rasterization. *)
Definition rasterRadiusMults (cs : list Call) : list Real :=
  omap (fun c => match c with
                 | Call_ParticlesToLevelSet _ _ _ job _ => Some (radiusMult (jobParticles job))
                 | _ => None
                 end) cs.

(** The dilation count of each topology build. *)
Definition topologyDilations (cs : list Call) : list Z :=
  omap (fun c => match c with
                 | Call_topologyToLevelSet _ _ d _ => Some d
                 | _ => None
                 end) cs.

(** A grid without active voxels. *)
Definition isEmpty {V} (g : Grid V) : Prop := voxels g = ∅.

(** The primitives [transferAttributes] appends. *)
Definition transferredPrims (Ext : Externals) (l : list AttributeDetail)
    (idx : Int32Grid) (T : Transform) (ptGeo : GU_Detail) : list GU_PrimVDB :=
  map (fun d => mkPrim (baseSetName (adName d)
                          (baseSetTransform T (PointAttrTransfer d idx ptGeo)))) l.

(** The grid both passes of the mask builder start from (lines
    949-955): empty, level-set class, the cook's background and
    transform. *)
Definition maskTarget (background : Real) (transform : Transform) : FloatGrid :=
  setTransform transform (setGridClass GRID_LEVEL_SET (Grid_create background)).

(** The node state after the first line of the cook: the voxel size
    is cached in single precision (line 819). *)
Definition cookStart (P : Parms) (self : Node) : Node :=
  set_mVoxelSize (to_float (voxelsize P)) (beginCook self).

(** The half-band width the parameters ask for, in world units (lines
    841-847). *)
Definition uiBackground (P : Parms) : Real :=
  if negb (useworldspace P =? 0) then to_float (halfband P)
  else to_float (to_float (voxelsize P) * to_float (halfbandvoxels P)).

(** The two guards at the head of the cook both pass. *)
Definition passesGuards (P : Parms) : bool :=
  negb (Real_ltb (to_float (voxelsize P)) minVoxelSize)
  && (to_bool (buildfog P) || to_bool (builddistance P) || (0 <? evalInt_attrList P)).

(** An empty fog volume. *)
Definition emptyMask (T : Transform) (name : string) : FloatGrid :=
  mkGrid ∅ (real 0) GRID_FOG_VOLUME T name 0.

(** A node state with further diagnostics appended. *)
Definition withMessages (ms : list Diagnostic) (n : Node) : Node :=
  mkNode (mVoxelSize n) (messages n ++ ms) (gdp n) (calls n).

(** [grows T s s']: the node state [s'] continues [s]: the cached voxel
    size is kept, diagnostics, primitives and calls are only appended,
    no appended diagnostic is an error and every appended primitive
    lives on the transform [T]. *)
Definition grows (T : Transform) (s s' : Node) : Prop :=
  mVoxelSize s' = mVoxelSize s
  /\ (exists ms, messages s' = messages s ++ ms
                 /\ Forall (fun d => severity d <> SOP_Error) ms)
  /\ (exists ps, gdp s' = gdp s ++ ps
                 /\ Forall (fun p => baseTransform (getGrid p) = T) ps)
  /\ (exists cs, calls s' = calls s ++ cs).

(** Calls that work on the particles: a rasterization or an attribute
    transfer. *)
Definition isParticleCall (c : Call) : bool :=
  match c with
  | Call_ParticlesToLevelSet _ _ _ _ _ => true
  | Call_PointAttrTransfer _ => true
  | _ => false
  end.


(** The rasterizations in a call record, in order: whether the index
    grid is built, the two radius limits, the entry point with its
    particle list, and the grid written into. *)
Definition rasterCalls (cs : list Call)
  : list (bool * Real * Real * RasterJob * FloatGrid) :=
  omap (fun c => match c with
                 | Call_ParticlesToLevelSet withAttr rmin rmax job target =>
                     Some (withAttr, rmin, rmax, job, target)
                 | _ => None
                 end) cs.

(** The particle list the cook builds from its first input (line 838). *)
Definition cookParticles (ctx : OP_Context) : ParticleList :=
  ParticleList_new (ptGeoInput ctx) (particlescale (parms ctx)) (velocityscale (parms ctx)).

(** The warning of line 922. *)
Definition trailsWarning : Diagnostic :=
  mkDiagnostic SOP_Warning
    [Str "Velocity trails require a velocity point attribute named 'v' of type 3fv."].

(** An entry point that reads velocities. *)
Definition isTrails (j : RasterJob) : bool :=
  match j with
  | rasterizeTrails _ _ => true
  | _ => false
  end.

(** The active voxels of a grid of any value type. *)
Definition baseActive (b : GridBase) : gset Coord :=
  match b with
  | FloatGridB g | DoubleGridB g => dom (voxels g)
  | Int32GridB g | Int64GridB g => dom (voxels g)
  | Vec3IGridB g => dom (voxels g)
  | Vec3SGridB g | Vec3DGridB g => dom (voxels g)
  end.

(** The warning of line 1147 for an attribute name. *)
Definition unknownAttributeWarning (attrName : string) : Diagnostic :=
  mkDiagnostic SOP_Warning [Str "Skipped unrecognized attribute: '"; Str attrName; Str "'"].

(** The storage types [constructGenericAtttributeList] has a case for. *)
Definition supportedStorage (s : GA_Storage) : bool :=
  match s with
  | GA_STORE_INT16 | GA_STORE_INT32 | GA_STORE_INT64
  | GA_STORE_REAL16 | GA_STORE_REAL32 | GA_STORE_REAL64 => true
  | _ => false
  end.

(** The type qualifiers read as a vector (lines 1171-1172 and
    778-779). *)
Definition vectorTypeInfo (t : GA_TypeInfo) : bool :=
  match t with
  | GA_TYPE_HPOINT | GA_TYPE_POINT | GA_TYPE_VECTOR | GA_TYPE_NORMAL => true
  | _ => false
  end.

(** Where a descriptor comes from: instance [i] of [attrList], with
    [lo <= i < hi], names, by a name that is neither empty nor the
    reserved one, a point attribute of the first input; the attribute
    has a tuple interface over a storage type the list builder has a
    case for; a vector descriptor needs a storage other than 64-bit
    integers, a vector type qualifier or three components, and a vector
    type other than -1. *)
Definition descriptorOrigin (P : Parms) (ptGeo : GU_Detail) (lo hi : Z)
    (d : AttributeDetail) : Prop :=
  exists i aif,
    lo <= i < hi
    /\ findPointAttribute ptGeo (attribute (evalInst P i)) = Some (adAttribute d)
    /\ (String.length (attribute (evalInst P i)) =? 0)%nat = false
    /\ attribute (evalInst P i) <> point_list_index
    /\ getAIFTuple (adAttribute d) = Some aif
    /\ supportedStorage (getStorage aif) = true
    /\ (adIsVector d = true ->
        getStorage aif <> GA_STORE_INT64
        /\ vectorTypeInfo (getTypeInfo (adAttribute d)) || (getTupleSize aif =? 3) = true
        /\ vecType (evalInst P i) <> -1).

(** ** Views of the attribute menu *)

Definition menuEntry (s : string) : PRM_Name := mkPRM_Name (Some s) (Some s).

Definition noAttribute : PRM_Name :=
  mkPRM_Name (Some "0") (Some "- no attribute selected -").

Definition terminator : PRM_Name := mkPRM_Name None None.

(** The entries a menu of [themenusize] slots is filled with for the
    given attribute names. *)
Definition expectedMenu (separator : string) (names : list string) (themenusize : Z)
  : list PRM_Name :=
  if bool_decide (names = []) || (themenusize =? 3)
  then [noAttribute; terminator]
  else noAttribute :: menuEntry separator
       :: (menuEntry <$> take (Z.to_nat (themenusize - 4)) names)
       ++ [menuEntry point_list_index; terminator].

(** ** What a cook reads *)

(** Two cook contexts that agree on what [cookVDBSop] reads: the two
    inputs; the voxel size, the three output toggles, the attribute
    list and the conversion method; the half-band width the parameters
    ask for; an output name when its toggle is on; the bounding limit
    when the mask is on; the reference pattern and the merge toggle
    when there is a second input; the particle and trail parameters on
    the sphere path, the trail spacing only with trails on; dilation,
    closing and smoothing on the topology path. *)
Definition readsAgree (ctx ctx' : OP_Context) : Prop :=
  let P := parms ctx in
  let P' := parms ctx' in
  ptGeoInput ctx = ptGeoInput ctx'
  /\ refGeoInput ctx = refGeoInput ctx'
  /\ voxelsize P = voxelsize P'
  /\ builddistance P = builddistance P'
  /\ buildfog P = buildfog P'
  /\ buildmask P = buildmask P'
  /\ attrList P = attrList P'
  /\ conversion P = conversion P'
  /\ uiBackground P = uiBackground P'
  /\ (builddistance P <> 0 -> distancename P = distancename P')
  /\ (buildfog P <> 0 -> fogname P = fogname P')
  /\ (buildmask P <> 0 ->
      boundinglimit P = boundinglimit P' /\ maskname P = maskname P')
  /\ (refGeoInput ctx <> None ->
      referencevdb P = referencevdb P' /\ merge_ P = merge_ P')
  /\ (conversion P = 0 ->
      particlescale P = particlescale P'
      /\ velocityscale P = velocityscale P'
      /\ minradius P = minradius P'
      /\ velocitytrails P = velocitytrails P'
      /\ (velocitytrails P = 1 -> trailresolution P = trailresolution P'))
  /\ (conversion P <> 0 ->
      dilation P = dilation P' /\ closing P = closing P' /\ smoothing P = smoothing P').

(** ** Views of the diagnostics *)

(** [s'] continues [s] by warnings only. *)
Definition warnsOnly (s s' : Node) : Prop :=
  exists ws, messages s' = messages s ++ ws
             /\ Forall (fun d => severity d = SOP_Warning) ws.

(** The warnings recorded while the attribute descriptors are built
    (lines 1148, 1160, 1166 and 1216). *)
Definition descriptorWarning (d : Diagnostic) : Prop :=
  (exists attrName, d = unknownAttributeWarning attrName)
  \/ d = mkDiagnostic SOP_Warning [Str "Skipped unrecognized attribute type"].

(** The call of the attribute transfer. *)
Definition isTransferCall (c : Call) : bool :=
  match c with
  | Call_PointAttrTransfer _ => true
  | _ => false
  end.

(** [s'] continues [s] without a descriptor warning and without an
    attribute transfer. *)
Definition quietly (s s' : Node) : Prop :=
  (exists ws, messages s' = messages s ++ ws
              /\ Forall (fun d => ~ descriptorWarning d) ws)
  /\ (exists cs, calls s' = calls s ++ cs
                 /\ Forall (fun c => isTransferCall c = false) cs).

(** The cook passes its guards and finds a reference primitive that is
    a float level set. *)
Definition referenceMatched `{Ext : Externals} (ctx : OP_Context) : bool :=
  passesGuards (parms ctx)
  && match refGeoInput ctx with
     | Some refGeo =>
         match head (matchGroup refGeo (referencevdb (parms ctx))) with
         | Some refPrim =>
             bool_decide (getGridClass (getGrid refPrim) = GRID_LEVEL_SET)
             && isFloatGrid (getGrid refPrim)
         | None => false
         end
     | None => false
     end.

(** * Properties *)

(** ** The model on small inputs *)

Example clampOffset_above : clampOffset (real (3 # 2)) = real 1.
Proof. reflexivity. Qed.
Example clampOffset_below : clampOffset (real (-1 # 2)) = real 0.
Proof. reflexivity. Qed.
Example clampOffset_inside : clampOffset (real (1 # 4)) = real (1 # 4).
Proof. reflexivity. Qed.
Example ceil_three_halves : ceil (real (3 # 2)) = 2.
Proof. reflexivity. Qed.
Example to_int_truncates : to_int (real (-3 # 2)) = -1 /\ to_int (real (3 # 2)) = 1.
Proof. split; reflexivity. Qed.
Example Int32_wraps : Int32 (2 ^ 31) = - 2 ^ 31 /\ Int32 7 = 7.
Proof. split; reflexivity. Qed.
Example union_takes_min :
  let a := setVoxels {[ (0, 0, 0) := real (1 # 10) ]} (Grid_create (real (3 # 10))) in
  let b := setVoxels {[ (0, 0, 0) := real (-1 # 10); (1, 0, 0) := real (2 # 10) ]}
             (Grid_create (real (3 # 10))) in
  getValue (csgUnion a b) (0, 0, 0) = real (-1 # 10)
  /\ getValue (csgUnion a b) (1, 0, 0) = real (2 # 10)
  /\ getValue (csgUnion a b) (2, 0, 0) = real (3 # 10).
Proof. cbv zeta. repeat split; apply Qc_is_canon; reflexivity. Qed.
Example fog_of_band :
  let g := setVoxels {[ (0, 0, 0) := real (-3 # 10); (1, 0, 0) := real (-15 # 100);
                        (2, 0, 0) := real (1 # 10) ]} (Grid_create (real (3 # 10))) in
  getValue (sdfToFogVolume g) (0, 0, 0) = real 1
  /\ getValue (sdfToFogVolume g) (1, 0, 0) = real (1 # 2)
  /\ getValue (sdfToFogVolume g) (2, 0, 0) = real 0
  /\ voxels (sdfToFogVolume g) !! (2, 0, 0) = None.
Proof. cbv zeta. repeat split; try (apply Qc_is_canon; reflexivity). Qed.
Example trails_radius_without_pscale :
  getPosRadVel (ParticleList_new Sample.twoMovingPoints (real 2) (real 3)) 1
  = Some ((real 1, real 0, real 0), real 2, ((real 3 * real 0)%Qc, (real 3 * real 1)%Qc, (real 3 * real 0)%Qc)).
Proof. reflexivity. Qed.
Example default_cook_exports_surface :
  map (fun p => baseName (getGrid p))
    (gdp (cookVDBSop (Ext:=Sample.tools)
            (mkContext Sample.defaults Sample.twoPoints None) Sample.freshNode))
  = ["surface"].
Proof. vm_compute. reflexivity. Qed.
Example convertUnits_to_world :
  (fun s => this (halfband (sopParms s))) <$> snd (convertUnits
     (mkSOP (setInt_useworldspace 1 Sample.defaults) (myNodeVerbCache Sample.sampleSOP)))
  = Some (3 # 4)%Q.
Proof. vm_compute. reflexivity. Qed.
Example to_float_tenth : this (to_float (real (1 # 10))) = (13421773 # 134217728)%Q.
Proof. vm_compute. reflexivity. Qed.
Example to_float_minVoxelSize :
  this (to_float (real (1 # 100000))) = (2748779 # 274877906944)%Q
  /\ (to_float (real (1 # 100000)) < real (1 # 100000))%Qc.
Proof. split; vm_compute; reflexivity. Qed.
Example to_double_ties_to_even :
  to_double (1 + real (1 # 2 ^ 53)) = 1%Qc
  /\ this (to_double (1 + real (3 # 2 ^ 54))) = (1 + (1 # 2 ^ 52))%Q.
Proof. split; [apply Qc_is_canon|]; vm_compute; reflexivity. Qed.

(** ** Arithmetic helpers *)

Lemma Real_ltb_lt (x y : Real) : Real_ltb x y = true <-> (x < y)%Qc.
Proof.
  unfold Real_ltb. rewrite Qclt_alt.
  destruct (x ?= y)%Qc; split; congruence.
Qed.

Lemma Real_ltb_ge (x y : Real) : Real_ltb x y = false <-> (y <= x)%Qc.
Proof.
  split; intros Hxy.
  - apply Qcnot_lt_le. intros Hlt. apply Real_ltb_lt in Hlt. congruence.
  - destruct (Real_ltb x y) eqn:E; [|reflexivity].
    apply Real_ltb_lt in E. exfalso. exact (Qcle_not_lt _ _ Hxy E).
Qed.

(** ** Rounding to binary floating point *)

Section Rounding.
Local Open Scope Q_scope.

Lemma pow2_pos e : 0 < pow2 e.
Proof. apply Qpower_0_lt. reflexivity. Qed.

Lemma pow2_add a b : pow2 (a + b) == pow2 a * pow2 b.
Proof. apply Qpower_plus. discriminate. Qed.

Lemma pow2_le a b : (a <= b)%Z -> pow2 a <= pow2 b.
Proof. intros H. apply Qpower_le_compat_l; [exact H | discriminate]. Qed.

Lemma pow2_Z n : (0 <= n)%Z -> pow2 n == inject_Z (2 ^ n).
Proof. intros H. unfold pow2. symmetry. exact (Zpower_Qpower 2 n H). Qed.

Lemma pow2_succ a : pow2 (a + 1) == 2 * pow2 a.
Proof. rewrite pow2_add. change (pow2 1) with (2 # 1). ring. Qed.

Lemma pow2_sub a b : pow2 (a - b) * pow2 b == pow2 a.
Proof. rewrite <- pow2_add. replace (a - b + b)%Z with a by lia. reflexivity. Qed.

Lemma ilog2_spec q : 0 < q -> pow2 (ilog2 q) <= q /\ q < pow2 (ilog2 q + 1).
Proof.
  intros Hq. destruct q as [n d]. unfold ilog2. cbn [Qnum Qden].
  assert (Hn : (0 < n)%Z).
  { unfold Qlt in Hq. cbn in Hq. lia. }
  set (a := Z.log2 n). set (b := Z.log2 (Z.pos d)).
  destruct (Z.log2_spec n Hn) as [Ha1 Ha2]. fold a in Ha1, Ha2.
  destruct (Z.log2_spec (Z.pos d) eq_refl) as [Hb1 Hb2]. fold b in Hb1, Hb2.
  assert (Ha0 : (0 <= a)%Z) by apply Z.log2_nonneg.
  assert (Hb0 : (0 <= b)%Z) by apply Z.log2_nonneg.
  assert (Hnd : inject_Z n == (n # d) * inject_Z (Z.pos d)).
  { unfold Qeq, Qmult, inject_Z. cbn. lia. }
  assert (Hd : 0 < inject_Z (Z.pos d)) by reflexivity.
  assert (QA1 : pow2 a <= inject_Z n).
  { rewrite (pow2_Z a Ha0). rewrite <- Zle_Qle. exact Ha1. }
  assert (QA2 : inject_Z n < pow2 (a + 1)).
  { rewrite (pow2_Z (a + 1)) by lia. rewrite <- Zlt_Qlt.
    replace (a + 1)%Z with (Z.succ a) by lia. exact Ha2. }
  assert (QB1 : pow2 b <= inject_Z (Z.pos d)).
  { rewrite (pow2_Z b Hb0). rewrite <- Zle_Qle. exact Hb1. }
  assert (QB2 : inject_Z (Z.pos d) < pow2 (b + 1)).
  { rewrite (pow2_Z (b + 1)) by lia. rewrite <- Zlt_Qlt.
    replace (b + 1)%Z with (Z.succ b) by lia. exact Hb2. }
  pose proof (pow2_pos (a - b)) as P0.
  pose proof (pow2_pos b) as Pb.
  pose proof (pow2_sub a b) as E1.
  pose proof (pow2_succ (a - b)) as E2.
  pose proof (pow2_succ (a - b - 1)) as E3.
  replace (a - b - 1 + 1)%Z with (a - b)%Z in E3 by lia.
  pose proof (pow2_succ a) as E4.
  pose proof (pow2_succ b) as E5.
  pose proof (pow2_pos (a - b - 1)) as P1.
  set (q := n # d) in *. set (D := inject_Z (Z.pos d)) in *.
  set (N := inject_Z n) in *.
  set (X := pow2 (a - b)) in *. set (B := pow2 b) in *. set (A := pow2 a) in *.
  set (Y := pow2 (a - b - 1)) in *.
  assert (Hlow : Y < q).
  { destruct (Qlt_le_dec Y q) as [H|H]; [exact H | exfalso].
    rewrite E4 in QA2. rewrite E5 in QB2. rewrite E3 in E1. nra. }
  assert (Hup : q < 2 * X).
  { destruct (Qlt_le_dec q (2 * X)) as [H|H]; [exact H | exfalso].
    rewrite E4 in QA2. nra. }
  destruct (Qle_bool X q) eqn:T.
  - apply Qle_bool_iff in T. split; [exact T|]. rewrite E2. exact Hup.
  - assert (T' : q < X).
    { destruct (Qlt_le_dec q X) as [H|H]; [exact H|].
      apply Qle_bool_iff in H. congruence. }
    split; [apply Qlt_le_weak; exact Hlow|].
    replace (a - b - 1 + 1)%Z with (a - b)%Z by lia. exact T'.
Qed.

Lemma rne_cases x :
  let f := Qfloor x in
  inject_Z f <= x /\ x < inject_Z f + 1 /\
  ((x - inject_Z f < 1 # 2 /\ rne x = f) \/
   (x - inject_Z f == 1 # 2 /\ (rne x = f \/ rne x = (f + 1)%Z)) \/
   ((1 # 2) < x - inject_Z f /\ rne x = (f + 1)%Z)).
Proof.
  intros f. pose proof (Qfloor_le x) as H1. pose proof (Qlt_floor x) as H2.
  fold f in H1, H2. rewrite inject_Z_plus in H2. change (inject_Z 1) with 1 in H2.
  split; [exact H1|]. split; [exact H2|].
  unfold rne. fold f. destruct (Qcompare (x - inject_Z f) (1 # 2)) eqn:C.
  - right; left. apply (proj2 (Qeq_alt _ _)) in C. split; [exact C|].
    destruct (Z.even f); auto.
  - left. apply (proj2 (Qlt_alt _ _)) in C. auto.
  - right; right. apply (proj2 (Qgt_alt _ _)) in C. auto.
Qed.

Lemma rne_error x : x - (1 # 2) <= inject_Z (rne x) <= x + (1 # 2).
Proof.
  pose proof (rne_cases x) as H. cbv zeta in H.
  destruct H as (H1 & H2 & [[H E]|[[H [E|E]]|[H E]]]); rewrite E;
    try rewrite inject_Z_plus; change (inject_Z 1) with 1; split.
  all: lra.
Qed.

Lemma rne_inject z : rne (inject_Z z) = z.
Proof.
  unfold rne. rewrite Qfloor_Z.
  replace (Qcompare (inject_Z z - inject_Z z) (1 # 2)) with Lt; [reflexivity|].
  symmetry. apply (proj1 (Qlt_alt _ _)). generalize (inject_Z z). intros t. lra.
Qed.

Lemma rne_monotone x y : x <= y -> (rne x <= rne y)%Z.
Proof.
  intros Hxy. pose proof (Qfloor_resp_le x y Hxy) as Hf.
  destruct (Z.eq_dec (Qfloor x) (Qfloor y)) as [E|NE].
  - unfold rne. rewrite <- E.
    destruct (Qcompare (x - inject_Z (Qfloor x)) (1 # 2)) eqn:Cx;
      destruct (Qcompare (y - inject_Z (Qfloor x)) (1 # 2)) eqn:Cy;
      try (destruct (Z.even (Qfloor x))); try lia; exfalso;
      repeat match goal with
             | H : Qcompare _ _ = Eq |- _ => apply (proj2 (Qeq_alt _ _)) in H
             | H : Qcompare _ _ = Lt |- _ => apply (proj2 (Qlt_alt _ _)) in H
             | H : Qcompare _ _ = Gt |- _ => apply (proj2 (Qgt_alt _ _)) in H
             end; lra.
  - destruct (rne_cases x) as (_ & _ & Hx). destruct (rne_cases y) as (_ & _ & Hy).
    cbv zeta in Hx, Hy. lia.
Qed.


Lemma Qabs_nonneg_eq q : 0 <= q -> Qabs q = q.
Proof.
  destruct q as [n d]. unfold Qle. cbn. intros H. unfold Qabs. f_equal. lia.
Qed.

Lemma ilog2_monotone x y : 0 < x -> x <= y -> (ilog2 x <= ilog2 y)%Z.
Proof.
  intros Hx Hxy.
  destruct (ilog2_spec x Hx) as [H1 _].
  destruct (ilog2_spec y) as [_ H2]; [lra|].
  assert (H : pow2 (ilog2 x) < pow2 (ilog2 y + 1)) by lra.
  apply Qpower_lt_compat_l_inv in H; [lia | reflexivity].
Qed.

Lemma div_pow2_le x y k : x <= y -> x / pow2 k <= y / pow2 k.
Proof.
  intros H. pose proof (pow2_pos k) as P. unfold Qdiv.
  apply Qmult_le_compat_r; [exact H|].
  apply Qlt_le_weak. apply Qinv_lt_0_compat. exact P.
Qed.

Lemma div_pow2_nonneg q k : 0 <= q -> inject_Z 0 <= q / pow2 k.
Proof.
  intros H. pose proof (div_pow2_le 0 q k H) as H'.
  unfold Qdiv in H' at 1. rewrite Qmult_0_l in H'. exact H'.
Qed.

Lemma div_pow2_nonpos q k : q <= 0 -> q / pow2 k <= inject_Z 0.
Proof.
  intros H. pose proof (div_pow2_le q 0 k H) as H'.
  unfold Qdiv in H' at 2. rewrite Qmult_0_l in H'. exact H'.
Qed.

Lemma div_pow2 a k : pow2 a / pow2 k == pow2 (a - k).
Proof.
  pose proof (pow2_pos k) as P. rewrite <- (pow2_sub a k). field. lra.
Qed.

Lemma round_binary_nonneg prec emin q : 0 <= q -> 0 <= round_binary prec emin q.
Proof.
  intros H. unfold round_binary.
  set (k := (Z.max (ilog2 (Qabs q)) emin - prec + 1)%Z).
  pose proof (pow2_pos k) as P.
  assert (H0 : (0 <= rne (q / pow2 k))%Z).
  { rewrite <- (rne_inject 0). apply rne_monotone.
    apply div_pow2_nonneg. exact H. }
  apply Qmult_le_0_compat; [|lra].
  change 0 with (inject_Z 0). rewrite <- Zle_Qle. exact H0.
Qed.

Lemma round_binary_nonpos prec emin q : q <= 0 -> round_binary prec emin q <= 0.
Proof.
  intros H. unfold round_binary.
  set (k := (Z.max (ilog2 (Qabs q)) emin - prec + 1)%Z).
  pose proof (pow2_pos k) as P.
  assert (H0 : (rne (q / pow2 k) <= 0)%Z).
  { pose proof (rne_monotone _ _ (div_pow2_nonpos q k H)) as M.
    rewrite rne_inject in M. exact M. }
  assert (H1 : inject_Z (rne (q / pow2 k)) <= 0).
  { change 0 with (inject_Z 0). rewrite <- Zle_Qle. exact H0. }
  nra.
Qed.

Lemma round_binary_upper prec emin q :
  (0 < prec)%Z -> 0 < q ->
  round_binary prec emin q <= pow2 (Z.max (ilog2 q) emin + 1).
Proof.
  intros Hp Hq. unfold round_binary. rewrite (Qabs_nonneg_eq q) by lra.
  set (e := Z.max (ilog2 q) emin). set (k := (e - prec + 1)%Z).
  pose proof (pow2_pos k) as P.
  destruct (ilog2_spec q Hq) as [_ H2].
  assert (H3 : q <= pow2 (e + 1)).
  { apply Qlt_le_weak. eapply Qlt_le_trans; [exact H2|]. apply pow2_le. lia. }
  assert (H4 : (rne (q / pow2 k) <= 2 ^ prec)%Z).
  { rewrite <- (rne_inject (2 ^ prec)). apply rne_monotone.
    rewrite <- (pow2_Z prec) by lia.
    assert (Hd : pow2 (e + 1) / pow2 k == pow2 prec).
    { rewrite div_pow2. replace (e + 1 - k)%Z with prec by lia. reflexivity. }
    rewrite <- Hd. apply div_pow2_le. exact H3. }
  rewrite Zle_Qle in H4. rewrite <- (pow2_Z prec) in H4 by lia.
  rewrite <- (pow2_sub (e + 1) k). replace (e + 1 - k)%Z with prec by lia.
  apply Qmult_le_compat_r; [exact H4 | lra].
Qed.

Lemma round_binary_lower prec emin q :
  (0 < prec)%Z -> 0 < q -> (emin <= ilog2 q)%Z ->
  pow2 (ilog2 q) <= round_binary prec emin q.
Proof.
  intros Hp Hq He. unfold round_binary. rewrite (Qabs_nonneg_eq q) by lra.
  rewrite Z.max_l by lia.
  set (e := ilog2 q). set (k := (e - prec + 1)%Z).
  pose proof (pow2_pos k) as P.
  destruct (ilog2_spec q Hq) as [H1 _]. fold e in H1.
  assert (H4 : (2 ^ (prec - 1) <= rne (q / pow2 k))%Z).
  { rewrite <- (rne_inject (2 ^ (prec - 1))). apply rne_monotone.
    rewrite <- (pow2_Z (prec - 1)) by lia.
    assert (Hd : pow2 e / pow2 k == pow2 (prec - 1)).
    { rewrite div_pow2. replace (e - k)%Z with (prec - 1)%Z by lia. reflexivity. }
    rewrite <- Hd. apply div_pow2_le. exact H1. }
  rewrite Zle_Qle in H4. rewrite <- (pow2_Z (prec - 1)) in H4 by lia.
  rewrite <- (pow2_sub e k). replace (e - k)%Z with (prec - 1)%Z by lia.
  apply Qmult_le_compat_r; [exact H4 | lra].
Qed.

Lemma round_binary_monotone_pos prec emin x y :
  (0 < prec)%Z -> 0 < x -> x <= y ->
  round_binary prec emin x <= round_binary prec emin y.
Proof.
  intros Hp Hx Hxy. assert (Hy : 0 < y) by lra.
  pose proof (ilog2_monotone x y Hx Hxy) as Hl.
  destruct (Z.eq_dec (Z.max (ilog2 x) emin) (Z.max (ilog2 y) emin)) as [E|NE].
  - unfold round_binary. rewrite (Qabs_nonneg_eq x), (Qabs_nonneg_eq y) by lra.
    rewrite <- E. set (k := (Z.max (ilog2 x) emin - prec + 1)%Z).
    pose proof (pow2_pos k) as P.
    apply Qmult_le_compat_r; [|lra]. rewrite <- Zle_Qle.
    apply rne_monotone. apply div_pow2_le. exact Hxy.
  - eapply Qle_trans; [apply round_binary_upper; assumption|].
    eapply Qle_trans; [|apply round_binary_lower; try assumption; lia].
    apply pow2_le. lia.
Qed.

Lemma round_binary_zero prec emin : round_binary prec emin 0 == 0.
Proof.
  apply Qle_antisym; [apply round_binary_nonpos | apply round_binary_nonneg]; lra.
Qed.

Lemma round_binary_monotone_upto prec emin x y :
  (0 < prec)%Z -> 0 <= y -> x <= y ->
  round_binary prec emin x <= round_binary prec emin y.
Proof.
  intros Hp Hy Hxy. destruct (Qlt_le_dec 0 x) as [H|H].
  - apply round_binary_monotone_pos; assumption.
  - eapply Qle_trans; [apply round_binary_nonpos; exact H|].
    apply round_binary_nonneg. exact Hy.
Qed.

Lemma round_binary_error prec emin q :
  (0 < prec)%Z -> 0 < q -> (emin <= ilog2 q)%Z ->
  Qabs (round_binary prec emin q - q) <= pow2 (- prec) * q.
Proof.
  intros Hp Hq He. unfold round_binary. rewrite (Qabs_nonneg_eq q) by lra.
  rewrite Z.max_l by lia.
  set (e := ilog2 q). set (k := (e - prec + 1)%Z).
  pose proof (pow2_pos k) as P. pose proof (pow2_pos (- prec)) as P'.
  destruct (ilog2_spec q Hq) as [H1 _]. fold e in H1.
  pose proof (rne_error (q / pow2 k)) as [R1 R2].
  set (m := inject_Z (rne (q / pow2 k))) in *.
  assert (Eq : q / pow2 k * pow2 k == q) by (field; lra).
  set (t := q / pow2 k) in *.
  assert (Ek : pow2 k == 2 * (pow2 (- prec) * pow2 e)).
  { rewrite <- pow2_add, <- pow2_succ. replace (- prec + e + 1)%Z with k by lia.
    reflexivity. }
  set (U := pow2 k) in *. set (A := pow2 (- prec)) in *. set (B := pow2 e) in *.
  apply Qabs_Qle_condition. split; nra.
Qed.

Lemma ilog2_unique q e : 0 < q -> pow2 e <= q -> q < pow2 (e + 1) -> ilog2 q = e.
Proof.
  intros Hq H1 H2. destruct (ilog2_spec q Hq) as [S1 S2].
  assert (A : pow2 e < pow2 (ilog2 q + 1)) by lra.
  assert (B : pow2 (ilog2 q) < pow2 (e + 1)) by lra.
  apply Qpower_lt_compat_l_inv in A; [|reflexivity].
  apply Qpower_lt_compat_l_inv in B; [|reflexivity]. lia.
Qed.

Lemma ilog2_lower q e : 0 < q -> pow2 e <= q -> (e <= ilog2 q)%Z.
Proof.
  intros Hq H. destruct (ilog2_spec q Hq) as [_ S2].
  assert (A : pow2 e < pow2 (ilog2 q + 1)) by lra.
  apply Qpower_lt_compat_l_inv in A; [lia | reflexivity].
Qed.

(** Above the midpoint between one and its successor the rounding is
    above one. *)
Lemma round_binary_above_one prec emin x :
  (0 < prec)%Z -> (emin <= 0)%Z -> 1 + pow2 (- prec) < x -> x < 2 ->
  1 + pow2 (1 - prec) <= round_binary prec emin x.
Proof.
  intros Hp He H1 H2. pose proof (pow2_pos (- prec)) as P.
  assert (Hx : 0 < x) by lra.
  assert (El : ilog2 x = 0%Z).
  { apply ilog2_unique; [exact Hx | change (pow2 0) with 1; lra
                        | change (pow2 (0 + 1)) with 2; exact H2]. }
  unfold round_binary. rewrite (Qabs_nonneg_eq x) by lra. rewrite El.
  rewrite Z.max_l by lia. replace (0 - prec + 1)%Z with (1 - prec)%Z by lia.
  set (U := pow2 (1 - prec)). pose proof (pow2_pos (1 - prec)) as PU. fold U in PU.
  assert (EU : U == 2 * pow2 (- prec)).
  { unfold U. rewrite <- pow2_succ. replace (- prec + 1)%Z with (1 - prec)%Z by lia.
    reflexivity. }
  assert (EI : inject_Z (2 ^ (prec - 1)) * U == 1).
  { rewrite <- (pow2_Z (prec - 1)) by lia. unfold U. rewrite <- pow2_add.
    replace (prec - 1 + (1 - prec))%Z with 0%Z by lia. reflexivity. }
  pose proof (rne_error (x / U)) as [R1 _].
  assert (Ex : x / U * U == x) by (field; lra).
  assert (Hr : inject_Z (2 ^ (prec - 1)) < inject_Z (rne (x / U))).
  { set (m := inject_Z (2 ^ (prec - 1))) in *. set (t := x / U) in *.
    set (A := pow2 (- prec)) in *.
    destruct (Qlt_le_dec m (inject_Z (rne t))) as [H|H]; [exact H | exfalso]. nra. }
  rewrite <- Zlt_Qlt in Hr.
  assert (Hr' : (2 ^ (prec - 1) + 1 <= rne (x / U))%Z) by lia.
  rewrite Zle_Qle, inject_Z_plus in Hr'. change (inject_Z 1) with 1 in Hr'.
  set (m := inject_Z (2 ^ (prec - 1))) in *. set (r := inject_Z (rne (x / U))) in *.
  nra.
Qed.

Lemma pow2_half prec : (0 < prec)%Z -> pow2 (- prec) <= 1 # 2.
Proof.
  intros Hp. change (1 # 2) with (pow2 (-1)). apply pow2_le. lia.
Qed.

Lemma round_binary_relative prec emin q :
  (0 < prec)%Z -> pow2 emin <= q ->
  q * (1 - pow2 (- prec)) <= round_binary prec emin q
  /\ round_binary prec emin q <= q * (1 + pow2 (- prec)).
Proof.
  intros Hp Hq. pose proof (pow2_pos emin) as P.
  assert (Hq0 : 0 < q) by lra.
  pose proof (round_binary_error prec emin q Hp Hq0 (ilog2_lower q emin Hq0 Hq)) as E.
  apply Qabs_Qle_condition in E. destruct E as [E1 E2].
  set (r := round_binary prec emin q) in *. set (u := pow2 (- prec)) in *.
  split; nra.
Qed.

End Rounding.

(** The rounded value as a rational. *)
Lemma Q2Qc_this (q : Q) : (this (Q2Qc q) == q)%Q.
Proof. apply Qred_correct. Qed.

Lemma Q2Qc_le (p q : Q) : (p <= q)%Q -> (Q2Qc p <= Q2Qc q)%Qc.
Proof. intros H. unfold Qcle. rewrite !Q2Qc_this. exact H. Qed.

Lemma Q2Qc_lt (p q : Q) : (p < q)%Q -> (Q2Qc p < Q2Qc q)%Qc.
Proof. intros H. unfold Qclt. rewrite !Q2Qc_this. exact H. Qed.

Lemma to_float_monotone (x y : Real) :
  (0 <= y)%Qc -> (x <= y)%Qc -> (to_float x <= to_float y)%Qc.
Proof.
  intros Hy Hxy. apply Q2Qc_le.
  apply round_binary_monotone_upto; [reflexivity | exact Hy | exact Hxy].
Qed.

Lemma to_double_monotone (x y : Real) :
  (0 <= y)%Qc -> (x <= y)%Qc -> (to_double x <= to_double y)%Qc.
Proof.
  intros Hy Hxy. apply Q2Qc_le.
  apply round_binary_monotone_upto; [reflexivity | exact Hy | exact Hxy].
Qed.

Lemma to_float_nonneg (x : Real) : (0 <= x)%Qc -> (0 <= to_float x)%Qc.
Proof.
  intros Hx. exact (Q2Qc_le 0 _ (round_binary_nonneg 24 (-126) x Hx)).
Qed.

Lemma to_double_nonneg (x : Real) : (0 <= x)%Qc -> (0 <= to_double x)%Qc.
Proof.
  intros Hx. exact (Q2Qc_le 0 _ (round_binary_nonneg 53 (-1022) x Hx)).
Qed.

Lemma to_double_zero : to_double 0 = 0%Qc.
Proof. apply Qc_is_canon. unfold to_double. rewrite Q2Qc_this. apply round_binary_zero. Qed.

(** ** The two guards at the head of the cook *)

Lemma to_float_zero : to_float 0 = 0%Qc.
Proof.
  apply Qc_is_canon. unfold to_float. rewrite Q2Qc_this. apply round_binary_zero.
Qed.

(** Narrowing to single precision does not lift a value over the
    bound of the voxel size: the largest [float] below 1e-5 is
    [float(1e-5)] itself. *)
Lemma to_float_below_minVoxelSize (v : Real) :
  (v < minVoxelSize)%Qc -> (to_float v < minVoxelSize)%Qc.
Proof.
  intros Hv. apply Qcle_lt_trans with (y := to_float minVoxelSize).
  - apply to_float_monotone; [vm_compute; discriminate|].
    apply Qclt_le_weak. exact Hv.
  - vm_compute. reflexivity.
Qed.

(** The cook when the voxel size fails its guard. *)
Lemma cook_small_voxel_size (Ext : Externals) (ctx : OP_Context) (self : Node) :
  (to_float (voxelsize (parms ctx)) < minVoxelSize)%Qc ->
  cookVDBSop ctx self =
    addError [Str "The voxel size ("; Num (to_float (voxelsize (parms ctx)));
              Str ") is too small."]
      (set_mVoxelSize (to_float (voxelsize (parms ctx))) (beginCook self)).
Proof.
  intros Hsmall. apply Real_ltb_lt in Hsmall.
  unfold cookVDBSop; cbn [beginCook set_mVoxelSize mVoxelSize].
  rewrite Hsmall. reflexivity.
Qed.

(** C10. A voxel size strictly below 1e-5 makes the cook record the
    error "The voxel size (...) is too small.", which prints the voxel
    size as the cook holds it, in single precision, and return at once:
    the error is the only diagnostic, the node is in the abort state, no
    primitive is added to the output detail and no volume tool is
    called (no grid created, nothing rasterized). *)
Theorem cook_rejects_small_voxel_size (Ext : Externals) (ctx : OP_Context) (self : Node) :
  (voxelsize (parms ctx) < minVoxelSize)%Qc ->
  messages (cookVDBSop ctx self) =
    [mkDiagnostic SOP_Error
       [Str "The voxel size ("; Num (to_float (voxelsize (parms ctx)));
        Str ") is too small."]]
  /\ error (cookVDBSop ctx self) = UT_ERROR_ABORT
  /\ gdp (cookVDBSop ctx self) = []
  /\ calls (cookVDBSop ctx self) = [].
Proof.
  intros Hsmall.
  rewrite (cook_small_voxel_size Ext ctx self (to_float_below_minVoxelSize _ Hsmall)).
  repeat split.
Qed.

Lemma cook_rejects_small_voxel_size_witness :
  (voxelsize (parms Sample.zeroVoxelSize) < minVoxelSize)%Qc
  /\ messages (cookVDBSop (Ext:=Sample.tools) Sample.zeroVoxelSize Sample.freshNode) =
       [mkDiagnostic SOP_Error [Str "The voxel size ("; Num (real 0); Str ") is too small."]]
  /\ gdp (cookVDBSop (Ext:=Sample.tools) Sample.zeroVoxelSize Sample.freshNode) = [].
Proof.
  split; [reflexivity|].
  destruct (cook_rejects_small_voxel_size Sample.tools Sample.zeroVoxelSize Sample.freshNode)
    as (Hm & _ & Hg & _); [reflexivity|].
  split; [|exact Hg]. rewrite Hm.
  change (voxelsize (parms Sample.zeroVoxelSize)) with 0%Qc.
  rewrite to_float_zero. reflexivity.
Defined.

(** At a voxel size of exactly 1e-5 the guard fires as well: narrowed
    to single precision the value is 2748779/274877906944, below the
    bound. *)
Example cook_at_the_bound :
  let ctx := mkContext (Sample.set_voxelsize (real (1 # 100000)) Sample.defaults)
               Sample.twoPoints None in
  (minVoxelSize <= voxelsize (parms ctx))%Qc
  /\ error (cookVDBSop (Ext:=Sample.tools) ctx Sample.freshNode) = UT_ERROR_ABORT
  /\ gdp (cookVDBSop (Ext:=Sample.tools) ctx Sample.freshNode) = [].
Proof.
  cbv zeta. split; [vm_compute; discriminate|]. split; vm_compute; reflexivity.
Qed.

(** The cook once the voxel size has passed its guard and no output is
    selected. *)
Lemma cook_no_output_selected (Ext : Externals) (ctx : OP_Context) (self : Node) :
  (minVoxelSize <= to_float (voxelsize (parms ctx)))%Qc ->
  builddistance (parms ctx) = 0 ->
  buildfog (parms ctx) = 0 ->
  attrList (parms ctx) = [] ->
  cookVDBSop ctx self =
    addWarning [Str "No output selected"]
      (set_mVoxelSize (to_float (voxelsize (parms ctx))) (beginCook self)).
Proof.
  intros Hvs Hd Hf Ha. apply Real_ltb_ge in Hvs.
  unfold cookVDBSop; cbn [beginCook set_mVoxelSize mVoxelSize].
  rewrite Hvs. unfold evalInt_attrList. rewrite Hd, Hf, Ha. reflexivity.
Qed.

(** Without a distance, fog or attribute request the cook exports
    nothing and calls no tool, whatever the voxel size. *)
Lemma cook_no_output_no_work (Ext : Externals) (ctx : OP_Context) (self : Node) :
  builddistance (parms ctx) = 0 ->
  buildfog (parms ctx) = 0 ->
  attrList (parms ctx) = [] ->
  gdp (cookVDBSop ctx self) = [] /\ calls (cookVDBSop ctx self) = [].
Proof.
  intros Hd Hf Ha.
  destruct (Real_ltb (to_float (voxelsize (parms ctx))) minVoxelSize) eqn:E.
  - apply Real_ltb_lt in E.
    rewrite (cook_small_voxel_size Ext ctx self E). split; reflexivity.
  - apply Real_ltb_ge in E.
    rewrite (cook_no_output_selected Ext ctx self E Hd Hf Ha). split; reflexivity.
Qed.

(** C5, as stated, fails: with nothing requested and a zero voxel size
    the cook aborts with the voxel-size error and records no warning. *)
Lemma no_output_warning_counterexample :
  let ctx := Sample.nothingRequestedZeroVoxel in
  builddistance (parms ctx) = 0 /\ buildfog (parms ctx) = 0
  /\ buildmask (parms ctx) = 0 /\ attrList (parms ctx) = []
  /\ error (cookVDBSop (Ext:=Sample.tools) ctx Sample.freshNode) = UT_ERROR_ABORT
  /\ forall d, In d (messages (cookVDBSop (Ext:=Sample.tools) ctx Sample.freshNode)) ->
               severity d <> SOP_Warning.
Proof.
  cbv zeta. split; [reflexivity|]. split; [reflexivity|]. split; [reflexivity|].
  split; [reflexivity|].
  assert (Hsmall : (voxelsize (parms Sample.nothingRequestedZeroVoxel) < minVoxelSize)%Qc)
    by reflexivity.
  rewrite (cook_small_voxel_size Sample.tools Sample.nothingRequestedZeroVoxel
             Sample.freshNode (to_float_below_minVoxelSize _ Hsmall)).
  split; [reflexivity|].
  intros d [<- | []]. discriminate.
Qed.

(** C5, amended. When the voxel size, narrowed to single precision as
    the cook reads it, is at least 1e-5 and no output type is requested
    (no distance, no fog, no attribute), the cook returns at once with
    the single warning "No output selected": nothing is exported and no
    volume tool is called. *)
Theorem no_output_selected_aborts (Ext : Externals) (ctx : OP_Context) (self : Node) :
  (minVoxelSize <= to_float (voxelsize (parms ctx)))%Qc ->
  builddistance (parms ctx) = 0 ->
  buildfog (parms ctx) = 0 ->
  attrList (parms ctx) = [] ->
  messages (cookVDBSop ctx self) = [mkDiagnostic SOP_Warning [Str "No output selected"]]
  /\ error (cookVDBSop ctx self) = UT_ERROR_WARNING
  /\ gdp (cookVDBSop ctx self) = []
  /\ calls (cookVDBSop ctx self) = [].
Proof.
  intros Hvs Hd Hf Ha.
  rewrite (cook_no_output_selected Ext ctx self Hvs Hd Hf Ha). repeat split.
Qed.

Lemma no_output_selected_aborts_witness :
  (minVoxelSize <= to_float (voxelsize (parms Sample.nothingRequested)))%Qc
  /\ messages (cookVDBSop (Ext:=Sample.tools) Sample.nothingRequested Sample.freshNode) =
       [mkDiagnostic SOP_Warning [Str "No output selected"]]
  /\ gdp (cookVDBSop (Ext:=Sample.tools) Sample.nothingRequested Sample.freshNode) = [].
Proof.
  assert (Hvs : (minVoxelSize <= to_float (voxelsize (parms Sample.nothingRequested)))%Qc)
    by (vm_compute; discriminate).
  split; [exact Hvs|].
  destruct (no_output_selected_aborts Sample.tools Sample.nothingRequested Sample.freshNode
              Hvs eq_refl eq_refl eq_refl) as (Hm & _ & Hg & _).
  split; [exact Hm | exact Hg].
Defined.

(** C6, as stated, fails: with only the mask requested and a zero voxel
    size the cook produces no field, but the diagnostic is the
    voxel-size error, not the warning "No output selected". *)
Lemma mask_only_warning_counterexample :
  let ctx := Sample.maskOnlyZeroVoxel in
  buildmask (parms ctx) = 1 /\ builddistance (parms ctx) = 0
  /\ buildfog (parms ctx) = 0 /\ attrList (parms ctx) = []
  /\ forall d, In d (messages (cookVDBSop (Ext:=Sample.tools) ctx Sample.freshNode)) ->
               text d <> [Str "No output selected"].
Proof.
  cbv zeta. split; [reflexivity|]. split; [reflexivity|]. split; [reflexivity|].
  split; [reflexivity|].
  assert (Hsmall : (voxelsize (parms Sample.maskOnlyZeroVoxel) < minVoxelSize)%Qc)
    by reflexivity.
  rewrite (cook_small_voxel_size Sample.tools Sample.maskOnlyZeroVoxel
             Sample.freshNode (to_float_below_minVoxelSize _ Hsmall)).
  intros d [<- | []]. discriminate.
Qed.

(** C6, amended. The mask toggle alone is not an output selection: with
    the mask requested and no distance, fog or attribute output, the
    cook exports no field at all (hence no mask) and calls no volume
    tool; when the voxel size, narrowed to single precision as the cook
    reads it, is at least 1e-5 its only diagnostic is the warning
    "No output selected". *)
Theorem mask_alone_is_no_output (Ext : Externals) (ctx : OP_Context) (self : Node) :
  buildmask (parms ctx) <> 0 ->
  builddistance (parms ctx) = 0 ->
  buildfog (parms ctx) = 0 ->
  attrList (parms ctx) = [] ->
  gdp (cookVDBSop ctx self) = []
  /\ calls (cookVDBSop ctx self) = []
  /\ ((minVoxelSize <= to_float (voxelsize (parms ctx)))%Qc ->
      messages (cookVDBSop ctx self) =
        [mkDiagnostic SOP_Warning [Str "No output selected"]]).
Proof.
  intros _ Hd Hf Ha.
  destruct (cook_no_output_no_work Ext ctx self Hd Hf Ha) as [Hg Hc].
  repeat split; [exact Hg | exact Hc |].
  intros Hvs. rewrite (cook_no_output_selected Ext ctx self Hvs Hd Hf Ha). reflexivity.
Qed.

Lemma mask_alone_is_no_output_witness :
  buildmask (parms Sample.maskOnly) <> 0
  /\ gdp (cookVDBSop (Ext:=Sample.tools) Sample.maskOnly Sample.freshNode) = []
  /\ messages (cookVDBSop (Ext:=Sample.tools) Sample.maskOnly Sample.freshNode) =
       [mkDiagnostic SOP_Warning [Str "No output selected"]].
Proof.
  assert (Hm : buildmask (parms Sample.maskOnly) <> 0) by (vm_compute; discriminate).
  split; [exact Hm|].
  destruct (mask_alone_is_no_output Sample.tools Sample.maskOnly Sample.freshNode
              Hm eq_refl eq_refl eq_refl) as (Hg & _ & Hw).
  split; [exact Hg|]. apply Hw. vm_compute; discriminate.
Defined.

(** ** The half-band unit converter *)

Lemma positive_nonzero (v : Real) : (0 < v)%Qc -> v <> 0%Qc.
Proof. intros Hv Heq. rewrite Heq in Hv. exact (Qclt_not_eq _ _ Hv eq_refl). Qed.

(** One rounding in [double] moves a number of the normal range by
    at most the relative distance [double_roundoff]. *)
Lemma to_double_relative (q : Real) :
  (double_min <= q)%Qc ->
  (q * (1 - double_roundoff) <= to_double q)%Qc
  /\ (to_double q <= q * (1 + double_roundoff))%Qc.
Proof.
  intros Hq.
  destruct (round_binary_relative 53 (-1022) q eq_refl) as [A B].
  { unfold Qcle, double_min in Hq. rewrite Q2Qc_this in Hq. exact Hq. }
  split; unfold Qcle, to_double, double_roundoff, Qcmult, Qcminus, Qcplus, Qcopp;
    cbn [this Q2Qc]; rewrite !Qred_correct; assumption.
Qed.

Lemma double_constants :
  (0 < double_min)%Qc /\ (0 < double_roundoff)%Qc /\ (double_roundoff <= Q2Qc (1 # 2))%Qc.
Proof.
  split; [|split].
  - apply (Q2Qc_lt 0). apply pow2_pos.
  - apply (Q2Qc_lt 0). apply pow2_pos.
  - apply Q2Qc_le. exact (pow2_half 53 eq_refl).
Qed.

Ltac real_to_Q :=
  unfold Qcle, Qclt, Qcdiv, Qcminus, Qcmult, Qcplus, Qcopp, Qcinv;
  cbn [this Q2Qc]; rewrite ?Qred_correct.

(** Two roundings, of a product and of the quotient that undoes it,
    or the other way round. *)
Lemma mult_div_bounds (m u x v p r : Real) :
  (0 < m)%Qc -> (0 < u)%Qc -> (u <= Q2Qc (1 # 2))%Qc -> (0 < v)%Qc -> (2 * m <= x)%Qc ->
  (x * v * (1 - u) <= p)%Qc -> (p <= x * v * (1 + u))%Qc ->
  ((m <= p / v)%Qc -> (p / v * (1 - u) <= r)%Qc /\ (r <= p / v * (1 + u))%Qc) ->
  (x * ((1 - u) * (1 - u)) <= r)%Qc /\ (r <= x * ((1 + u) * (1 + u)))%Qc.
Proof.
  destruct m as [m ?], u as [u ?], x as [x ?], v as [v ?], p as [p ?], r as [r ?].
  real_to_Q. cbn [this]. intros Hm Hu Hu2 Hv Hx A1 A2 K.
  assert (Et : (p * / v * v == p)%Q) by (field; lra).
  set (t := (p * / v)%Q) in *.
  assert (T1 : (x * (1 + - u) <= t)%Q).
  { destruct (Qlt_le_dec t (x * (1 + - u))) as [H|H]; [exfalso; nra | exact H]. }
  assert (T2 : (t <= x * (1 + u))%Q).
  { destruct (Qlt_le_dec (x * (1 + u)) t) as [H|H]; [exfalso; nra | exact H]. }
  assert (Ht : (m <= t)%Q) by nra.
  destruct (K Ht) as [B1 B2]. split; nra.
Qed.

Lemma div_mult_bounds (m u x v q r : Real) :
  (0 < m)%Qc -> (0 < u)%Qc -> (u <= Q2Qc (1 # 2))%Qc -> (0 < v)%Qc -> (2 * m <= x)%Qc ->
  (x / v * (1 - u) <= q)%Qc -> (q <= x / v * (1 + u))%Qc ->
  ((m <= q * v)%Qc -> (q * v * (1 - u) <= r)%Qc /\ (r <= q * v * (1 + u))%Qc) ->
  (x * ((1 - u) * (1 - u)) <= r)%Qc /\ (r <= x * ((1 + u) * (1 + u)))%Qc.
Proof.
  destruct m as [m ?], u as [u ?], x as [x ?], v as [v ?], q as [q ?], r as [r ?].
  real_to_Q. cbn [this]. intros Hm Hu Hu2 Hv Hx A1 A2 K.
  assert (Et : (x * / v * v == x)%Q) by (field; lra).
  set (t := (x * / v)%Q) in *.
  assert (T1 : (x * (1 + - u) <= q * v)%Q) by nra.
  assert (T2 : (q * v <= x * (1 + u))%Q) by nra.
  assert (Ht : (m <= q * v)%Q) by nra.
  destruct (K Ht) as [B1 B2]. set (w := (q * v)%Q) in *. split; nra.
Qed.

Lemma worldToVoxels_positive (world vs : Real) :
  (0 < vs)%Qc -> worldToVoxels world vs = Some (to_double (world / vs)).
Proof.
  intros Hv. unfold worldToVoxels. rewrite bool_decide_eq_false_2; [reflexivity|].
  exact (positive_nonzero vs Hv).
Qed.

(** To world units and back, and to voxels and back, in [double]. *)
Lemma voxels_world_voxels (x vs : Real) :
  (0 < vs)%Qc -> (2 * double_min <= x)%Qc -> (double_min <= x * vs)%Qc ->
  let u := double_roundoff in
  exists r, worldToVoxels (voxelsToWorld x vs) vs = Some r
    /\ (x * ((1 - u) * (1 - u)) <= r)%Qc /\ (r <= x * ((1 + u) * (1 + u)))%Qc.
Proof.
  intros Hv Hx Hxv u. rewrite (worldToVoxels_positive _ vs Hv).
  eexists. split; [reflexivity|]. unfold voxelsToWorld.
  destruct double_constants as (Hm & Hu & Hu2).
  destruct (to_double_relative _ Hxv) as [A1 A2].
  exact (mult_div_bounds double_min double_roundoff x vs _ _ Hm Hu Hu2 Hv Hx A1 A2
           (to_double_relative _)).
Qed.

Lemma world_voxels_world (x vs : Real) :
  (0 < vs)%Qc -> (2 * double_min <= x)%Qc -> (double_min <= x / vs)%Qc ->
  let u := double_roundoff in
  exists q, worldToVoxels x vs = Some q
    /\ (x * ((1 - u) * (1 - u)) <= voxelsToWorld q vs)%Qc
    /\ (voxelsToWorld q vs <= x * ((1 + u) * (1 + u)))%Qc.
Proof.
  intros Hv Hx Hxv u. rewrite (worldToVoxels_positive _ vs Hv).
  eexists. split; [reflexivity|]. unfold voxelsToWorld.
  destruct double_constants as (Hm & Hu & Hu2).
  destruct (to_double_relative _ Hxv) as [A1 A2].
  exact (div_mult_bounds double_min double_roundoff x vs _ _ Hm Hu Hu2 Hv Hx A1 A2
           (to_double_relative _)).
Qed.

(** C9, as stated, fails: the product and the quotient are rounded.
    With no cache the voxel size is [0.1f]; a half-band of
    [double(1.3)] voxels becomes [double(1.3 * 0.1f)] in world units
    and, switched back, 2927339757790823/2^51 voxels, the [double]
    after the one the round trip set out from. *)
Lemma convertUnits_round_trip_counterexample :
  let sop := mkSOP (setFloat_halfbandvoxels (to_double (real (13 # 10))) Sample.defaults)
               None in
  let toWorld s := snd (convertUnits (mkSOP (setInt_useworldspace 1 (sopParms s))
                                            (myNodeVerbCache s))) in
  let toVoxels s := snd (convertUnits (mkSOP (setInt_useworldspace 0 (sopParms s))
                                             (myNodeVerbCache s))) in
  (0 < voxSize sop)%Qc
  /\ this (halfbandvoxels (sopParms sop)) = (5854679515581645 # 2 ^ 52)%Q
  /\ (fun s => this (halfbandvoxels (sopParms s))) <$> (toWorld sop ≫= toVoxels)
     = Some (2927339757790823 # 2 ^ 51)%Q
  /\ (fun s => halfbandvoxels (sopParms s)) <$> (toWorld sop ≫= toVoxels)
     <> Some (halfbandvoxels (sopParms sop)).
Proof.
  cbv zeta. split; [vm_compute; reflexivity|]. split; [vm_compute; reflexivity|].
  split; [vm_compute; reflexivity|].
  intros H. apply (f_equal (fmap this)) in H. vm_compute in H. discriminate H.
Qed.

(** C9, amended.  At a fixed positive voxel size the two conversions
    are the product [voxels * voxelSize] and the quotient
    [w / voxelSize], each rounded to the nearest [double]; the callback
    applies them: with the toggle on it writes the product to
    [halfband], with the toggle off it writes the quotient to
    [halfbandvoxels], and it changes nothing else.  One conversion
    followed by the other returns the value it started from up to two
    roundings: for a value of at least twice the smallest normal
    [double] whose first conversion is in the normal range, the result
    lies between [x * (1 - u)^2] and [x * (1 + u)^2], where [u] is
    2^-53. *)
Theorem convertUnits_round_trip (sop : SOP_OpenVDB_From_Particles) :
  (0 < voxSize sop)%Qc ->
  let vs := voxSize sop in
  let P := sopParms sop in
  let u := double_roundoff in
  let toWorld s := snd (convertUnits (mkSOP (setInt_useworldspace 1 (sopParms s))
                                            (myNodeVerbCache s))) in
  let toVoxels s := snd (convertUnits (mkSOP (setInt_useworldspace 0 (sopParms s))
                                             (myNodeVerbCache s))) in
  (forall voxels, voxelsToWorld voxels vs = to_double (voxels * vs))
  /\ (forall world, worldToVoxels world vs = Some (to_double (world / vs)))
  /\ toWorld sop
     = Some (mkSOP (setFloat_halfband (to_double (halfbandvoxels P * vs))
                      (setInt_useworldspace 1 P)) (myNodeVerbCache sop))
  /\ toVoxels sop
     = Some (mkSOP (setFloat_halfbandvoxels (to_double (halfband P / vs))
                      (setInt_useworldspace 0 P)) (myNodeVerbCache sop))
  /\ (forall x, (2 * double_min <= x)%Qc -> (double_min <= x * vs)%Qc ->
        exists r, worldToVoxels (voxelsToWorld x vs) vs = Some r
          /\ (x * ((1 - u) * (1 - u)) <= r)%Qc /\ (r <= x * ((1 + u) * (1 + u)))%Qc)
  /\ (forall x, (2 * double_min <= x)%Qc -> (double_min <= x / vs)%Qc ->
        exists q, worldToVoxels x vs = Some q
          /\ (x * ((1 - u) * (1 - u)) <= voxelsToWorld q vs)%Qc
          /\ (voxelsToWorld q vs <= x * ((1 + u) * (1 + u)))%Qc)
  /\ ((2 * double_min <= halfbandvoxels P)%Qc -> (double_min <= halfbandvoxels P * vs)%Qc ->
        exists s, toWorld sop ≫= toVoxels = Some s
          /\ (halfbandvoxels P * ((1 - u) * (1 - u)) <= halfbandvoxels (sopParms s))%Qc
          /\ (halfbandvoxels (sopParms s) <= halfbandvoxels P * ((1 + u) * (1 + u)))%Qc)
  /\ ((2 * double_min <= halfband P)%Qc -> (double_min <= halfband P / vs)%Qc ->
        exists s, toVoxels sop ≫= toWorld = Some s
          /\ (halfband P * ((1 - u) * (1 - u)) <= halfband (sopParms s))%Qc
          /\ (halfband (sopParms s) <= halfband P * ((1 + u) * (1 + u)))%Qc).
Proof.
  intros Hpos vs P u toWorld toVoxels.
  assert (HtoVoxels : forall s, voxSize s = vs ->
            toVoxels s = Some (mkSOP (setFloat_halfbandvoxels
                                        (to_double (halfband (sopParms s) / vs))
                                        (setInt_useworldspace 0 (sopParms s)))
                                     (myNodeVerbCache s))).
  { intros s Hs. unfold toVoxels, convertUnits. cbn [sopParms myNodeVerbCache snd].
    change (voxSize {| sopParms := setInt_useworldspace 0 (sopParms s);
                       myNodeVerbCache := myNodeVerbCache s |}) with (voxSize s).
    rewrite Hs. cbn [setInt_useworldspace useworldspace Z.eqb negb].
    rewrite (worldToVoxels_positive _ vs Hpos). reflexivity. }
  assert (HtoWorld : forall s, voxSize s = vs ->
            toWorld s = Some (mkSOP (setFloat_halfband
                                       (to_double (halfbandvoxels (sopParms s) * vs))
                                       (setInt_useworldspace 1 (sopParms s)))
                                    (myNodeVerbCache s))).
  { intros s Hs. unfold toWorld, convertUnits. cbn [sopParms myNodeVerbCache snd].
    change (voxSize {| sopParms := setInt_useworldspace 1 (sopParms s);
                       myNodeVerbCache := myNodeVerbCache s |}) with (voxSize s).
    rewrite Hs. reflexivity. }
  split; [reflexivity|].
  split; [intros world; apply worldToVoxels_positive; exact Hpos|].
  split; [apply HtoWorld; reflexivity|].
  split; [apply HtoVoxels; reflexivity|].
  split; [intros x; apply voxels_world_voxels; exact Hpos|].
  split; [intros x; apply world_voxels_world; exact Hpos|].
  split.
  - intros Hx Hxv. rewrite (HtoWorld sop eq_refl). cbn [mbind option_bind].
    rewrite HtoVoxels by reflexivity. eexists. split; [reflexivity|].
    cbn [sopParms halfbandvoxels halfband setFloat_halfbandvoxels setFloat_halfband
         setInt_useworldspace].
    destruct (voxels_world_voxels (halfbandvoxels P) vs Hpos Hx Hxv) as (r & Hr & Hb).
    unfold voxelsToWorld in Hr. rewrite (worldToVoxels_positive _ vs Hpos) in Hr.
    injection Hr as <-. exact Hb.
  - intros Hx Hxv. rewrite (HtoVoxels sop eq_refl). cbn [mbind option_bind].
    rewrite HtoWorld by reflexivity. eexists. split; [reflexivity|].
    cbn [sopParms halfbandvoxels halfband setFloat_halfbandvoxels setFloat_halfband
         setInt_useworldspace].
    destruct (world_voxels_world (halfband P) vs Hpos Hx Hxv) as (q & Hq & Hb).
    rewrite (worldToVoxels_positive _ vs Hpos) in Hq. injection Hq as <-. exact Hb.
Qed.

Lemma convertUnits_round_trip_witness :
  (0 < voxSize Sample.sampleSOP)%Qc
  /\ (fun s => this (halfband (sopParms s)))
       <$> snd (convertUnits (mkSOP (setInt_useworldspace 1 (sopParms Sample.sampleSOP))
                                    (myNodeVerbCache Sample.sampleSOP)))
     = Some (3 # 4)%Q.
Proof.
  split; [reflexivity|].
  rewrite (proj1 (proj2 (proj2 (convertUnits_round_trip Sample.sampleSOP eq_refl)))).
  vm_compute. reflexivity.
Defined.

(** ** The particle adapter *)

Lemma mScaleHandle_get_stored (pa : ParticleList) (radii : list Real) (n : nat) (s : Real) :
  pscale (mGdp pa) = Some radii -> radii !! n = Some s -> mScaleHandle_get pa n = s.
Proof.
  intros Hp Hn. unfold mScaleHandle_get. rewrite Hp. cbn [default].
  apply nth_lookup_Some with (d := real 0). exact Hn.
Qed.

Lemma mVelHandle_get_stored (pa : ParticleList) (vels : list Vec3) (n : nat) (v : Vec3) :
  velocity (mGdp pa) = Some vels -> vels !! n = Some v -> mVelHandle_get pa n = v.
Proof.
  intros Hp Hn. unfold mVelHandle_get. rewrite Hp. cbn [default].
  apply nth_lookup_Some with (d := zeroVec). exact Hn.
Qed.

(** C7. For the adapter the cook builds on a detail, and for the
    adapters the mask passes derive from it by resetting the
    multiplier: when the detail stores a radius attribute, with value
    [s] for particle [n], the radius read for [n] is the multiplier
    times [s], through [getPosRad] and through [getPosRadVel], and that
    is the radius every rasterization the converters start works with.
    When the detail stores no radius attribute the converters start
    either the constant-radius sphere rasterization with the multiplier
    as the radius, or (with trails on and velocities stored) the trail
    rasterization, whose adapter radius is the multiplier: in both the
    radius of every particle is the multiplier itself. *)
Theorem adapter_radius (detail : GU_Detail) (radiusScale velocityScale mult : Real)
    (n : nat) (P : Parms) :
  let pa := setRadiusMult mult (ParticleList_new detail radiusScale velocityScale) in
  radiusMult (ParticleList_new detail radiusScale velocityScale) = radiusScale
  /\ radiusMult pa = mult
  /\ (mult = radiusScale -> pa = ParticleList_new detail radiusScale velocityScale)
  /\ (forall radii s,
        pscale detail = Some radii -> radii !! n = Some s ->
        hasRadius pa = true
        /\ getPosRad pa n = Some (getPos3 detail n, (mult * s)%Qc)
        /\ (forall vels vx vy vz,
              velocity detail = Some vels -> vels !! n = Some (vx, vy, vz) ->
              getPosRadVel pa n
              = Some (getPos3 detail n, (mult * s)%Qc,
                      ((velocityScale * vx)%Qc, (velocityScale * vy)%Qc,
                       (velocityScale * vz)%Qc)))
        /\ jobRadius (rasterJob P pa) n = Some (mult * s)%Qc)
  /\ (pscale detail = None ->
        hasRadius pa = false
        /\ getPosRad pa n = None
        /\ (rasterJob P pa = rasterizeSpheresConst pa mult
            \/ (rasterJob P pa = rasterizeTrails pa (to_float (trailresolution P))
                /\ exists vel, getPosRadVel pa n = Some (getPos3 detail n, mult, vel)))
        /\ jobRadius (rasterJob P pa) n = Some mult).
Proof.
  intros pa. split; [reflexivity|]. split; [reflexivity|].
  split; [intros ->; reflexivity|]. split.
  - intros radii s Hp Hn.
    assert (Hr : mHasRadius pa = true).
    { cbn. rewrite Hp. reflexivity. }
    assert (Hs : mScaleHandle_get pa n = s)
      by (apply (mScaleHandle_get_stored pa radii); [exact Hp | exact Hn]).
    assert (Hrad : getPosRad pa n = Some (getPos3 detail n, (mult * s)%Qc)).
    { unfold getPosRad. rewrite Hr, Hs. reflexivity. }
    assert (Hvel : forall vels vx vy vz,
               velocity detail = Some vels -> vels !! n = Some (vx, vy, vz) ->
               getPosRadVel pa n
               = Some (getPos3 detail n, (mult * s)%Qc,
                       ((velocityScale * vx)%Qc, (velocityScale * vy)%Qc,
                        (velocityScale * vz)%Qc))).
    { intros vels vx vy vz Hv Hvn. unfold getPosRadVel. rewrite Hr, Hs.
      replace (mHasVelocity pa) with true by (cbn; rewrite Hv; reflexivity).
      rewrite (mVelHandle_get_stored pa vels n (vx, vy, vz) Hv Hvn). reflexivity. }
    split; [exact Hr|]. split; [exact Hrad|]. split; [exact Hvel|].
    unfold rasterJob, hasRadius, hasVelocity. rewrite Hr.
    destruct (velocitytrails P =? 1); cbn [andb jobRadius].
    + destruct (mHasVelocity pa) eqn:Hv.
      * cbn [jobRadius]. unfold getPosRadVel. rewrite Hr, Hs, Hv.
        destruct (mVelHandle_get pa n) as [[vx vy] vz]. reflexivity.
      * cbn [jobRadius]. rewrite Hrad. reflexivity.
    + rewrite Hrad. reflexivity.
  - intros Hp.
    assert (Hr : mHasRadius pa = false).
    { cbn. rewrite Hp. reflexivity. }
    split; [exact Hr|]. split; [unfold getPosRad; rewrite Hr; reflexivity|].
    unfold rasterJob, hasRadius, hasVelocity, radiusMult. rewrite Hr.
    destruct (velocitytrails P =? 1); cbn [andb]; [|split; [left|]; reflexivity].
    destruct (mHasVelocity pa) eqn:Hv; [|split; [left|]; reflexivity].
    assert (Hg : getPosRadVel pa n
                 = Some (getPos3 detail n, mult,
                         let '(vx, vy, vz) := mVelHandle_get pa n in
                         ((velocityScale * vx)%Qc, (velocityScale * vy)%Qc,
                          (velocityScale * vz)%Qc))).
    { unfold getPosRadVel. rewrite Hr, Hv.
      destruct (mVelHandle_get pa n) as [[vx vy] vz]. reflexivity. }
    split.
    + right. split; [reflexivity|]. eexists. exact Hg.
    + cbn [jobRadius]. rewrite Hg. reflexivity.
Qed.

Lemma adapter_radius_witness :
  let withRadius := ParticleList_new Sample.twoPoints (real 1) (real 1) in
  let withoutRadius := ParticleList_new Sample.twoMovingPoints (real 1) (real 1) in
  (pscale Sample.twoPoints = Some [real (3 # 10); real (3 # 10)]
   /\ pscale Sample.twoMovingPoints = None)
  /\ (fun pr => this (snd pr)) <$> getPosRad (setRadiusMult (real 2) withRadius) 1
     = Some (3 # 5)%Q
  /\ jobRadius (rasterJob Sample.defaults (setRadiusMult (real 2) withoutRadius)) 1
     = Some (real 2).
Proof.
  intros withRadius withoutRadius.
  split; [split; reflexivity|]. split.
  - destruct (proj1 (proj2 (proj2 (proj2 (adapter_radius Sample.twoPoints (real 1) (real 1)
                                            (real 2) 1 Sample.defaults))))
                _ (real (3 # 10)) eq_refl eq_refl) as (_ & Hrad & _).
    unfold withRadius. rewrite Hrad. vm_compute. reflexivity.
  - exact (proj2 (proj2 (proj2 (proj2 (proj2 (proj2 (proj2
             (adapter_radius Sample.twoMovingPoints (real 1) (real 1) (real 2) 1
                Sample.defaults)))) eq_refl)))).
Defined.

(** ** How the stages of the cook extend the node state *)

Ltac node_simpl :=
  cbn [mVoxelSize messages gdp calls addWarning addError addMessage addDiagnostic
       logCall createVdbPrimitive set_mVoxelSize beginCook FloatGrid_create fst snd] in *.

Lemma grows_refl T s : grows T s s.
Proof.
  repeat split; exists []; rewrite app_nil_r; auto.
Qed.

Lemma grows_trans T s1 s2 s3 : grows T s1 s2 -> grows T s2 s3 -> grows T s1 s3.
Proof.
  intros (Hv1 & (m1 & Hm1 & Fm1) & (p1 & Hp1 & Fp1) & (c1 & Hc1))
         (Hv2 & (m2 & Hm2 & Fm2) & (p2 & Hp2 & Fp2) & (c2 & Hc2)).
  split; [congruence|]. split; [|split].
  - exists (m1 ++ m2). rewrite Hm2, Hm1, app_assoc. split; [reflexivity|].
    apply Forall_app; auto.
  - exists (p1 ++ p2). rewrite Hp2, Hp1, app_assoc. split; [reflexivity|].
    apply Forall_app; auto.
  - exists (c1 ++ c2). rewrite Hc2, Hc1, app_assoc. reflexivity.
Qed.

Lemma grows_addDiagnostic T sev t s :
  sev <> SOP_Error -> grows T s (addDiagnostic sev t s).
Proof.
  intros Hsev. split; [reflexivity|]. split; [|split]; node_simpl.
  - exists [mkDiagnostic sev t]. split; [reflexivity|]. repeat constructor. exact Hsev.
  - exists []. rewrite app_nil_r. auto.
  - exists []. rewrite app_nil_r. auto.
Qed.

Lemma grows_addWarning T t s : grows T s (addWarning t s).
Proof. apply grows_addDiagnostic. discriminate. Qed.

Lemma grows_addMessage T t s : grows T s (addMessage t s).
Proof. apply grows_addDiagnostic. discriminate. Qed.

Lemma grows_logCall T c s : grows T s (logCall c s).
Proof.
  split; [reflexivity|]. split; [|split]; node_simpl.
  - exists []. rewrite app_nil_r. auto.
  - exists []. rewrite app_nil_r. auto.
  - exists [c]. reflexivity.
Qed.

Lemma baseTransform_baseSetName n g : baseTransform (baseSetName n g) = baseTransform g.
Proof. destruct g; reflexivity. Qed.

Lemma baseTransform_baseSetTransform T g : baseTransform (baseSetTransform T g) = T.
Proof. destruct g; reflexivity. Qed.

Lemma grows_createVdbPrimitive T g name s :
  baseTransform g = T -> grows T s (createVdbPrimitive g name s).
Proof.
  intros Hg. split; [reflexivity|]. split; [|split]; node_simpl.
  - exists []. rewrite app_nil_r. auto.
  - eexists. split; [reflexivity|]. repeat constructor. cbn.
    destruct name; [rewrite baseTransform_baseSetName|]; exact Hg.
  - exists []. rewrite app_nil_r. auto.
Qed.

Lemma grows_if T (b : bool) s s1 s2 :
  grows T s s1 -> grows T s s2 -> grows T s (if b then s1 else s2).
Proof. destruct b; auto. Qed.

(** [convert] leaves the metadata of the grid alone and only extends
    the node state. *)
Lemma convert_grid (Ext : Externals) P og pa self :
  fst (convert P og pa self)
  = setVoxels (sdfVoxels (ParticlesToLevelSet false (minradius P) Rmax (rasterJob P pa) og)) og.
Proof. reflexivity. Qed.

Lemma convert_calls (Ext : Externals) P og pa self :
  calls (snd (convert P og pa self))
  = calls self ++ [Call_ParticlesToLevelSet false (minradius P) Rmax (rasterJob P pa) og].
Proof. unfold convert. cbn [snd]. case_match; reflexivity. Qed.

Lemma convert_gdp (Ext : Externals) P og pa self :
  gdp (snd (convert P og pa self)) = gdp self.
Proof. unfold convert. cbn [snd]. case_match; reflexivity. Qed.

Lemma convert_grows (Ext : Externals) T P og pa self :
  grows T self (snd (convert P og pa self)).
Proof.
  unfold convert. cbn [snd].
  eapply grows_trans; [apply grows_logCall|].
  apply grows_if; [apply grows_addWarning | apply grows_refl].
Qed.

Lemma transfer_fold (Ext : Externals) l idx T ptGeo self :
  foldl (fun self attrDetail =>
           createVdbPrimitive (baseSetTransform T (PointAttrTransfer attrDetail idx ptGeo))
             (Some (adName attrDetail)) self) self l
  = mkNode (mVoxelSize self) (messages self)
           (gdp self ++ transferredPrims Ext l idx T ptGeo) (calls self).
Proof.
  revert self. induction l as [|d l IH]; intros self; cbn [foldl].
  - unfold transferredPrims. cbn. rewrite app_nil_r. destruct self; reflexivity.
  - rewrite IH. node_simpl. unfold transferredPrims. cbn [map].
    rewrite <- app_assoc. reflexivity.
Qed.

Lemma transferAttributes_eq (Ext : Externals) l idx T ptGeo self :
  transferAttributes l idx T ptGeo self
  = mkNode (mVoxelSize self) (messages self)
           (gdp self ++ transferredPrims Ext l idx T ptGeo)
           (calls self ++ [Call_PointAttrTransfer (length l)]).
Proof. unfold transferAttributes. rewrite transfer_fold. reflexivity. Qed.

Lemma transferredPrims_transform (Ext : Externals) l idx T ptGeo :
  Forall (fun p => baseTransform (getGrid p) = T) (transferredPrims Ext l idx T ptGeo).
Proof.
  unfold transferredPrims. induction l as [|d l IH]; cbn [map]; constructor; [|exact IH].
  cbn. rewrite baseTransform_baseSetName. apply baseTransform_baseSetTransform.
Qed.

(** ** The attribute descriptor loop *)

Lemma withMessages_nil n : withMessages [] n = n.
Proof. unfold withMessages. rewrite app_nil_r. destruct n; reflexivity. Qed.

Lemma withMessages_app ms1 ms2 n :
  withMessages ms2 (withMessages ms1 n) = withMessages (ms1 ++ ms2) n.
Proof. unfold withMessages. cbn. rewrite app_assoc. reflexivity. Qed.

Lemma grows_withMessages T ms n :
  Forall (fun d => severity d <> SOP_Error) ms -> grows T n (withMessages ms n).
Proof.
  intros Hms. split; [reflexivity|]. split; [|split]; cbn.
  - exists ms. auto.
  - exists []. rewrite app_nil_r. auto.
  - exists []. rewrite app_nil_r. auto.
Qed.

Lemma findAttribute_name name l a : findAttribute name l = Some a -> getName a = name.
Proof.
  induction l as [|b l IH]; cbn; [discriminate|].
  destruct (String.eqb (getName b) name) eqn:E.
  - intros [= <-]. apply String.eqb_eq. exact E.
  - exact IH.
Qed.

(** Every descriptor [addAttributeDetails] appends is bound to the
    attribute it was called with. *)
Lemma addAttributeDetails_attr (Ext : Externals) ty l attr aif size idx name vt d :
  In d (addAttributeDetails ty l attr aif size idx name vt) ->
  In d l \/ adAttribute d = attr.
Proof.
  unfold addAttributeDetails, push_back.
  destruct (negb (vt =? -1)).
  - intros Hin. apply in_app_or in Hin. destruct Hin as [Hin | [<- | []]]; [left; exact Hin|].
    right. case_match; reflexivity.
  - generalize (seqZ 0 size). intros cs. revert l.
    induction cs as [|c cs IH]; intros l; cbn [foldl]; [auto|].
    intros Hin. apply IH in Hin. destruct Hin as [Hin | Hin]; [|right; exact Hin].
    apply in_app_or in Hin. destruct Hin as [Hin | [<- | []]]; [left; exact Hin|].
    right. case_match; reflexivity.
Qed.

Lemma reserved_not_empty : (String.length point_list_index =? 0)%nat = false.
Proof. reflexivity. Qed.

(** One iteration: the node state only gains warnings, the instance
    number is set exactly by the reserved name, and whatever descriptor
    is added is bound to an attribute with another name. *)
Lemma attrLoopBody_node (Ext : Externals) P ptGeo idx i st :
  exists ms, loopNode (attrLoopBody P ptGeo idx i st) = withMessages ms (loopNode st)
             /\ Forall (fun d => severity d <> SOP_Error) ms.
Proof.
  unfold attrLoopBody.
  repeat case_match; cbn [loopNode];
    try (exists []; rewrite withMessages_nil; split; [reflexivity | constructor]);
    eexists; (split; [reflexivity|]); repeat constructor; discriminate.
Qed.

Lemma attrLoopBody_instance (Ext : Externals) P ptGeo idx i st :
  closestPointIndexInstance (attrLoopBody P ptGeo idx i st)
  = if String.eqb (attribute (evalInst P i)) point_list_index
    then i else closestPointIndexInstance st.
Proof.
  unfold attrLoopBody.
  destruct (String.eqb (attribute (evalInst P i)) point_list_index) eqn:E.
  - apply String.eqb_eq in E. rewrite E, reserved_not_empty. reflexivity.
  - repeat case_match; reflexivity.
Qed.

Lemma attrLoopBody_attrs (Ext : Externals) P ptGeo idx i st d :
  In d (pointAttributes (attrLoopBody P ptGeo idx i st)) ->
  In d (pointAttributes st) \/ getName (adAttribute d) <> point_list_index.
Proof.
  unfold attrLoopBody.
  destruct (String.length (attribute (evalInst P i)) =? 0)%nat; [auto|].
  destruct (String.eqb (attribute (evalInst P i)) point_list_index) eqn:E; [auto|].
  apply String.eqb_neq in E.
  destruct (findPointAttribute ptGeo (attribute (evalInst P i))) as [attr|] eqn:F; [|auto].
  apply findAttribute_name in F.
  repeat case_match; cbn [pointAttributes]; auto;
    intros Hin; apply addAttributeDetails_attr in Hin;
    (destruct Hin as [Hin | ->]; [left; exact Hin | right; congruence]).
Qed.

Lemma attrLoop_node (Ext : Externals) P ptGeo idx n : forall i st,
  exists ms, loopNode (attrLoop P ptGeo idx n i st) = withMessages ms (loopNode st)
             /\ Forall (fun d => severity d <> SOP_Error) ms.
Proof.
  induction n as [|n IH]; intros i st; cbn [attrLoop].
  - exists []. rewrite withMessages_nil. split; [reflexivity | constructor].
  - destruct (IH (i + 1) (attrLoopBody P ptGeo idx i st)) as (ms2 & -> & F2).
    destruct (attrLoopBody_node Ext P ptGeo idx i st) as (ms1 & -> & F1).
    exists (ms1 ++ ms2). rewrite withMessages_app. split; [reflexivity|].
    apply Forall_app; auto.
Qed.

Lemma attrLoop_attrs (Ext : Externals) P ptGeo idx n : forall i st d,
  In d (pointAttributes (attrLoop P ptGeo idx n i st)) ->
  In d (pointAttributes st) \/ getName (adAttribute d) <> point_list_index.
Proof.
  induction n as [|n IH]; intros i st d; cbn [attrLoop]; [auto|].
  intros Hin. apply IH in Hin. destruct Hin as [Hin | Hin]; [|auto].
  apply attrLoopBody_attrs in Hin. exact Hin.
Qed.

(** The loop returns the last instance that names the reserved
    attribute. *)
Lemma attrLoop_no_instance (Ext : Externals) P ptGeo idx n : forall i0 st,
  (forall j, i0 <= j < i0 + Z.of_nat n ->
             attribute (evalInst P j) <> point_list_index) ->
  closestPointIndexInstance (attrLoop P ptGeo idx n i0 st) = closestPointIndexInstance st.
Proof.
  induction n as [|n IH]; intros i0 st Hno; cbn [attrLoop]; [reflexivity|].
  rewrite IH by (intros j Hj; apply Hno; lia).
  rewrite attrLoopBody_instance.
  destruct (String.eqb _ _) eqn:E; [|reflexivity].
  apply String.eqb_eq in E. exfalso. apply (Hno i0); [lia | exact E].
Qed.

Lemma attrLoop_last_instance (Ext : Externals) P ptGeo idx n : forall i0 st i,
  i0 <= i < i0 + Z.of_nat n ->
  attribute (evalInst P i) = point_list_index ->
  (forall j, i < j < i0 + Z.of_nat n -> attribute (evalInst P j) <> point_list_index) ->
  closestPointIndexInstance (attrLoop P ptGeo idx n i0 st) = i.
Proof.
  induction n as [|n IH]; intros i0 st i Hi Hres Hlast; cbn [attrLoop]; [lia|].
  destruct (Z.eq_dec i i0) as [-> | Hne].
  - rewrite attrLoop_no_instance by (intros j Hj; apply Hlast; lia).
    rewrite attrLoopBody_instance, Hres. reflexivity.
  - apply IH; [lia | exact Hres | intros j Hj; apply Hlast; lia].
Qed.

(** ** The nearest-particle index grid *)

(** C8, as stated, fails: when two descriptors name the reserved
    attribute, with output names "a" and "b", the index grid is
    exported once, as "b"; nothing is exported for the descriptor whose
    output name is "a". *)
Lemma point_list_index_twice_counterexample :
  let ctx := mkContext Sample.indexTwice Sample.twoPoints None in
  let r := cookVDBSop (Ext:=Sample.tools) ctx Sample.freshNode in
  attribute (evalInst (parms ctx) 1) = point_list_index
  /\ attributeGridName (evalInst (parms ctx) 1) = "a"
  /\ map (fun p => baseName (getGrid p)) (gdp r) = ["id"; "b"]
  /\ ~ In "a" (map (fun p => baseName (getGrid p)) (gdp r)).
Proof.
  cbv zeta. split; [reflexivity|]. split; [reflexivity|].
  assert (H : map (fun p => baseName (getGrid p))
                (gdp (cookVDBSop (Ext:=Sample.tools)
                        (mkContext Sample.indexTwice Sample.twoPoints None)
                        Sample.freshNode)) = ["id"; "b"]) by (vm_compute; reflexivity).
  split; [exact H|]. rewrite H. intros [Hin | [Hin | []]]; discriminate.
Qed.

(** C8, amended.  In [convertWithAttributes], when the rasterization
    was not interrupted: no descriptor is built from an attribute named
    'point_list_index', so nothing is materialized from the attribute
    store for the reserved name; if some instance names the reserved
    attribute, the index grid produced by the rasterization is exported
    exactly once, after the transferred attribute grids, named with the
    output name of the last such instance, or 'point_list_index' when
    that name is empty; if no instance names it, the index grid is not
    exported. *)
Theorem point_list_index_export (Ext : Externals) (P : Parms) (outputGrid : FloatGrid)
    (paList : ParticleList) (ptGeo : GU_Detail) (self : Node) :
  let rasterCall :=
    Call_ParticlesToLevelSet true (minradius P) Rmax (rasterJob P paList) outputGrid in
  let raster := ParticlesToLevelSet true (minradius P) Rmax (rasterJob P paList) outputGrid in
  let closestPtnIdxGrid := attributeGrid raster (setVoxels (sdfVoxels raster) outputGrid) in
  let N := evalInt_attrList P in
  let r := snd (convertWithAttributes P outputGrid paList ptGeo self) in
  wasInterrupted (calls self ++ [rasterCall]) = false ->
  exists st,
    let details :=
      pointAttributes (constructGenericAtttributeList P [] ptGeo closestPtnIdxGrid st) in
    let transferred :=
      transferredPrims Ext details closestPtnIdxGrid (transform outputGrid) ptGeo in
    (forall d, In d details -> getName (adAttribute d) <> point_list_index)
    /\ (forall i,
          1 <= i <= N ->
          attribute (evalInst P i) = point_list_index ->
          (forall j, i < j <= N -> attribute (evalInst P j) <> point_list_index) ->
          gdp r = gdp self ++ transferred
                  ++ [mkPrim (Int32GridB
                                (setName
                                   (if (String.length (attributeGridName (evalInst P i)) =? 0)%nat
                                    then point_list_index
                                    else attributeGridName (evalInst P i))
                                   closestPtnIdxGrid))])
    /\ ((forall j, 1 <= j <= N -> attribute (evalInst P j) <> point_list_index) ->
        gdp r = gdp self ++ transferred).
Proof.
  intros rasterCall raster idx N r Hint.
  set (self1 := if ignoredParticles raster
                then addWarning (ignoredWarning raster) (logCall rasterCall self)
                else logCall rasterCall self).
  assert (Hc1 : calls self1 = calls self ++ [rasterCall])
    by (unfold self1; destruct (ignoredParticles raster); reflexivity).
  assert (Hg1 : gdp self1 = gdp self)
    by (unfold self1; destruct (ignoredParticles raster); reflexivity).
  exists self1. cbv zeta.
  set (st := constructGenericAtttributeList P [] ptGeo idx self1).
  assert (Hgst : gdp (loopNode st) = gdp self).
  { unfold st, constructGenericAtttributeList.
    destruct (attrLoop_node Ext P ptGeo idx (Z.to_nat (evalInt_attrList P)) 1
                (mkAttrLoop [] (-1) self1)) as (ms & -> & _). exact Hg1. }
  assert (Hr : r = if 0 <? N
                   then if -1 <? closestPointIndexInstance st
                        then createVdbPrimitive (Int32GridB idx)
                               (Some (if (String.length
                                            (attributeGridName
                                               (evalInst P (closestPointIndexInstance st)))
                                          =? 0)%nat
                                      then point_list_index
                                      else attributeGridName
                                             (evalInst P (closestPointIndexInstance st))))
                               (transferAttributes (pointAttributes st) idx
                                  (transform outputGrid) ptGeo (loopNode st))
                        else transferAttributes (pointAttributes st) idx
                               (transform outputGrid) ptGeo (loopNode st)
                   else self1).
  { unfold r, convertWithAttributes. fold rasterCall raster. fold self1.
    rewrite Hc1, Hint. fold N. fold idx. fold st.
    repeat case_match; reflexivity. }
  split; [|split].
  - intros d Hin. unfold st, constructGenericAtttributeList in Hin.
    apply attrLoop_attrs in Hin. destruct Hin as [[] | Hne]. exact Hne.
  - intros i Hi Hres Hlast.
    assert (Hinst : closestPointIndexInstance st = i).
    { unfold st, constructGenericAtttributeList. fold N.
      apply attrLoop_last_instance; [lia | exact Hres | intros j Hj; apply Hlast; lia]. }
    rewrite Hr, Hinst.
    replace (0 <? N) with true by (symmetry; apply Z.ltb_lt; lia).
    replace (-1 <? i) with true by (symmetry; apply Z.ltb_lt; lia).
    rewrite transferAttributes_eq. cbn [createVdbPrimitive gdp baseSetName].
    rewrite Hgst, <- app_assoc. reflexivity.
  - intros Hnone.
    assert (Hinst : closestPointIndexInstance st = -1).
    { unfold st, constructGenericAtttributeList. fold N.
      rewrite attrLoop_no_instance by (intros j Hj; apply Hnone; lia). reflexivity. }
    rewrite Hr, Hinst. cbn [Z.ltb Z.compare].
    destruct (0 <? N) eqn:EN.
    + rewrite transferAttributes_eq. cbn [gdp]. rewrite Hgst. reflexivity.
    + apply Z.ltb_ge in EN.
      assert (HN : Z.to_nat N = 0%nat) by lia.
      unfold st, constructGenericAtttributeList. fold N. rewrite HN. cbn.
      rewrite app_nil_r. exact Hg1.
Qed.

Lemma point_list_index_export_witness :
  let P := Sample.indexTwice in
  let og := Sample.emptyTarget in
  let pa := ParticleList_new Sample.twoPoints (real 1) (real 1) in
  let raster := ParticlesToLevelSet (Externals:=Sample.tools) true (minradius P) Rmax
                  (rasterJob P pa) og in
  let idx := attributeGrid raster (setVoxels (sdfVoxels raster) og) in
  wasInterrupted (Externals:=Sample.tools)
    (calls Sample.freshNode
     ++ [Call_ParticlesToLevelSet true (minradius P) Rmax (rasterJob P pa) og]) = false
  /\ last (gdp (snd (convertWithAttributes (Ext:=Sample.tools) P og pa Sample.twoPoints
                       Sample.freshNode)))
     = Some (mkPrim (Int32GridB (setName "b" idx))).
Proof.
  intros P og pa raster idx. split; [reflexivity|].
  destruct (point_list_index_export Sample.tools P og pa Sample.twoPoints Sample.freshNode
              eq_refl) as (st & _ & Hlast & _).
  assert (HN : evalInt_attrList P = 3) by reflexivity.
  assert (Hrange : 1 <= 3 <= evalInt_attrList P) by lia.
  assert (Hafter : forall j, 3 < j <= evalInt_attrList P ->
                             attribute (evalInst P j) <> point_list_index)
    by (intros j Hj; lia).
  rewrite (Hlast 3 Hrange eq_refl Hafter).
  rewrite app_assoc. apply last_snoc.
Defined.

(** ** The stages of the conversion *)

Lemma convertWithAttributes_grid (Ext : Externals) P og pa ptGeo self :
  fst (convertWithAttributes P og pa ptGeo self)
  = setVoxels (sdfVoxels (ParticlesToLevelSet true (minradius P) Rmax (rasterJob P pa) og)) og.
Proof. unfold convertWithAttributes. repeat case_match; reflexivity. Qed.

Lemma convertWithAttributes_grows (Ext : Externals) T P og pa ptGeo self :
  transform og = T ->
  grows T self (snd (convertWithAttributes P og pa ptGeo self)).
Proof.
  intros HT. unfold convertWithAttributes.
  set (raster := ParticlesToLevelSet true (minradius P) Rmax (rasterJob P pa) og).
  set (self1 := if ignoredParticles raster then _ else _).
  assert (H1 : grows T self self1).
  { unfold self1. eapply grows_trans; [apply grows_logCall|].
    apply grows_if; [apply grows_addWarning | apply grows_refl]. }
  set (idx := attributeGrid raster (setVoxels (sdfVoxels raster) og)).
  set (st := constructGenericAtttributeList P [] ptGeo idx self1).
  assert (H2 : grows T self (loopNode st)).
  { unfold st, constructGenericAtttributeList.
    destruct (attrLoop_node Ext P ptGeo idx (Z.to_nat (evalInt_attrList P)) 1
                (mkAttrLoop [] (-1) self1)) as (ms & -> & Fms).
    eapply grows_trans; [exact H1|]. apply grows_withMessages. exact Fms. }
  assert (H3 : grows T self
                 (transferAttributes (pointAttributes st) idx
                    (transform (setVoxels (sdfVoxels raster) og)) ptGeo (loopNode st))).
  { eapply grows_trans; [exact H2|]. rewrite transferAttributes_eq.
    split; [reflexivity|]. split; [|split]; cbn.
    - exists []. rewrite app_nil_r. auto.
    - eexists. split; [reflexivity|]. rewrite HT. apply transferredPrims_transform.
    - eexists. reflexivity. }
  destruct (wasInterrupted (calls self1)); cbn [snd]; [exact H1|].
  destruct (0 <? evalInt_attrList P); cbn [snd]; [|exact H1].
  destruct (-1 <? closestPointIndexInstance st); cbn [snd]; [|exact H3].
  eapply grows_trans; [exact H3|]. apply grows_createVdbPrimitive. exact HT.
Qed.

Lemma targetGrid_spec (Ext : Externals) T bg og0 self :
  grows T self (snd (targetGrid bg T og0 self))
  /\ transform (fst (targetGrid bg T og0 self)) = T
  /\ gridClass (fst (targetGrid bg T og0 self)) = GRID_LEVEL_SET
  /\ background (fst (targetGrid bg T og0 self))
     = match og0 with Some g => background g | None => bg end.
Proof.
  unfold targetGrid. destruct og0 as [g|]; cbn [fst snd FloatGrid_create].
  - split; [apply grows_refl | repeat split].
  - split; [apply grows_logCall | repeat split].
Qed.

Lemma primaryConversion_spec (Ext : Externals) ctx pa T bw og self :
  transform og = T ->
  grows T self (snd (primaryConversion ctx pa T bw og self))
  /\ transform (fst (fst (primaryConversion ctx pa T bw og self))) = T
  /\ gridClass (fst (fst (primaryConversion ctx pa T bw og self))) = gridClass og
  /\ background (fst (fst (primaryConversion ctx pa T bw og self))) = background og
  /\ (forall m, snd (fst (primaryConversion ctx pa T bw og self)) = Some m ->
                maskTransform m = T).
Proof.
  intros HT. unfold primaryConversion.
  destruct (conversion (parms ctx) =? 0).
  - set (self1 := if _ : bool then addWarning _ self else self).
    assert (H1 : grows T self self1)
      by (unfold self1; apply grows_if; [apply grows_addWarning | apply grows_refl]).
    destruct (0 <? evalInt_attrList (parms ctx)).
    + pose proof (convertWithAttributes_grows Ext T (parms ctx) og pa (ptGeoInput ctx)
                    self1 HT) as Hg.
      pose proof (convertWithAttributes_grid Ext (parms ctx) og pa (ptGeoInput ctx) self1)
        as Hf.
      destruct (convertWithAttributes _ _ _ _ _) as [g s]. cbn [fst snd] in *. subst g.
      split; [eapply grows_trans; eassumption|].
      repeat split; try assumption; try discriminate.
    + pose proof (convert_grows Ext T (parms ctx) og pa self1) as Hg.
      pose proof (convert_grid Ext (parms ctx) og pa self1) as Hf.
      destruct (convert _ _ _ _) as [g s]. cbn [fst snd] in *. subst g.
      split; [eapply grows_trans; eassumption|].
      repeat split; try assumption; try discriminate.
  - cbn [fst snd]. split; [|repeat split; try assumption].
    + eapply grows_trans; [apply grows_logCall|].
      eapply grows_trans; [apply grows_logCall|]. apply grows_logCall.
    + intros m [= <-]. reflexivity.
Qed.

(** The distance and fog primitives, in the order they are appended. *)
Lemma exportOutputGrid_gdp P og self :
  gdp (exportOutputGrid P og self)
  = gdp self
    ++ (if to_bool (builddistance P)
        then [mkPrim (FloatGridB (setName (distancename P) og))] else [])
    ++ (if to_bool (buildfog P)
        then [mkPrim (FloatGridB
                        (setName (fogname P)
                           (sdfToFogVolume
                              (if to_bool (builddistance P)
                               then setName (distancename P) og else og))))]
        else []).
Proof.
  unfold exportOutputGrid, deepCopy.
  destruct (to_bool (builddistance P)), (to_bool (buildfog P)); cbn;
    rewrite <- ?app_assoc, ?app_nil_r; reflexivity.
Qed.

Lemma exportOutputGrid_grows T P og self :
  transform og = T -> grows T self (exportOutputGrid P og self).
Proof.
  intros HT. split; [|split; [|split]].
  - unfold exportOutputGrid.
    destruct (to_bool (builddistance P)), (to_bool (buildfog P)); reflexivity.
  - exists []. rewrite app_nil_r. split; [|constructor].
    unfold exportOutputGrid.
    destruct (to_bool (builddistance P)), (to_bool (buildfog P)); reflexivity.
  - rewrite exportOutputGrid_gdp. eexists. split; [reflexivity|].
    destruct (to_bool (builddistance P)), (to_bool (buildfog P)); cbn;
      repeat constructor; cbn; exact HT.
  - unfold exportOutputGrid.
    destruct (to_bool (builddistance P)), (to_bool (buildfog P)); cbn;
      try (exists []; rewrite app_nil_r; reflexivity);
      rewrite <- ?app_assoc; eexists; reflexivity.
Qed.

(** ** The bounding mask *)

Lemma jobParticles_rasterJob P pa : jobParticles (rasterJob P pa) = pa.
Proof. unfold rasterJob. repeat case_match; reflexivity. Qed.

Lemma clampOffset_le_1 b : (clampOffset b <= 1)%Qc.
Proof.
  unfold clampOffset, std_min.
  destruct (Real_ltb (real 1) (std_max b (real 0))) eqn:E.
  - apply Qcle_refl.
  - apply Real_ltb_ge in E. exact E.
Qed.

Lemma of_int_nonneg z : 0 <= z -> (0 <= of_int z)%Qc.
Proof.
  intros Hz. unfold of_int, Qcle. cbn [this Q2Qc].
  rewrite inject_Z_Qred. change (Qred 0) with (0 # 1)%Q. unfold Qle. cbn. lia.
Qed.

Lemma to_int_nonneg x : (0 <= x)%Qc -> to_int x = Qfloor x.
Proof.
  intros Hx. unfold to_int.
  replace (Real_ltb x (real 0)) with false; [reflexivity|].
  symmetry. apply Real_ltb_ge. exact Hx.
Qed.

Lemma decrease_nonneg d b :
  0 <= d -> (0 <= of_int (Z.min d 1) * (1 - clampOffset b))%Qc.
Proof.
  intros Hd.
  assert (H1 : (0 <= of_int (Z.min d 1))%Qc) by (apply of_int_nonneg; lia).
  assert (H2 : (0 <= 1 - clampOffset b)%Qc).
  { unfold Qcminus. apply (proj1 (Qcle_minus_iff (clampOffset b) 1)).
    apply clampOffset_le_1. }
  rewrite <- (Qcmult_0_l (1 - clampOffset b)).
  apply Qcmult_le_compat_r; assumption.
Qed.

Lemma offset_order (u o : Real) :
  (0 < o)%Qc -> (o <= 1)%Qc ->
  (1 < 1 + o)%Qc /\ (1 + o <= real 2)%Qc /\ (0 <= 1 - o)%Qc /\ (1 - o < 1)%Qc
  /\ ((u < o)%Qc -> (1 + u < 1 + o)%Qc /\ (1 - o <= 1 - u)%Qc)
  /\ ((o < 1)%Qc -> (1 + o < real 2)%Qc).
Proof.
  destruct u as [u ?], o as [o ?]. unfold real. real_to_Q. cbn [this].
  intros H0 H1. repeat split; try lra; intros; lra.
Qed.

Lemma ceil_two (z : Real) : (1 < z)%Qc -> (z <= real 2)%Qc -> ceil z = 2.
Proof.
  unfold ceil, real. destruct z as [z ?]. real_to_Q. cbn [this]. intros H1 H2.
  pose proof (Qle_ceiling z) as A. pose proof (Qceiling_lt z) as B.
  assert (C1 : 1 < Qceiling z).
  { rewrite Zlt_Qlt. change (inject_Z 1) with 1%Q. lra. }
  assert (C2 : Qceiling z - 1 < 2).
  { rewrite Zlt_Qlt. change (inject_Z 2) with (2 # 1)%Q. lra. }
  lia.
Qed.

Lemma floor_zero (z : Real) : (0 <= z)%Qc -> (z < 1)%Qc -> Qfloor z = 0.
Proof.
  destruct z as [z ?]. real_to_Q. cbn [this]. intros H1 H2.
  pose proof (Qfloor_le z) as A. pose proof (Qlt_floor z) as B.
  assert (C1 : Qfloor z < 1).
  { rewrite Zlt_Qlt. change (inject_Z 1) with 1%Q. lra. }
  assert (C2 : 0 < Qfloor z + 1).
  { rewrite Zlt_Qlt. change (inject_Z 0) with 0%Q. lra. }
  lia.
Qed.

Lemma of_int_0 : of_int 0 = 0%Qc.
Proof. reflexivity. Qed.

Lemma of_int_1 : of_int 1 = 1%Qc.
Proof. reflexivity. Qed.

(** The sum [1.0 + offset] in [double] is above one exactly when the
    offset is above 2^-53; rounded once more it stays between the
    successor of one and two. *)
Lemma increase_unit (o : Real) :
  (double_roundoff < o)%Qc -> (o <= 1)%Qc ->
  ceil (to_double (1 * to_double (1 + o))) = 2.
Proof.
  intros Hu Ho. rewrite Qcmult_1_l.
  assert (Hpos : (0 < o)%Qc).
  { eapply Qclt_trans; [|exact Hu]. exact (proj1 (proj2 double_constants)). }
  destruct (offset_order double_roundoff o Hpos Ho) as (_ & Hle2 & _ & _ & Hu' & Hlt2).
  set (succ1 := Q2Qc (1 + pow2 (-52))).
  assert (Hsucc : to_double succ1 = succ1) by (apply Qc_is_canon; vm_compute; reflexivity).
  assert (Htwo : to_double (real 2) = real 2) by (apply Qc_is_canon; vm_compute; reflexivity).
  assert (H2 : (0 <= real 2)%Qc) by (vm_compute; discriminate).
  assert (Hy1 : (succ1 <= to_double (1 + o))%Qc).
  { destruct (Qclt_le_dec o 1) as [Hlt|Hge].
    - apply Q2Qc_le.
      apply (round_binary_above_one 53 (-1022) (1 + o)%Qc eq_refl); [discriminate | |].
      + destruct (Hu' Hu) as [H _]. revert H. unfold double_roundoff.
        real_to_Q. exact (fun H => H).
      + specialize (Hlt2 Hlt). revert Hlt2. unfold real. real_to_Q. exact (fun H => H).
    - assert (E : o = 1%Qc) by (apply Qcle_antisym; assumption).
      rewrite E. change (1 + 1)%Qc with (real 2). rewrite Htwo. vm_compute. discriminate. }
  assert (Hy2 : (to_double (1 + o) <= real 2)%Qc).
  { rewrite <- Htwo. apply to_double_monotone; assumption. }
  apply ceil_two.
  - apply Qclt_le_trans with (y := succ1); [vm_compute; reflexivity|].
    rewrite <- Hsucc. apply to_double_monotone; [|exact Hy1].
    eapply Qcle_trans; [|exact Hy1]. vm_compute. discriminate.
  - rewrite <- Htwo. apply to_double_monotone; assumption.
Qed.

Lemma decrease_unit (o : Real) :
  (double_roundoff < o)%Qc -> (o <= 1)%Qc ->
  to_int (to_double (1 * to_double (1 - o))) = 0.
Proof.
  intros Hu Ho. rewrite Qcmult_1_l.
  assert (Hpos : (0 < o)%Qc).
  { eapply Qclt_trans; [|exact Hu]. exact (proj1 (proj2 double_constants)). }
  destruct (offset_order double_roundoff o Hpos Ho) as (_ & _ & Hge0 & _ & Hu' & _).
  destruct (Hu' Hu) as [_ Hle].
  set (pred1 := (1 - double_roundoff)%Qc) in *.
  assert (Hpred : to_double pred1 = pred1) by (apply Qc_is_canon; vm_compute; reflexivity).
  assert (Hp0 : (0 <= pred1)%Qc) by (vm_compute; discriminate).
  assert (Hp1 : (pred1 < 1)%Qc) by (vm_compute; reflexivity).
  assert (Hy : (to_double (1 - o) <= pred1)%Qc).
  { rewrite <- Hpred. apply to_double_monotone; assumption. }
  assert (Hz : (to_double (to_double (1 - o)) <= pred1)%Qc).
  { rewrite <- Hpred. apply to_double_monotone; assumption. }
  assert (Hz0 : (0 <= to_double (to_double (1 - o)))%Qc).
  { apply to_double_nonneg. apply to_double_nonneg. exact Hge0. }
  rewrite (to_int_nonneg _ Hz0). apply floor_zero; [exact Hz0|].
  eapply Qcle_lt_trans; eassumption.
Qed.

(** The dilation counts of the two mask passes against the formulas
    [ceil(dilation * (1 + offset))] and [floor(dilation * (1 - offset))]. *)
Lemma mask_counts (d : Z) (o : Real) :
  0 <= d <= 1 -> (0 < o)%Qc -> (o <= 1)%Qc -> (d = 1 -> (double_roundoff < o)%Qc) ->
  ceil (to_double (of_int (Z.min d 1) * to_double (1 + o))) = ceil (of_int d * (1 + o))%Qc
  /\ to_int (to_double (of_int (Z.min d 1) * to_double (1 - o)))
     = Qfloor (of_int d * (1 - o))%Qc.
Proof.
  intros Hd Hpos Ho Hu. replace (Z.min d 1) with d by lia.
  destruct (offset_order 0%Qc o Hpos Ho) as (H1 & H2 & H3 & H4 & _).
  assert (Hcases : d = 0 \/ d = 1) by lia. destruct Hcases as [-> | ->].
  - rewrite of_int_0, !Qcmult_0_l, to_double_zero. split; reflexivity.
  - rewrite of_int_1. rewrite (increase_unit o (Hu eq_refl) Ho).
    rewrite (decrease_unit o (Hu eq_refl) Ho). rewrite !Qcmult_1_l.
    split; symmetry; [apply ceil_two | apply floor_zero]; assumption.
Qed.

(** Below 2^-53 the sum [1.0 + offset] is one in [double]: with a bounding
    limit of 2^-54 and the dilation 1 the outer pass dilates by one
    voxel, not by [ceil(1 + offset) = 2]. *)
Example increase_tiny_offset :
  let o := clampOffset (Q2Qc (pow2 (-54))) in
  (0 < o)%Qc
  /\ ceil (to_double (of_int (Z.min 1 1) * to_double (1 + o))) = 1
  /\ ceil (of_int 1 * (1 + o))%Qc = 2.
Proof. cbv zeta. split; [|split]; vm_compute; reflexivity. Qed.

(** The calls of a mask build whose clamped offset is positive. *)
Lemma buildMaskVolume_calls_spheres (Ext : Externals) ctx pa bg T bw pm self :
  Real_ltb (real 0) (clampOffset (boundinglimit (parms ctx))) = true ->
  calls (buildMaskVolume ctx pa bg T true bw pm self)
  = calls self
    ++ [Call_FloatGrid_create bg; Call_FloatGrid_create bg;
        Call_ParticlesToLevelSet false (minradius (parms ctx)) Rmax
          (rasterJob (parms ctx)
             (setRadiusMult
                (radiusMult pa * (1 + clampOffset (boundinglimit (parms ctx))))%Qc pa))
          (maskTarget bg T);
        Call_ParticlesToLevelSet false (minradius (parms ctx)) Rmax
          (rasterJob (parms ctx)
             (setRadiusMult
                (radiusMult pa * (1 - clampOffset (boundinglimit (parms ctx))))%Qc
                (setRadiusMult
                   (radiusMult pa * (1 + clampOffset (boundinglimit (parms ctx))))%Qc pa)))
          (maskTarget bg T);
        Call_csgDifference; Call_sdfToFogVolume].
Proof.
  intros Hpos. unfold buildMaskVolume. cbn [FloatGrid_create]. rewrite Hpos.
  fold (maskTarget bg T).
  set (pa1 := setRadiusMult _ pa).
  set (s0 := logCall _ (logCall _ self)).
  pose proof (convert_calls Ext (parms ctx) (maskTarget bg T) pa1 s0) as H1.
  destruct (convert (parms ctx) (maskTarget bg T) pa1 s0) as [g1 s1]. cbn [snd] in H1.
  set (pa2 := setRadiusMult _ pa1).
  pose proof (convert_calls Ext (parms ctx) (maskTarget bg T) pa2 s1) as H2.
  destruct (convert (parms ctx) (maskTarget bg T) pa2 s1) as [g2 s2]. cbn [snd] in H2.
  cbn [createVdbPrimitive logCall calls]. rewrite H2, H1. unfold s0. cbn [logCall calls].
  rewrite <- !app_assoc. reflexivity.
Qed.

Lemma buildMaskVolume_calls_topology (Ext : Externals) ctx pa bg T bw pm self :
  Real_ltb (real 0) (clampOffset (boundinglimit (parms ctx))) = true ->
  let P := parms ctx in
  let dx := of_int (Z.min (dilation P) 1) in
  calls (buildMaskVolume ctx pa bg T false bw pm self)
  = calls self
    ++ [Call_FloatGrid_create bg; Call_FloatGrid_create bg]
    ++ match pm with
       | Some _ => []
       | None => [Call_GUvdbCreatePointMaskGrid T]
       end
    ++ [Call_topologyToLevelSet bw (closing P)
          (ceil (to_double (dx * to_double (1 + clampOffset (boundinglimit P)))))
          (smoothing P);
        Call_topologyToLevelSet bw (closing P)
          (to_int (to_double (dx * to_double (1 - clampOffset (boundinglimit P)))))
          (smoothing P);
        Call_csgDifference; Call_sdfToFogVolume].
Proof.
  intros Hpos P dx. unfold buildMaskVolume. cbn [FloatGrid_create]. rewrite Hpos.
  destruct pm as [m|]; cbn [createVdbPrimitive logCall calls];
    rewrite <- !app_assoc; reflexivity.
Qed.

(** C1, as stated, fails on the topology path: with a dilation of 5 and
    a bounding limit of 1/2 the two mask passes dilate by 2 and 0
    voxels (after the primary pass, which dilates by 5), not by
    [ceil(5 * 1.5) = 8] and [floor(5 * 0.5) = 2]. *)
Lemma mask_dilation_counterexample :
  let ctx := Sample.topologyMask in
  let P := parms ctx in
  let offset := clampOffset (boundinglimit P) in
  let r := cookVDBSop (Ext:=Sample.tools) ctx Sample.freshNode in
  (0 < offset)%Qc /\ (offset <= 1)%Qc
  /\ conversion P <> 0 /\ dilation P = 5
  /\ topologyDilations (calls r) = [5; 2; 0]
  /\ ceil (of_int (dilation P) * (1 + offset))%Qc = 8
  /\ Qfloor (of_int (dilation P) * (1 - offset))%Qc = 2.
Proof.
  cbv zeta. split; [reflexivity|]. split; [vm_compute; discriminate|].
  split; [vm_compute; discriminate|]. split; [reflexivity|].
  split; [vm_compute; reflexivity|]. split; vm_compute; reflexivity.
Qed.

(** C1, amended.  In every bounding-mask build with clamped offset in
    (0,1]: on the sphere path the calls are exactly the creation of the
    two grids, two rasterizations, the first through the adapter with
    its radius multiplier set to [radiusScale * (1 + offset)], the
    second with [radiusScale * (1 - offset)], and the difference and fog
    conversion; on the topology path, when the primary conversion's
    dilation parameter is 0, or is 1 with an offset above 2^-53 (the
    least offset that [1.0 + offset] keeps in [double]), the calls are
    exactly the creation of the two grids, the point mask unless the
    primary conversion left one, two topology builds with dilation
    counts [ceil(dilation * (1 + offset))] and
    [floor(dilation * (1 - offset))], and the difference and fog
    conversion. *)
Theorem mask_build_sizes (Ext : Externals) (ctx : OP_Context) (paList : ParticleList)
    (background : Real) (T : Transform) (bandWidth : Z) (pointMaskGrid : option MaskGrid)
    (self : Node) :
  let P := parms ctx in
  let offset := clampOffset (boundinglimit P) in
  let radiusScale := radiusMult paList in
  let outer := setRadiusMult (radiusScale * (1 + offset))%Qc paList in
  let inner := setRadiusMult (radiusScale * (1 - offset))%Qc outer in
  (0 < offset)%Qc ->
  (offset <= 1)%Qc
  /\ radiusMult (jobParticles (rasterJob P outer)) = (radiusScale * (1 + offset))%Qc
  /\ radiusMult (jobParticles (rasterJob P inner)) = (radiusScale * (1 - offset))%Qc
  /\ calls (buildMaskVolume ctx paList background T true bandWidth pointMaskGrid self)
     = calls self
       ++ [Call_FloatGrid_create background; Call_FloatGrid_create background;
           Call_ParticlesToLevelSet false (minradius P) Rmax (rasterJob P outer)
             (maskTarget background T);
           Call_ParticlesToLevelSet false (minradius P) Rmax (rasterJob P inner)
             (maskTarget background T);
           Call_csgDifference; Call_sdfToFogVolume]
  /\ (0 <= dilation P <= 1 ->
      (dilation P = 1 -> (double_roundoff < offset)%Qc) ->
      calls (buildMaskVolume ctx paList background T false bandWidth pointMaskGrid self)
      = calls self
        ++ [Call_FloatGrid_create background; Call_FloatGrid_create background]
        ++ match pointMaskGrid with
           | Some _ => []
           | None => [Call_GUvdbCreatePointMaskGrid T]
           end
        ++ [Call_topologyToLevelSet bandWidth (closing P)
              (ceil (of_int (dilation P) * (1 + offset))%Qc) (smoothing P);
            Call_topologyToLevelSet bandWidth (closing P)
              (Qfloor (of_int (dilation P) * (1 - offset))%Qc) (smoothing P);
            Call_csgDifference; Call_sdfToFogVolume]).
Proof.
  intros P offset radiusScale outer inner Hpos.
  assert (Hltb : Real_ltb (real 0) (clampOffset (boundinglimit (parms ctx))) = true)
    by (apply Real_ltb_lt; exact Hpos).
  assert (Hle : (offset <= 1)%Qc) by apply clampOffset_le_1.
  split; [exact Hle|].
  split; [rewrite jobParticles_rasterJob; reflexivity|].
  split; [rewrite jobParticles_rasterJob; reflexivity|].
  split; [apply buildMaskVolume_calls_spheres; exact Hltb|].
  intros Hd Hu.
  rewrite (buildMaskVolume_calls_topology Ext ctx paList background T bandWidth
             pointMaskGrid self Hltb). cbv zeta.
  destruct (mask_counts (dilation (parms ctx)) offset Hd Hpos Hle Hu) as [E1 E2].
  unfold offset, P in E1, E2. rewrite E1, E2. reflexivity.
Qed.

Lemma mask_build_sizes_witness :
  let ctx := Sample.topologyMaskUnit in
  let pa := ParticleList_new Sample.twoPoints (real 1) (real 1) in
  let T := createLinearTransform (real (1 # 10)) in
  (0 < clampOffset (boundinglimit (parms ctx)))%Qc
  /\ 0 <= dilation (parms ctx) <= 1
  /\ (double_roundoff < clampOffset (boundinglimit (parms ctx)))%Qc
  /\ rasterRadiusMults
       (calls (buildMaskVolume (Ext:=Sample.tools) ctx pa (real (3 # 10)) T true 3 None
                 Sample.freshNode))
     = [real (3 # 2); real (1 # 2)]
  /\ topologyDilations
       (calls (buildMaskVolume (Ext:=Sample.tools) ctx pa (real (3 # 10)) T false 3 None
                 Sample.freshNode))
     = [2; 0].
Proof.
  intros ctx pa T. split; [reflexivity|].
  assert (Hd : 0 <= dilation (parms ctx) <= 1) by (vm_compute; split; discriminate).
  split; [exact Hd|].
  assert (Hu : (double_roundoff < clampOffset (boundinglimit (parms ctx)))%Qc)
    by (vm_compute; reflexivity).
  split; [exact Hu|].
  destruct (mask_build_sizes Sample.tools ctx pa (real (3 # 10)) T 3 None Sample.freshNode
              eq_refl) as (_ & _ & _ & Hs & Htop).
  split.
  - rewrite Hs. cbn [app calls Sample.freshNode rasterRadiusMults omap list_omap].
    rewrite !jobParticles_rasterJob. cbn [radiusMult setRadiusMult mRadiusMult].
    apply (f_equal2 cons); [apply Qc_is_canon; reflexivity|].
    apply (f_equal2 cons); [apply Qc_is_canon; reflexivity | reflexivity].
  - rewrite (Htop Hd (fun _ => Hu)). vm_compute. reflexivity.
Defined.

Lemma empty_difference_fog bg T :
  sdfToFogVolume (csgDifference (maskTarget bg T) (maskTarget bg T)) = emptyMask T "".
Proof.
  unfold sdfToFogVolume, csgDifference, maskTarget, emptyMask. cbn.
  rewrite merge_empty, omap_empty. reflexivity.
Qed.

(** A mask build whose clamped offset is not positive rasterizes
    nothing and exports an empty fog volume. *)
Lemma buildMaskVolume_zero_offset (Ext : Externals) ctx pa bg T doSphere bw pm self :
  Real_ltb (real 0) (clampOffset (boundinglimit (parms ctx))) = false ->
  buildMaskVolume ctx pa bg T doSphere bw pm self
  = createVdbPrimitive (FloatGridB (emptyMask T (maskname (parms ctx)))) None
      (logCall Call_sdfToFogVolume
         (logCall Call_csgDifference
            (logCall (Call_FloatGrid_create bg)
               (logCall (Call_FloatGrid_create bg) self)))).
Proof.
  intros Hzero. unfold buildMaskVolume. cbn [FloatGrid_create]. rewrite Hzero.
  fold (maskTarget bg T). rewrite empty_difference_fog. reflexivity.
Qed.

Lemma buildMaskVolume_grows (Ext : Externals) ctx pa bg T doSphere bw pm self :
  (forall m, pm = Some m -> maskTransform m = T) ->
  grows T self (buildMaskVolume ctx pa bg T doSphere bw pm self).
Proof.
  intros Hpm.
  assert (Hfinal : forall (g h : FloatGrid) s, transform g = T -> grows T self s ->
            grows T self
              (createVdbPrimitive
                 (FloatGridB (setName (maskname (parms ctx))
                                (sdfToFogVolume (csgDifference g h)))) None
                 (logCall Call_sdfToFogVolume (logCall Call_csgDifference s)))).
  { intros g h s Hg Hs. eapply grows_trans; [exact Hs|].
    eapply grows_trans; [apply grows_logCall|].
    eapply grows_trans; [apply grows_logCall|].
    apply grows_createVdbPrimitive. exact Hg. }
  assert (H0 : grows T self (logCall (Call_FloatGrid_create bg)
                               (logCall (Call_FloatGrid_create bg) self))).
  { eapply grows_trans; apply grows_logCall. }
  unfold buildMaskVolume. cbn [FloatGrid_create]. fold (maskTarget bg T).
  destruct (Real_ltb (real 0) (clampOffset (boundinglimit (parms ctx)))).
  - destruct doSphere.
    + set (pa1 := setRadiusMult _ pa).
      set (s0 := logCall _ (logCall _ self)) in *.
      pose proof (convert_grows Ext T (parms ctx) (maskTarget bg T) pa1 s0) as G1.
      pose proof (convert_grid Ext (parms ctx) (maskTarget bg T) pa1 s0) as F1.
      destruct (convert (parms ctx) (maskTarget bg T) pa1 s0) as [g1 s1].
      cbn [fst snd] in G1, F1.
      set (pa2 := setRadiusMult _ pa1).
      pose proof (convert_grows Ext T (parms ctx) (maskTarget bg T) pa2 s1) as G2.
      destruct (convert (parms ctx) (maskTarget bg T) pa2 s1) as [g2 s2].
      cbn [snd] in G2.
      apply Hfinal; [subst g1; reflexivity|].
      eapply grows_trans; [exact H0|]. eapply grows_trans; eassumption.
    + destruct pm as [m|].
      * apply Hfinal; [cbn; apply Hpm; reflexivity|].
        eapply grows_trans; [exact H0|].
        eapply grows_trans; apply grows_logCall.
      * apply Hfinal; [reflexivity|].
        eapply grows_trans; [exact H0|].
        eapply grows_trans; [apply grows_logCall|].
        eapply grows_trans; apply grows_logCall.
  - apply Hfinal; [reflexivity | exact H0].
Qed.

(** ** The conversion as a whole *)

Lemma performConversion_interrupted (Ext : Externals) ctx pa bg T og0 self :
  wasInterrupted (calls self) = true ->
  performConversion ctx pa bg T og0 self = self.
Proof. intros H. unfold performConversion. rewrite H. reflexivity. Qed.

Lemma performConversion_unfold (Ext : Externals) ctx pa bg T og0 self :
  wasInterrupted (calls self) = false ->
  performConversion ctx pa bg T og0 self
  = let tg := targetGrid bg T og0 self in
    let bandWidth := ceil (to_float (bg / mVoxelSize (snd tg))) in
    let pc := primaryConversion ctx pa T bandWidth (fst tg) (snd tg) in
    exportOutputGrid (parms ctx) (fst (fst pc))
      (if to_bool (buildmask (parms ctx))
       then buildMaskVolume ctx pa bg T (conversion (parms ctx) =? 0)
              bandWidth (snd (fst pc)) (snd pc)
       else snd pc).
Proof.
  intros H. unfold performConversion. rewrite H. cbv zeta.
  destruct (targetGrid bg T og0 self) as [g s]. cbn [fst snd].
  destruct (primaryConversion ctx pa T _ g s) as [[og pm] s']. reflexivity.
Qed.

Lemma performConversion_grows (Ext : Externals) ctx pa bg T og0 self :
  grows T self (performConversion ctx pa bg T og0 self).
Proof.
  destruct (wasInterrupted (calls self)) eqn:E.
  - rewrite performConversion_interrupted by exact E. apply grows_refl.
  - rewrite performConversion_unfold by exact E. cbv zeta.
    destruct (targetGrid_spec Ext T bg og0 self) as (G1 & T1 & _ & _).
    destruct (primaryConversion_spec Ext ctx pa T
                (ceil (to_float (bg / mVoxelSize (snd (targetGrid bg T og0 self))))) _
                (snd (targetGrid bg T og0 self)) T1)
      as (G2 & T2 & _ & _ & Hpm).
    eapply grows_trans; [exact G1|]. eapply grows_trans; [exact G2|].
    eapply grows_trans; [|apply exportOutputGrid_grows; exact T2].
    apply grows_if; [apply buildMaskVolume_grows; exact Hpm | apply grows_refl].
Qed.

(** ** The cook after its guards *)

Lemma cook_guards_fail (Ext : Externals) ctx self :
  passesGuards (parms ctx) = false ->
  gdp (cookVDBSop ctx self) = [] /\ calls (cookVDBSop ctx self) = [].
Proof.
  unfold passesGuards, cookVDBSop. cbn [beginCook set_mVoxelSize mVoxelSize].
  destruct (Real_ltb (to_float (voxelsize (parms ctx))) minVoxelSize); [split; reflexivity|].
  cbn [negb andb].
  destruct (to_bool (buildfog (parms ctx))), (to_bool (builddistance (parms ctx))),
    (0 <? evalInt_attrList (parms ctx)); cbn; try discriminate; split; reflexivity.
Qed.

Lemma cook_guards_pass (Ext : Externals) ctx self :
  passesGuards (parms ctx) = true ->
  cookVDBSop ctx self
  = let P := parms ctx in
    let paList := ParticleList_new (ptGeoInput ctx) (particlescale P) (velocityscale P) in
    match refGeoInput ctx with
    | Some refGeo =>
        match head (matchGroup refGeo (referencevdb P)) with
        | Some refPrim =>
            let setup := useReference P refPrim (uiBackground P) (cookStart P self) in
            performConversion ctx paList (setupBackground setup) (setupTransform setup)
              (setupOutputGrid setup) (setupNode setup)
        | None => addError [Str "Second input has no VDB primitives."] (cookStart P self)
        end
    | None =>
        performConversion ctx paList (uiBackground P)
          (createLinearTransform (to_float (voxelsize P))) None (cookStart P self)
    end.
Proof.
  unfold passesGuards, cookVDBSop. cbn [beginCook set_mVoxelSize mVoxelSize].
  destruct (Real_ltb (to_float (voxelsize (parms ctx))) minVoxelSize); [discriminate|].
  cbn [negb andb]. intros Hsel.
  replace (negb (to_bool (buildfog (parms ctx)))
           && negb (to_bool (builddistance (parms ctx)))
           && negb (0 <? evalInt_attrList (parms ctx))) with false.
  - reflexivity.
  - destruct (to_bool (buildfog (parms ctx))), (to_bool (builddistance (parms ctx))),
      (0 <? evalInt_attrList (parms ctx)); cbn in *; congruence.
Qed.

(** What the reference block leaves behind. *)
Lemma useReference_transform P refPrim bg self :
  setupTransform (useReference P refPrim bg self) = baseTransform (getGrid refPrim).
Proof. unfold useReference. repeat case_match; reflexivity. Qed.

Lemma useReference_gdp P refPrim bg self :
  gdp (setupNode (useReference P refPrim bg self)) = gdp self.
Proof. unfold useReference. repeat case_match; simplify_eq; reflexivity. Qed.

Lemma useReference_mVoxelSize P refPrim bg self :
  mVoxelSize (setupNode (useReference P refPrim bg self))
  = to_float (vec_x (voxelSize (baseTransform (getGrid refPrim)))).
Proof. unfold useReference. repeat case_match; simplify_eq; reflexivity. Qed.

Lemma useReference_float_level_set P refPrim bg self g :
  getGrid refPrim = FloatGridB g ->
  gridClass g = GRID_LEVEL_SET ->
  setupBackground (useReference P refPrim bg self) = background g
  /\ In (mkDiagnostic SOP_Message matchingNote)
        (messages (setupNode (useReference P refPrim bg self)))
  /\ (setupOutputGrid (useReference P refPrim bg self) = None
      \/ setupOutputGrid (useReference P refPrim bg self) = Some g).
Proof.
  intros Hg Hc. unfold useReference. rewrite Hg. cbn [getGridClass isFloatGrid gridPtrCast_Float].
  rewrite bool_decide_eq_true_2 by exact Hc. cbn [andb].
  destruct (negb (merge_ P =? 0)); cbn; repeat split; auto;
    apply in_or_app; right; left; reflexivity.
Qed.

(** The reference block when a merge is requested into a grid that is
    not a float level set. *)
Lemma useReference_refused P refPrim bg self :
  merge_ P <> 0 ->
  bool_decide (getGridClass (getGrid refPrim) = GRID_LEVEL_SET)
  && isFloatGrid (getGrid refPrim) = false ->
  useReference P refPrim bg self
  = mkSetup (baseTransform (getGrid refPrim)) bg None
      (mkNode (to_float (vec_x (voxelSize (baseTransform (getGrid refPrim)))))
         (messages self
          ++ [mkDiagnostic SOP_Warning
                (if bool_decide (getGridClass (getGrid refPrim) = GRID_LEVEL_SET)
                 then notFloatWarning else notLevelSetWarning)])
         (gdp self)
         (calls self
          ++ (if bool_decide (getGridClass (getGrid refPrim) = GRID_LEVEL_SET)
              then [Call_deepCopyGrid] else []))).
Proof.
  intros Hm Hnot. unfold useReference. rewrite Hnot.
  replace (negb (merge_ P =? 0)) with true
    by (symmetry; apply negb_true_iff, Z.eqb_neq; exact Hm).
  destruct (bool_decide (getGridClass (getGrid refPrim) = GRID_LEVEL_SET)) eqn:Els.
  - cbn [andb] in Hnot.
    destruct (getGrid refPrim); try discriminate; reflexivity.
  - cbn. rewrite app_nil_r. reflexivity.
Qed.

(** An uninterrupted conversion ends by exporting a level-set grid on
    the cook's transform whose background is that of the grid it
    started from. *)
Lemma performConversion_result (Ext : Externals) ctx pa bg T og0 self :
  wasInterrupted (calls self) = false ->
  exists og pm s,
    performConversion ctx pa bg T og0 self
    = exportOutputGrid (parms ctx) og
        (if to_bool (buildmask (parms ctx))
         then buildMaskVolume ctx pa bg T (conversion (parms ctx) =? 0)
                (ceil (to_float (bg / mVoxelSize (snd (targetGrid bg T og0 self))))) pm s
         else s)
    /\ transform og = T
    /\ gridClass og = GRID_LEVEL_SET
    /\ background og = match og0 with Some g => background g | None => bg end
    /\ grows T (snd (targetGrid bg T og0 self)) s
    /\ (forall m, pm = Some m -> maskTransform m = T).
Proof.
  intros Hint. rewrite performConversion_unfold by exact Hint. cbv zeta.
  destruct (targetGrid_spec Ext T bg og0 self) as (_ & T1 & C1 & B1).
  destruct (primaryConversion_spec Ext ctx pa T
              (ceil (to_float (bg / mVoxelSize (snd (targetGrid bg T og0 self))))) _
              (snd (targetGrid bg T og0 self)) T1)
    as (G2 & T2 & C2 & B2 & Hpm).
  eexists _, _, _. split; [reflexivity|].
  split; [exact T2|]. split; [congruence|]. split; [congruence|].
  split; [exact G2 | exact Hpm].
Qed.

Lemma grows_In_messages T s s' d : grows T s s' -> In d (messages s) -> In d (messages s').
Proof.
  intros (_ & (ms & -> & _) & _) Hin. apply in_or_app. left. exact Hin.
Qed.

Lemma grows_gdp_from_empty T s s' p :
  grows T s s' -> gdp s = [] -> In p (gdp s') -> baseTransform (getGrid p) = T.
Proof.
  intros (_ & _ & (ps & -> & Fps) & _) -> Hin. cbn in Hin.
  rewrite Forall_forall in Fps. apply Fps. apply list_elem_of_In. exact Hin.
Qed.

Lemma grows_no_error T s s' :
  grows T s s' ->
  (forall d, In d (messages s) -> severity d <> SOP_Error) ->
  forall d, In d (messages s') -> severity d <> SOP_Error.
Proof.
  intros (_ & (ms & -> & Fms) & _) Hs d Hin.
  apply in_app_or in Hin. destruct Hin as [Hin | Hin]; [apply Hs; exact Hin|].
  rewrite Forall_forall in Fms. apply Fms. apply list_elem_of_In. exact Hin.
Qed.

(** ** The reference grid *)

(** C3.  Whenever a reference VDB primitive is supplied, every field
    the cook exports lives on the reference's transform; and whenever
    the cook exports anything, what it exports is the output grid, a
    level set on the reference's transform, with the node's voxel size
    taken from that transform (the first component of its voxel size,
    narrowed to single precision); if moreover the reference is a float
    level set, the background of the output grid is the reference's
    background, whatever the half-band parameters say, and the note
    that the UI half-band parameter is ignored is among the
    diagnostics.  The note is recorded as soon as the cook has passed
    its two guards, also when it is interrupted before exporting. *)
Theorem reference_transform_and_band (Ext : Externals) (ctx : OP_Context) (self : Node)
    (refGeo : GU_Detail) (refPrim : GU_PrimVDB) :
  refGeoInput ctx = Some refGeo ->
  head (matchGroup refGeo (referencevdb (parms ctx))) = Some refPrim ->
  let r := cookVDBSop ctx self in
  let T := baseTransform (getGrid refPrim) in
  (forall p, In p (gdp r) -> baseTransform (getGrid p) = T)
  /\ (gdp r <> [] ->
      mVoxelSize r = to_float (vec_x (voxelSize T))
      /\ exists outputGrid st,
           r = exportOutputGrid (parms ctx) outputGrid st
           /\ transform outputGrid = T
           /\ gridClass outputGrid = GRID_LEVEL_SET
           /\ (to_bool (builddistance (parms ctx)) = true ->
               In (mkPrim (FloatGridB (setName (distancename (parms ctx)) outputGrid)))
                  (gdp r))
           /\ forall g,
                getGrid refPrim = FloatGridB g ->
                gridClass g = GRID_LEVEL_SET ->
                background outputGrid = background g
                /\ In (mkDiagnostic SOP_Message matchingNote) (messages r))
  /\ (passesGuards (parms ctx) = true ->
      forall g,
        getGrid refPrim = FloatGridB g ->
        gridClass g = GRID_LEVEL_SET ->
        In (mkDiagnostic SOP_Message matchingNote) (messages r)).
Proof.
  intros Href Hhead r T.
  destruct (passesGuards (parms ctx)) eqn:Hguards.
  2:{ destruct (cook_guards_fail Ext ctx self Hguards) as [Hg _].
      unfold r. rewrite Hg. split; [intros p []|].
      split; [intros Hne; congruence | discriminate]. }
  assert (Hr : r = let setup := useReference (parms ctx) refPrim (uiBackground (parms ctx))
                                  (cookStart (parms ctx) self) in
                   performConversion ctx
                     (ParticleList_new (ptGeoInput ctx) (particlescale (parms ctx))
                        (velocityscale (parms ctx)))
                     (setupBackground setup) (setupTransform setup)
                     (setupOutputGrid setup) (setupNode setup)).
  { unfold r. rewrite (cook_guards_pass Ext ctx self Hguards). cbv zeta.
    rewrite Href, Hhead. reflexivity. }
  cbv zeta in Hr. rewrite useReference_transform in Hr. fold T in Hr.
  set (setup := useReference (parms ctx) refPrim (uiBackground (parms ctx))
                  (cookStart (parms ctx) self)) in *.
  set (pa := ParticleList_new _ _ _) in *.
  assert (Hgdp0 : gdp (setupNode setup) = []) by (unfold setup; apply useReference_gdp).
  pose proof (performConversion_grows Ext ctx pa (setupBackground setup) T
                (setupOutputGrid setup) (setupNode setup)) as Hgrows.
  rewrite <- Hr in Hgrows.
  assert (Hnote : forall g, getGrid refPrim = FloatGridB g -> gridClass g = GRID_LEVEL_SET ->
                            In (mkDiagnostic SOP_Message matchingNote) (messages r)).
  { intros g Hg Hls.
    destruct (useReference_float_level_set (parms ctx) refPrim (uiBackground (parms ctx))
                (cookStart (parms ctx) self) g Hg Hls) as (_ & Hn & _).
    exact (grows_In_messages T _ _ _ Hgrows Hn). }
  split; [|split; [|intros _; exact Hnote]].
  - intros p Hp. exact (grows_gdp_from_empty T _ _ p Hgrows Hgdp0 Hp).
  - intros Hne.
    destruct (wasInterrupted (calls (setupNode setup))) eqn:Hint.
    { rewrite performConversion_interrupted in Hr by exact Hint. congruence. }
    split.
    { destruct Hgrows as (-> & _). unfold setup. apply useReference_mVoxelSize. }
    destruct (performConversion_result Ext ctx pa (setupBackground setup) T
                (setupOutputGrid setup) (setupNode setup) Hint)
      as (og & pm & s & Heq & Htr & Hcl & Hbg & _ & _).
    rewrite <- Hr in Heq.
    eexists og, _. split; [exact Heq|]. split; [exact Htr|]. split; [exact Hcl|]. split.
    + intros Hd. rewrite Heq, exportOutputGrid_gdp, Hd.
      apply in_or_app. right. apply in_or_app. left. left. reflexivity.
    + intros g Hg Hls.
      destruct (useReference_float_level_set (parms ctx) refPrim (uiBackground (parms ctx))
                  (cookStart (parms ctx) self) g Hg Hls) as (Hb & _ & Hog).
      fold setup in Hb, Hog. split.
      * rewrite Hbg. destruct Hog as [-> | ->]; [exact Hb | reflexivity].
      * exact (Hnote g Hg Hls).
Qed.

Lemma reference_transform_and_band_witness :
  let ctx := Sample.withLevelSetReference in
  let r := cookVDBSop (Ext:=Sample.tools) ctx Sample.freshNode in
  let refPrim := mkPrim (FloatGridB (mkGrid ∅ (real 1) GRID_LEVEL_SET
                                       (createLinearTransform (real (1 # 5))) "ref" 0)) in
  (refGeoInput ctx = Some Sample.levelSetReference
   /\ head (matchGroup (Externals:=Sample.tools) Sample.levelSetReference
              (referencevdb (parms ctx))) = Some refPrim)
  /\ gdp r <> []
  /\ (forall p, In p (gdp r) ->
                baseTransform (getGrid p) = createLinearTransform (real (1 # 5)))
  /\ In (mkDiagnostic SOP_Message matchingNote) (messages r).
Proof.
  intros ctx r refPrim.
  assert (Hhead : head (matchGroup (Externals:=Sample.tools) Sample.levelSetReference
                          (referencevdb (parms ctx))) = Some refPrim) by reflexivity.
  assert (Hne : gdp r <> []) by (vm_compute; discriminate).
  destruct (reference_transform_and_band Sample.tools ctx Sample.freshNode
              Sample.levelSetReference refPrim eq_refl Hhead) as [Hall Hout].
  split; [split; [reflexivity | exact Hhead]|]. split; [exact Hne|].
  split; [exact Hall|].
  destruct Hout as [Hout _].
  destruct (Hout Hne) as (_ & og & st & _ & _ & _ & _ & Hband).
  exact (proj2 (Hband _ eq_refl eq_refl)).
Defined.

Lemma performConversion_grows_target (Ext : Externals) ctx pa bg T og0 self :
  wasInterrupted (calls self) = false ->
  grows T (snd (targetGrid bg T og0 self)) (performConversion ctx pa bg T og0 self).
Proof.
  intros Hint.
  destruct (performConversion_result Ext ctx pa bg T og0 self Hint)
    as (og & pm & s & -> & Htr & _ & _ & Hs & Hpm).
  eapply grows_trans; [exact Hs|].
  eapply grows_trans; [|apply exportOutputGrid_grows; exact Htr].
  apply grows_if; [apply buildMaskVolume_grows; exact Hpm | apply grows_refl].
Qed.

Lemma error_is_warning (s : Node) w :
  In (mkDiagnostic SOP_Warning w) (messages s) ->
  (forall d, In d (messages s) -> severity d <> SOP_Error) ->
  error s = UT_ERROR_WARNING.
Proof.
  intros Hw Hne. unfold error, hasSeverity.
  replace (existsb (fun d => bool_decide (severity d = SOP_Error)) (messages s)) with false.
  - replace (existsb (fun d => bool_decide (severity d = SOP_Warning)) (messages s))
      with true; [reflexivity|].
    symmetry. apply existsb_exists. eexists. split; [exact Hw|]. reflexivity.
  - symmetry. apply not_true_is_false. intros Hex. apply existsb_exists in Hex.
    destruct Hex as (d & Hin & Hd). apply bool_decide_eq_true in Hd.
    exact (Hne d Hin Hd).
Qed.

(** C2, as stated, fails when the reference field is absent.  With a
    merge requested and no second input, the cook exports the new field
    without any warning; with a second input that holds no VDB
    primitive, the cook records an error, exports nothing and ends in
    the abort state. *)
Lemma merge_without_reference_counterexample :
  let r1 := cookVDBSop (Ext:=Sample.tools) Sample.mergeWithoutInput Sample.freshNode in
  let r2 := cookVDBSop (Ext:=Sample.tools) Sample.mergeWithoutPrimitive Sample.freshNode in
  (merge_ (parms Sample.mergeWithoutInput) <> 0
   /\ refGeoInput Sample.mergeWithoutInput = None
   /\ messages r1 = []
   /\ map (fun p => baseName (getGrid p)) (gdp r1) = ["surface"])
  /\ (merge_ (parms Sample.mergeWithoutPrimitive) <> 0
      /\ matchGroup (Externals:=Sample.tools) Sample.emptyReference
           (referencevdb (parms Sample.mergeWithoutPrimitive)) = []
      /\ messages r2
         = [mkDiagnostic SOP_Error [Str "Second input has no VDB primitives."]]
      /\ error r2 = UT_ERROR_ABORT
      /\ gdp r2 = []).
Proof.
  cbv zeta. split.
  - split; [discriminate|]. split; [reflexivity|]. split; vm_compute; reflexivity.
  - split; [discriminate|]. repeat split.
Qed.

(** C2, amended.  Whenever the cook passes its two guards, a reference
    VDB primitive is supplied, merging is requested and the reference
    is not a float-typed level set grid: the cook records one warning
    (that the reference is not a float grid when it is a level set of
    another type, that only a level set can be written into otherwise),
    skips the merge and runs the conversion with no grid to write into,
    so that the first thing the conversion does, unless interrupted, is
    to create a new grid with the background of the parameters; no
    error is recorded and the cook ends in the warning state. *)
Theorem merge_refused_without_float_level_set (Ext : Externals) (ctx : OP_Context)
    (self : Node) (refGeo : GU_Detail) (refPrim : GU_PrimVDB) :
  refGeoInput ctx = Some refGeo ->
  head (matchGroup refGeo (referencevdb (parms ctx))) = Some refPrim ->
  passesGuards (parms ctx) = true ->
  merge_ (parms ctx) <> 0 ->
  bool_decide (getGridClass (getGrid refPrim) = GRID_LEVEL_SET)
  && isFloatGrid (getGrid refPrim) = false ->
  let P := parms ctx in
  let r := cookVDBSop ctx self in
  let T := baseTransform (getGrid refPrim) in
  let paList := ParticleList_new (ptGeoInput ctx) (particlescale P) (velocityscale P) in
  let w := if bool_decide (getGridClass (getGrid refPrim) = GRID_LEVEL_SET)
           then notFloatWarning else notLevelSetWarning in
  exists st,
    messages st = [mkDiagnostic SOP_Warning w]
    /\ gdp st = []
    /\ r = performConversion ctx paList (uiBackground P) T None st
    /\ (wasInterrupted (calls st) = false ->
        exists cs, calls r = calls st ++ Call_FloatGrid_create (uiBackground P) :: cs)
    /\ In (mkDiagnostic SOP_Warning w) (messages r)
    /\ (forall d, In d (messages r) -> severity d <> SOP_Error)
    /\ error r = UT_ERROR_WARNING.
Proof.
  intros Href Hhead Hguards Hmerge Hnot P r T paList w.
  assert (Hr : r = let setup := useReference P refPrim (uiBackground P) (cookStart P self) in
                   performConversion ctx paList (setupBackground setup)
                     (setupTransform setup) (setupOutputGrid setup) (setupNode setup)).
  { unfold r. rewrite (cook_guards_pass Ext ctx self Hguards). cbv zeta.
    rewrite Href, Hhead. reflexivity. }
  cbv zeta in Hr. rewrite (useReference_refused P refPrim _ _ Hmerge Hnot) in Hr.
  cbn [setupBackground setupTransform setupOutputGrid setupNode cookStart beginCook
       set_mVoxelSize messages gdp calls app] in Hr.
  fold T w in Hr.
  match type of Hr with _ = performConversion _ _ _ _ _ ?s => set (st := s) in * end.
  exists st.
  assert (Hgrows : grows T st r) by (rewrite Hr; apply performConversion_grows).
  assert (Hw : In (mkDiagnostic SOP_Warning w) (messages r)).
  { apply (grows_In_messages T st r); [exact Hgrows | left; reflexivity]. }
  assert (Hne : forall d, In d (messages r) -> severity d <> SOP_Error).
  { apply (grows_no_error T st r Hgrows). intros d [<- | []]. discriminate. }
  split; [reflexivity|]. split; [reflexivity|]. split; [exact Hr|]. split.
  - intros Hint.
    pose proof (performConversion_grows_target Ext ctx paList (uiBackground P) T None st Hint)
      as (_ & _ & _ & (cs & Hcs)).
    rewrite <- Hr in Hcs. exists cs. rewrite Hcs. cbn. rewrite <- app_assoc. reflexivity.
  - split; [exact Hw|]. split; [exact Hne|]. exact (error_is_warning r w Hw Hne).
Qed.

Lemma merge_refused_without_float_level_set_witness :
  let ctx := Sample.mergeIntoFog in
  let r := cookVDBSop (Ext:=Sample.tools) ctx Sample.freshNode in
  let refPrim := mkPrim (FloatGridB (mkGrid ∅ (real 0) GRID_FOG_VOLUME
                                       (createLinearTransform (real (1 # 5))) "ref" 0)) in
  (refGeoInput ctx = Some Sample.fogReference
   /\ head (matchGroup (Externals:=Sample.tools) Sample.fogReference
              (referencevdb (parms ctx))) = Some refPrim
   /\ passesGuards (parms ctx) = true
   /\ merge_ (parms ctx) <> 0
   /\ bool_decide (getGridClass (getGrid refPrim) = GRID_LEVEL_SET)
      && isFloatGrid (getGrid refPrim) = false)
  /\ In (mkDiagnostic SOP_Warning notLevelSetWarning) (messages r)
  /\ error r = UT_ERROR_WARNING.
Proof.
  intros ctx r refPrim.
  assert (Hhead : head (matchGroup (Externals:=Sample.tools) Sample.fogReference
                          (referencevdb (parms ctx))) = Some refPrim) by reflexivity.
  assert (Hm : merge_ (parms ctx) <> 0) by discriminate.
  destruct (merge_refused_without_float_level_set Sample.tools ctx Sample.freshNode
              Sample.fogReference refPrim eq_refl Hhead eq_refl Hm eq_refl)
    as (st & _ & _ & _ & _ & Hw & _ & He).
  split; [repeat split; try reflexivity; exact Hm|].
  split; [exact Hw | exact He].
Defined.

(** ** The mask at offset zero *)

Lemma emptyMask_background T name c :
  getValue (emptyMask T name) c = background (emptyMask T name).
Proof. unfold getValue, emptyMask. cbn. rewrite lookup_empty. reflexivity. Qed.

Lemma exportOutputGrid_count P og self :
  exists post,
    gdp (exportOutputGrid P og self) = gdp self ++ post
    /\ length post = ((if to_bool (builddistance P) then 1 else 0)
                      + (if to_bool (buildfog P) then 1 else 0))%nat.
Proof.
  rewrite exportOutputGrid_gdp. eexists. split; [reflexivity|].
  destruct (to_bool (builddistance P)), (to_bool (buildfog P)); reflexivity.
Qed.

Lemma performConversion_zero_offset (Ext : Externals) ctx pa bg T og0 self :
  wasInterrupted (calls self) = false ->
  to_bool (buildmask (parms ctx)) = true ->
  clampOffset (boundinglimit (parms ctx)) = real 0 ->
  exists pre post,
    gdp (performConversion ctx pa bg T og0 self)
    = pre ++ mkPrim (FloatGridB (emptyMask T (maskname (parms ctx)))) :: post
    /\ length post = ((if to_bool (builddistance (parms ctx)) then 1 else 0)
                      + (if to_bool (buildfog (parms ctx)) then 1 else 0))%nat.
Proof.
  intros Hint Hmask Hzero.
  destruct (performConversion_result Ext ctx pa bg T og0 self Hint)
    as (og & pm & s & -> & _).
  rewrite Hmask.
  rewrite buildMaskVolume_zero_offset by (rewrite Hzero; reflexivity).
  destruct (exportOutputGrid_count (parms ctx) og
              (createVdbPrimitive (FloatGridB (emptyMask T (maskname (parms ctx)))) None
                 (logCall Call_sdfToFogVolume
                    (logCall Call_csgDifference
                       (logCall (Call_FloatGrid_create bg)
                          (logCall (Call_FloatGrid_create bg) s))))))
    as (post & -> & Hlen).
  exists (gdp s), post. cbn [createVdbPrimitive gdp logCall].
  rewrite <- app_assoc. split; [reflexivity | exact Hlen].
Qed.

(** C4.  In every cook with the mask requested and the clamped bounding
    limit equal to 0 that exports anything at all, the primitive
    appended just before the distance and fog outputs is the mask: a
    fog volume carrying the mask name, without a single active voxel,
    whose value at every coordinate is its background, zero. *)
Theorem zero_offset_mask_is_empty (Ext : Externals) (ctx : OP_Context) (self : Node) :
  to_bool (buildmask (parms ctx)) = true ->
  clampOffset (boundinglimit (parms ctx)) = real 0 ->
  let P := parms ctx in
  let r := cookVDBSop ctx self in
  gdp r <> [] ->
  exists pre mask post,
    gdp r = pre ++ mkPrim (FloatGridB mask) :: post
    /\ length post = ((if to_bool (builddistance P) then 1 else 0)
                      + (if to_bool (buildfog P) then 1 else 0))%nat
    /\ gridName mask = maskname P
    /\ gridClass mask = GRID_FOG_VOLUME
    /\ isEmpty mask
    /\ background mask = real 0
    /\ forall c, getValue mask c = background mask.
Proof.
  intros Hmask Hzero P r Hne.
  assert (Hconv : exists pa bg T og0 st,
             r = performConversion ctx pa bg T og0 st /\ gdp st = []).
  { destruct (passesGuards (parms ctx)) eqn:Hguards.
    2:{ destruct (cook_guards_fail Ext ctx self Hguards) as [Hg _]. contradiction. }
    unfold r in *. rewrite (cook_guards_pass Ext ctx self Hguards) in *. cbv zeta in *.
    destruct (refGeoInput ctx) as [refGeo|].
    - destruct (head (matchGroup refGeo (referencevdb (parms ctx)))) as [refPrim|].
      + eexists _, _, _, _, _. split; [reflexivity|]. apply useReference_gdp.
      + exfalso. apply Hne. reflexivity.
    - eexists _, _, _, _, _. split; [reflexivity|]. reflexivity. }
  destruct Hconv as (pa & bg & T & og0 & st & Hr & Hst).
  destruct (wasInterrupted (calls st)) eqn:Hint.
  { rewrite performConversion_interrupted in Hr by exact Hint. congruence. }
  destruct (performConversion_zero_offset Ext ctx pa bg T og0 st Hint Hmask Hzero)
    as (pre & post & Hgdp & Hlen).
  rewrite <- Hr in Hgdp.
  exists pre, (emptyMask T (maskname P)), post.
  split; [exact Hgdp|]. split; [exact Hlen|].
  split; [reflexivity|]. split; [reflexivity|]. split; [reflexivity|].
  split; [reflexivity|]. intros c. apply emptyMask_background.
Qed.

Lemma zero_offset_mask_is_empty_witness :
  let ctx := Sample.sphereMaskZero in
  let r := cookVDBSop (Ext:=Sample.tools) ctx Sample.freshNode in
  (to_bool (buildmask (parms ctx)) = true
   /\ clampOffset (boundinglimit (parms ctx)) = real 0
   /\ gdp r <> [])
  /\ exists pre mask post,
       gdp r = pre ++ mkPrim (FloatGridB mask) :: post
       /\ length post = 1%nat
       /\ gridName mask = "boundingvolume"
       /\ isEmpty mask.
Proof.
  intros ctx r.
  assert (Hz : clampOffset (boundinglimit (parms ctx)) = real 0)
    by (apply Qc_is_canon; reflexivity).
  assert (Hne : gdp r <> []) by (vm_compute; discriminate).
  split; [split; [reflexivity | split; [exact Hz | exact Hne]]|].
  destruct (zero_offset_mask_is_empty Sample.tools ctx Sample.freshNode eq_refl Hz Hne)
    as (pre & mask & post & Hg & Hl & Hn & _ & He & _).
  exists pre, mask, post. repeat split; assumption.
Defined.

(** * Further properties of the cook *)

(** ** Which cooks fail *)

Lemma no_error_not_abort (s : Node) :
  (forall d, In d (messages s) -> severity d <> SOP_Error) ->
  error s <> UT_ERROR_ABORT.
Proof.
  intros Hne. unfold error, hasSeverity.
  replace (existsb (fun d => bool_decide (severity d = SOP_Error)) (messages s)) with false.
  - repeat case_match; discriminate.
  - symmetry. apply not_true_is_false. intros Hex. apply existsb_exists in Hex.
    destruct Hex as (d & Hin & Hd). apply bool_decide_eq_true in Hd.
    exact (Hne d Hin Hd).
Qed.

Lemma useReference_no_error P refPrim bg self :
  (forall d, In d (messages self) -> severity d <> SOP_Error) ->
  forall d, In d (messages (setupNode (useReference P refPrim bg self))) ->
            severity d <> SOP_Error.
Proof.
  intros Hself d. unfold useReference.
  repeat case_match; simplify_eq; cbn [setupNode messages logCall addWarning addMessage
    addDiagnostic set_mVoxelSize]; intros Hin;
    repeat (apply in_app_or in Hin; destruct Hin as [Hin | Hin]);
    try (apply Hself; exact Hin);
    destruct Hin as [<- | []]; discriminate.
Qed.

Lemma useReference_calls P refPrim bg self :
  calls (setupNode (useReference P refPrim bg self)) = calls self
  \/ calls (setupNode (useReference P refPrim bg self)) = calls self ++ [Call_deepCopyGrid].
Proof.
  unfold useReference. repeat case_match; simplify_eq; cbn; auto.
Qed.

(** The cook when the voxel size passes and nothing is selected. *)
Lemma cook_guards_no_selection (Ext : Externals) ctx self :
  Real_ltb (to_float (voxelsize (parms ctx))) minVoxelSize = false ->
  passesGuards (parms ctx) = false ->
  cookVDBSop ctx self
  = addWarning [Str "No output selected"] (cookStart (parms ctx) self).
Proof.
  unfold passesGuards, cookVDBSop. cbn [beginCook set_mVoxelSize mVoxelSize].
  intros ->. cbn [negb andb].
  destruct (to_bool (buildfog (parms ctx))), (to_bool (builddistance (parms ctx))),
    (0 <? evalInt_attrList (parms ctx)); cbn; try discriminate; reflexivity.
Qed.

(** X1.  A second input that holds no VDB primitive is fatal: once the
    two guards have passed, the cook records the single error "Second
    input has no VDB primitives.", ends in the abort state, exports
    nothing and calls no volume tool. *)
Theorem cook_second_input_without_vdb (Ext : Externals) (ctx : OP_Context) (self : Node)
    (refGeo : GU_Detail) :
  passesGuards (parms ctx) = true ->
  refGeoInput ctx = Some refGeo ->
  head (matchGroup refGeo (referencevdb (parms ctx))) = None ->
  messages (cookVDBSop ctx self)
  = [mkDiagnostic SOP_Error [Str "Second input has no VDB primitives."]]
  /\ error (cookVDBSop ctx self) = UT_ERROR_ABORT
  /\ gdp (cookVDBSop ctx self) = []
  /\ calls (cookVDBSop ctx self) = [].
Proof.
  intros Hguards Href Hhead.
  rewrite (cook_guards_pass Ext ctx self Hguards). cbv zeta.
  rewrite Href, Hhead. repeat split.
Qed.

Lemma cook_second_input_without_vdb_witness :
  let ctx := Sample.mergeWithoutPrimitive in
  (passesGuards (parms ctx) = true
   /\ refGeoInput ctx = Some Sample.emptyReference
   /\ head (matchGroup (Externals:=Sample.tools) Sample.emptyReference
              (referencevdb (parms ctx))) = None)
  /\ error (cookVDBSop (Ext:=Sample.tools) ctx Sample.freshNode) = UT_ERROR_ABORT
  /\ gdp (cookVDBSop (Ext:=Sample.tools) ctx Sample.freshNode) = [].
Proof.
  intros ctx. split; [repeat split|].
  destruct (cook_second_input_without_vdb Sample.tools ctx Sample.freshNode
              Sample.emptyReference eq_refl eq_refl eq_refl) as (_ & He & Hg & _).
  split; [exact He | exact Hg].
Defined.

(** X2.  With volume tools that return normally, the cook ends in the
    abort state exactly in two situations: the voxel size, narrowed to
    single precision as the cook reads it, is below 1e-5 (which
    includes a voxel-size parameter of exactly 1e-5), or both guards
    pass and the second input is connected but holds no VDB primitive
    in the reference group.  Nothing the conversion, the mask builder
    or the attribute transfer does is an error. *)
Theorem cook_abort_iff (Ext : Externals) (ctx : OP_Context) (self : Node) :
  error (cookVDBSop ctx self) = UT_ERROR_ABORT
  <-> (to_float (voxelsize (parms ctx)) < minVoxelSize)%Qc
      \/ (passesGuards (parms ctx) = true
          /\ exists refGeo,
               refGeoInput ctx = Some refGeo
               /\ head (matchGroup refGeo (referencevdb (parms ctx))) = None).
Proof.
  split.
  - intros Habort.
    destruct (Real_ltb (to_float (voxelsize (parms ctx))) minVoxelSize) eqn:Evs.
    { left. apply Real_ltb_lt. exact Evs. }
    right.
    destruct (passesGuards (parms ctx)) eqn:Hguards.
    2:{ rewrite (cook_guards_no_selection Ext ctx self Evs Hguards) in Habort.
        discriminate. }
    split; [reflexivity|].
    rewrite (cook_guards_pass Ext ctx self Hguards) in Habort. cbv zeta in Habort.
    destruct (refGeoInput ctx) as [refGeo|].
    + destruct (head (matchGroup refGeo (referencevdb (parms ctx)))) as [refPrim|] eqn:Hhead.
      * exfalso. revert Habort. apply no_error_not_abort.
        eapply grows_no_error; [apply performConversion_grows|].
        apply useReference_no_error. intros d [].
      * exists refGeo. split; [reflexivity | exact Hhead].
    + exfalso. revert Habort. apply no_error_not_abort.
      eapply grows_no_error; [apply performConversion_grows|]. intros d [].
  - intros [Hsmall | (Hguards & refGeo & Href & Hhead)].
    + rewrite (cook_small_voxel_size Ext ctx self Hsmall). reflexivity.
    + rewrite (cook_guards_pass Ext ctx self Hguards). cbv zeta.
      rewrite Href, Hhead. reflexivity.
Qed.

Lemma cook_abort_iff_witness :
  let atTheBound := mkContext (Sample.set_voxelsize (real (1 # 100000)) Sample.defaults)
                      Sample.twoPoints None in
  (to_float (voxelsize (parms atTheBound)) < minVoxelSize)%Qc
  /\ error (cookVDBSop (Ext:=Sample.tools) atTheBound Sample.freshNode) = UT_ERROR_ABORT
  /\ error (cookVDBSop (Ext:=Sample.tools) Sample.everything Sample.freshNode)
     <> UT_ERROR_ABORT.
Proof.
  intros atTheBound.
  assert (Hsmall : (to_float (voxelsize (parms atTheBound)) < minVoxelSize)%Qc)
    by (vm_compute; reflexivity).
  split; [exact Hsmall|]. split.
  - apply (proj2 (cook_abort_iff Sample.tools atTheBound Sample.freshNode)).
    left. exact Hsmall.
  - intros Habort.
    apply (proj1 (cook_abort_iff Sample.tools Sample.everything Sample.freshNode)) in Habort.
    destruct Habort as [Hlt | (_ & refGeo & Href & _)]; [|discriminate].
    revert Hlt. apply Qcle_not_lt. vm_compute. discriminate.
Defined.

(** X3.  A cook whose interrupter has already fired when the conversion
    is about to start exports nothing, creates no grid and rasterizes
    nothing: the only volume-tool call it can have made is the deep copy
    of a reference grid it was asked to merge into. *)
Theorem cook_interrupted_exports_nothing (Ext : Externals) (ctx : OP_Context)
    (self : Node) :
  (forall cs, wasInterrupted cs = true) ->
  gdp (cookVDBSop ctx self) = []
  /\ (calls (cookVDBSop ctx self) = []
      \/ calls (cookVDBSop ctx self) = [Call_deepCopyGrid]).
Proof.
  intros Hint.
  destruct (passesGuards (parms ctx)) eqn:Hguards.
  2:{ destruct (cook_guards_fail Ext ctx self Hguards) as [Hg Hc]. auto. }
  rewrite (cook_guards_pass Ext ctx self Hguards). cbv zeta.
  destruct (refGeoInput ctx) as [refGeo|].
  - destruct (head (matchGroup refGeo (referencevdb (parms ctx)))) as [refPrim|].
    + rewrite performConversion_interrupted by apply Hint.
      split; [apply useReference_gdp|].
      destruct (useReference_calls (parms ctx) refPrim (uiBackground (parms ctx))
                  (cookStart (parms ctx) self)) as [-> | ->]; auto.
    + auto.
  - rewrite performConversion_interrupted by apply Hint. auto.
Qed.

Lemma cook_interrupted_exports_nothing_witness :
  (forall cs, wasInterrupted (Externals:=Sample.cancelledTools) cs = true)
  /\ gdp (cookVDBSop (Ext:=Sample.cancelledTools) Sample.mergeIntoLevelSet Sample.freshNode)
     = []
  /\ calls (cookVDBSop (Ext:=Sample.cancelledTools) Sample.mergeIntoLevelSet
              Sample.freshNode) = [Call_deepCopyGrid].
Proof.
  assert (Hint : forall cs, wasInterrupted (Externals:=Sample.cancelledTools) cs = true)
    by reflexivity.
  split; [exact Hint|].
  destruct (cook_interrupted_exports_nothing Sample.cancelledTools Sample.mergeIntoLevelSet
              Sample.freshNode Hint) as [Hg _].
  split; [exact Hg | reflexivity].
Defined.

(** ** The cached voxel size *)

(** X4.  Every cook overwrites the cached voxel size with a value in
    single precision: the narrowed first component of the reference
    transform's voxel size when both guards pass and a reference
    primitive is found, and the narrowed voxel-size parameter
    otherwise, also when that value has just been rejected as too
    small.  The unit converter then works with the cached value: with
    the toggle on it stores the product with it, rounded to [double];
    with the toggle off it stores the rounded quotient by it when the
    cached value is not zero, and no number when it is zero, as after a
    rejected voxel size of 0. *)
Theorem cook_caches_voxel_size (Ext : Externals) (ctx : OP_Context) (self : Node) :
  let P := parms ctx in
  let r := cookVDBSop ctx self in
  (forall refGeo refPrim,
      passesGuards P = true ->
      refGeoInput ctx = Some refGeo ->
      head (matchGroup refGeo (referencevdb P)) = Some refPrim ->
      mVoxelSize r = to_float (vec_x (voxelSize (baseTransform (getGrid refPrim)))))
  /\ (passesGuards P = false
      \/ refGeoInput ctx = None
      \/ (exists refGeo, refGeoInput ctx = Some refGeo
                         /\ head (matchGroup refGeo (referencevdb P)) = None) ->
      mVoxelSize r = to_float (voxelsize P))
  /\ (forall P', useworldspace P' <> 0 ->
                 snd (convertUnits (mkSOP P' (Some r)))
                 = Some (mkSOP (setFloat_halfband
                                  (to_double (halfbandvoxels P' * mVoxelSize r)) P')
                               (Some r)))
  /\ (forall P', useworldspace P' = 0 -> mVoxelSize r <> real 0 ->
                 snd (convertUnits (mkSOP P' (Some r)))
                 = Some (mkSOP (setFloat_halfbandvoxels
                                  (to_double (halfband P' / mVoxelSize r)) P')
                               (Some r)))
  /\ (forall P', useworldspace P' = 0 -> mVoxelSize r = real 0 ->
                 snd (convertUnits (mkSOP P' (Some r))) = None).
Proof.
  intros P r. subst P. split; [|split; [|split; [|split]]].
  - intros refGeo refPrim Hguards Href Hhead. unfold r.
    rewrite (cook_guards_pass Ext ctx self Hguards). cbv zeta. rewrite Href, Hhead.
    destruct (performConversion_grows Ext ctx
                (ParticleList_new (ptGeoInput ctx) (particlescale (parms ctx))
                   (velocityscale (parms ctx)))
                (setupBackground (useReference (parms ctx) refPrim
                                    (uiBackground (parms ctx)) (cookStart (parms ctx) self)))
                (setupTransform (useReference (parms ctx) refPrim
                                   (uiBackground (parms ctx)) (cookStart (parms ctx) self)))
                (setupOutputGrid (useReference (parms ctx) refPrim
                                    (uiBackground (parms ctx)) (cookStart (parms ctx) self)))
                (setupNode (useReference (parms ctx) refPrim
                              (uiBackground (parms ctx)) (cookStart (parms ctx) self))))
      as (-> & _).
    apply useReference_mVoxelSize.
  - intros Hcase. unfold r.
    destruct (passesGuards (parms ctx)) eqn:Hguards.
    + rewrite (cook_guards_pass Ext ctx self Hguards). cbv zeta.
      destruct Hcase as [Hf | [Hnone | (refGeo & Href & Hhead)]]; [discriminate| |].
      * rewrite Hnone.
        destruct (performConversion_grows Ext ctx
                    (ParticleList_new (ptGeoInput ctx) (particlescale (parms ctx))
                       (velocityscale (parms ctx)))
                    (uiBackground (parms ctx))
                    (createLinearTransform (to_float (voxelsize (parms ctx)))) None
                    (cookStart (parms ctx) self)) as (-> & _).
        reflexivity.
      * rewrite Href, Hhead. reflexivity.
    + destruct (Real_ltb (to_float (voxelsize (parms ctx))) minVoxelSize) eqn:Evs.
      * apply Real_ltb_lt in Evs. rewrite (cook_small_voxel_size Ext ctx self Evs).
        reflexivity.
      * rewrite (cook_guards_no_selection Ext ctx self Evs Hguards). reflexivity.
  - intros P' Hw. unfold convertUnits. cbn [sopParms myNodeVerbCache].
    replace (negb (useworldspace P' =? 0)) with true
      by (symmetry; apply negb_true_iff, Z.eqb_neq; exact Hw).
    reflexivity.
  - intros P' Hw Hnz. unfold convertUnits, worldToVoxels, voxSize.
    cbn [sopParms myNodeVerbCache snd]. rewrite Hw. cbn [Z.eqb negb].
    rewrite bool_decide_eq_false_2 by exact Hnz. reflexivity.
  - intros P' Hw Hz. unfold convertUnits, worldToVoxels, voxSize.
    cbn [sopParms myNodeVerbCache snd]. rewrite Hw. cbn [Z.eqb negb].
    rewrite bool_decide_eq_true_2 by exact Hz. reflexivity.
Qed.

Lemma cook_caches_voxel_size_witness :
  let ctx := Sample.withLevelSetReference in
  let r := cookVDBSop (Ext:=Sample.tools) ctx Sample.freshNode in
  let rejected := cookVDBSop (Ext:=Sample.tools) Sample.zeroVoxelSize Sample.freshNode in
  (passesGuards (parms ctx) = true
   /\ refGeoInput ctx = Some Sample.levelSetReference)
  /\ this (mVoxelSize r) = (13421773 # 67108864)%Q
  /\ mVoxelSize rejected = real 0
  /\ snd (convertUnits (mkSOP Sample.defaults (Some rejected))) = None.
Proof.
  intros ctx r rejected. split; [split; reflexivity|].
  assert (Hz : mVoxelSize rejected = real 0).
  { unfold rejected.
    rewrite (proj1 (proj2 (cook_caches_voxel_size Sample.tools Sample.zeroVoxelSize
                             Sample.freshNode)) (or_introl eq_refl)).
    exact to_float_zero. }
  split; [|split; [exact Hz|]].
  - unfold r.
    rewrite (proj1 (cook_caches_voxel_size Sample.tools ctx Sample.freshNode)
               Sample.levelSetReference _ eq_refl eq_refl eq_refl).
    vm_compute. reflexivity.
  - exact (proj2 (proj2 (proj2 (proj2 (cook_caches_voxel_size Sample.tools
                                         Sample.zeroVoxelSize Sample.freshNode))))
             Sample.defaults eq_refl Hz).
Defined.

(** ** What the conversion calls and exports *)



(** The topology path of the primary conversion: three tool calls, no
    diagnostic, no primitive. *)
Lemma primaryConversion_topology (Ext : Externals) ctx pa T bw og self :
  conversion (parms ctx) <> 0 ->
  snd (primaryConversion ctx pa T bw og self)
  = mkNode (mVoxelSize self) (messages self) (gdp self)
      (calls self
       ++ [Call_GUvdbCreatePointMaskGrid T;
           Call_topologyToLevelSet bw (closing (parms ctx)) (dilation (parms ctx))
             (smoothing (parms ctx));
           Call_csgUnion])
  /\ snd (fst (primaryConversion ctx pa T bw og self))
     = Some (GUvdbCreatePointMaskGrid T (ptGeoInput ctx)).
Proof.
  intros Hconv. unfold primaryConversion.
  replace (conversion (parms ctx) =? 0) with false
    by (symmetry; apply Z.eqb_neq; exact Hconv).
  cbv zeta. cbn [fst snd]. unfold logCall. cbn [calls messages gdp mVoxelSize].
  rewrite <- !app_assoc. split; reflexivity.
Qed.

Lemma grows_calls_prefix T s s' : grows T s s' -> exists cs, calls s' = calls s ++ cs.
Proof. intros (_ & _ & _ & H). exact H. Qed.




Lemma buildMaskVolume_export (Ext : Externals) ctx pa bg T doSphere bw pm self :
  exists m,
    gdp (buildMaskVolume ctx pa bg T doSphere bw pm self)
    = gdp self ++ [mkPrim (FloatGridB m)]
    /\ gridName m = maskname (parms ctx)
    /\ gridClass m = GRID_FOG_VOLUME
    /\ background m = real 0.
Proof.
  unfold buildMaskVolume. cbn [FloatGrid_create]. fold (maskTarget bg T).
  destruct (Real_ltb (real 0) (clampOffset (boundinglimit (parms ctx)))).
  - destruct doSphere.
    + set (pa1 := setRadiusMult _ pa).
      set (s0 := logCall _ (logCall _ self)).
      pose proof (convert_gdp Ext (parms ctx) (maskTarget bg T) pa1 s0) as G1.
      destruct (convert (parms ctx) (maskTarget bg T) pa1 s0) as [g1 s1]. cbn [snd] in G1.
      set (pa2 := setRadiusMult _ pa1).
      pose proof (convert_gdp Ext (parms ctx) (maskTarget bg T) pa2 s1) as G2.
      destruct (convert (parms ctx) (maskTarget bg T) pa2 s1) as [g2 s2]. cbn [snd] in G2.
      eexists. cbn [createVdbPrimitive logCall gdp]. rewrite G2, G1.
      split; [reflexivity|]. repeat split.
    + destruct pm as [m|]; eexists; (split; [reflexivity|]); repeat split.
  - eexists. split; [reflexivity|]. repeat split.
Qed.

Lemma exportOutputGrid_calls P og self :
  exists cs,
    calls (exportOutputGrid P og self) = calls self ++ cs
    /\ Forall (fun c => isParticleCall c = false) cs.
Proof.
  unfold exportOutputGrid.
  destruct (to_bool (builddistance P)), (to_bool (buildfog P));
    cbn [createVdbPrimitive logCall calls]; rewrite <- ?app_assoc;
    eexists; (split; [try reflexivity; symmetry; apply app_nil_r|]);
    repeat constructor.
Qed.

Lemma buildMaskVolume_topology_calls (Ext : Externals) ctx pa bg T bw pm self :
  exists cs,
    calls (buildMaskVolume ctx pa bg T false bw pm self) = calls self ++ cs
    /\ Forall (fun c => isParticleCall c = false) cs.
Proof.
  destruct (Real_ltb (real 0) (clampOffset (boundinglimit (parms ctx)))) eqn:E.
  - rewrite (buildMaskVolume_calls_topology Ext ctx pa bg T bw pm self E). cbv zeta.
    eexists. split; [reflexivity|]. destruct pm; repeat constructor.
  - rewrite (buildMaskVolume_zero_offset Ext ctx pa bg T false bw pm self E).
    cbn [createVdbPrimitive logCall calls]. rewrite <- !app_assoc.
    eexists. split; [reflexivity|]. repeat constructor.
Qed.

Lemma primaryConversion_gdp_no_attributes (Ext : Externals) ctx pa T bw og self :
  conversion (parms ctx) <> 0 \/ attrList (parms ctx) = [] ->
  gdp (snd (primaryConversion ctx pa T bw og self)) = gdp self.
Proof.
  intros Hcase.
  destruct (Z.eq_dec (conversion (parms ctx)) 0) as [Hconv | Hconv].
  - destruct Hcase as [Hne | Hnil]; [contradiction|].
    unfold primaryConversion. rewrite Hconv. cbn [Z.eqb].
    unfold evalInt_attrList. rewrite Hnil.
    change (0 <? Z.of_nat (length (@nil AttrInstance))) with false.
    set (self1 := if _ : bool then addWarning _ self else self).
    assert (H1 : gdp self1 = gdp self) by (unfold self1; case_match; reflexivity).
    pose proof (convert_gdp Ext (parms ctx) og pa self1) as Hg.
    destruct (convert _ _ _ _) as [g s]. cbn [fst snd] in *. congruence.
  - destruct (primaryConversion_topology Ext ctx pa T bw og self Hconv) as [-> _].
    reflexivity.
Qed.

(** What an uninterrupted conversion appends to the output detail. *)
Lemma performConversion_exports (Ext : Externals) ctx pa bg T og0 self :
  wasInterrupted (calls self) = false ->
  exists attrs m og,
    gdp (performConversion ctx pa bg T og0 self)
    = gdp self ++ attrs
      ++ (if to_bool (buildmask (parms ctx)) then [mkPrim (FloatGridB m)] else [])
      ++ (if to_bool (builddistance (parms ctx))
          then [mkPrim (FloatGridB (setName (distancename (parms ctx)) og))] else [])
      ++ (if to_bool (buildfog (parms ctx))
          then [mkPrim (FloatGridB (setName (fogname (parms ctx)) (sdfToFogVolume og)))]
          else [])
    /\ gridClass og = GRID_LEVEL_SET
    /\ gridName m = maskname (parms ctx)
    /\ gridClass m = GRID_FOG_VOLUME
    /\ (conversion (parms ctx) <> 0 \/ attrList (parms ctx) = [] -> attrs = [])
    /\ gdp (snd (primaryConversion ctx pa T (ceil (to_float (bg / mVoxelSize self)))
                   (fst (targetGrid bg T og0 self)) (snd (targetGrid bg T og0 self))))
       = gdp self ++ attrs.
Proof.
  intros Hint. rewrite performConversion_unfold by exact Hint. cbv zeta.
  replace (mVoxelSize self) with (mVoxelSize (snd (targetGrid bg T og0 self)))
    by (unfold targetGrid; destruct og0; reflexivity).
  set (tg := targetGrid bg T og0 self).
  set (bw := ceil (to_float (bg / mVoxelSize (snd tg)))).
  set (pc := primaryConversion ctx pa T bw (fst tg) (snd tg)).
  destruct (targetGrid_spec Ext T bg og0 self) as (G1 & T1 & C1 & _). fold tg in G1, T1, C1.
  assert (Htg : gdp (snd tg) = gdp self)
    by (unfold tg, targetGrid; destruct og0; reflexivity).
  destruct (primaryConversion_spec Ext ctx pa T bw (fst tg) (snd tg) T1)
    as (G2 & _ & C2 & _ & _). fold pc in G2, C2.
  destruct G2 as (_ & _ & (attrs & Hattrs & _) & _).
  destruct (buildMaskVolume_export Ext ctx pa bg T (conversion (parms ctx) =? 0) bw
              (snd (fst pc)) (snd pc)) as (m & Hm & Hname & Hclass & _).
  exists attrs, m, (fst (fst pc)).
  split; [|split; [congruence|split; [exact Hname|split; [exact Hclass|split]]]];
    [| |rewrite Hattrs, Htg; reflexivity].
  - rewrite exportOutputGrid_gdp.
    replace (sdfToFogVolume
               (if to_bool (builddistance (parms ctx))
                then setName (distancename (parms ctx)) (fst (fst pc)) else fst (fst pc)))
      with (setName (if to_bool (builddistance (parms ctx))
                     then distancename (parms ctx) else gridName (fst (fst pc)))
              (sdfToFogVolume (fst (fst pc))))
      by (destruct (to_bool (builddistance (parms ctx))); reflexivity).
    destruct (to_bool (buildmask (parms ctx)));
      [rewrite Hm|]; rewrite Hattrs, Htg; rewrite <- ?app_assoc; reflexivity.
  - intros Hcase.
    pose proof (primaryConversion_gdp_no_attributes Ext ctx pa T bw (fst tg) (snd tg) Hcase)
      as Hg. fold pc in Hg. rewrite Hattrs in Hg.
    rewrite <- (app_nil_r (gdp (snd tg))) in Hg at 2.
    apply app_inv_head in Hg. exact Hg.
Qed.

(** Either the cook exports nothing, or it is an uninterrupted
    conversion started from an empty output detail. *)
Lemma cook_conversion_cases (Ext : Externals) ctx self :
  gdp (cookVDBSop ctx self) = []
  \/ exists pa bg T og0 st,
       cookVDBSop ctx self = performConversion ctx pa bg T og0 st
       /\ wasInterrupted (calls st) = false
       /\ gdp st = [].
Proof.
  destruct (passesGuards (parms ctx)) eqn:Hguards.
  2:{ left. apply (cook_guards_fail Ext ctx self Hguards). }
  rewrite (cook_guards_pass Ext ctx self Hguards). cbv zeta.
  assert (Hcase : forall pa bg T og0 st, gdp st = [] ->
            gdp (performConversion ctx pa bg T og0 st) = []
            \/ exists pa' bg' T' og0' st',
                 performConversion ctx pa bg T og0 st
                 = performConversion ctx pa' bg' T' og0' st'
                 /\ wasInterrupted (calls st') = false /\ gdp st' = []).
  { intros pa bg T og0 st Hst. destruct (wasInterrupted (calls st)) eqn:Hint.
    - left. rewrite performConversion_interrupted by exact Hint. exact Hst.
    - right. exists pa, bg, T, og0, st. auto. }
  destruct (refGeoInput ctx) as [refGeo|].
  - destruct (head (matchGroup refGeo (referencevdb (parms ctx)))) as [refPrim|].
    + apply Hcase. apply useReference_gdp.
    + left. reflexivity.
  - apply Hcase. reflexivity.
Qed.

(** X6.  Whatever the cook exports comes in a fixed order: first the
    attribute fields, then at most one mask (a fog volume named by
    [maskname]), then at most one distance field (the level-set output
    grid named by [distancename]), then at most one fog field (the fog
    conversion of that same grid, named by [fogname]); each of the last
    three is present exactly when its toggle is on.  On the topology
    path, and when no attribute is requested, there is no attribute
    field. *)
Theorem cook_export_order (Ext : Externals) (ctx : OP_Context) (self : Node) :
  let P := parms ctx in
  let r := cookVDBSop ctx self in
  gdp r = []
  \/ exists attrs m og,
       gdp r
       = attrs
         ++ (if to_bool (buildmask P) then [mkPrim (FloatGridB m)] else [])
         ++ (if to_bool (builddistance P)
             then [mkPrim (FloatGridB (setName (distancename P) og))] else [])
         ++ (if to_bool (buildfog P)
             then [mkPrim (FloatGridB (setName (fogname P) (sdfToFogVolume og)))] else [])
       /\ gridClass og = GRID_LEVEL_SET
       /\ gridName m = maskname P
       /\ gridClass m = GRID_FOG_VOLUME
       /\ (conversion P <> 0 \/ attrList P = [] -> attrs = []).
Proof.
  intros P r. unfold r.
  destruct (cook_conversion_cases Ext ctx self)
    as [Hnil | (pa & bg & T & og0 & st & -> & Hint & Hst)]; [left; exact Hnil|].
  right.
  destruct (performConversion_exports Ext ctx pa bg T og0 st Hint)
    as (attrs & m & og & Hg & Hc & Hn & Hm & Hattrs & _).
  exists attrs, m, og. rewrite Hg, Hst. split; [reflexivity|]. repeat split; assumption.
Qed.

Lemma cook_export_order_witness :
  let r := cookVDBSop (Ext:=Sample.tools) Sample.everything Sample.freshNode in
  map (fun p => baseName (getGrid p)) (gdp r) = ["id"; "boundingvolume"; "surface"; "density"]
  /\ exists attrs m og,
       gdp r = attrs ++ [mkPrim (FloatGridB m)]
               ++ [mkPrim (FloatGridB (setName "surface" og))]
               ++ [mkPrim (FloatGridB (setName "density" (sdfToFogVolume og)))]
       /\ gridClass og = GRID_LEVEL_SET
       /\ gridName m = "boundingvolume"
       /\ gridClass m = GRID_FOG_VOLUME.
Proof.
  intros r.
  assert (Hnames : map (fun p => baseName (getGrid p)) (gdp r)
                   = ["id"; "boundingvolume"; "surface"; "density"])
    by (vm_compute; reflexivity).
  split; [exact Hnames|].
  destruct (cook_export_order Sample.tools Sample.everything Sample.freshNode)
    as [Hnil | (attrs & m & og & Hg & Hc & Hn & Hm & _)].
  - fold r in Hnil. rewrite Hnil in Hnames. discriminate Hnames.
  - exists attrs, m, og. split; [exact Hg|]. split; [exact Hc|].
    split; [exact Hn | exact Hm].
Defined.

Lemma performConversion_topology_calls (Ext : Externals) ctx pa bg T og0 self :
  conversion (parms ctx) <> 0 ->
  Forall (fun c => isParticleCall c = false) (calls self) ->
  Forall (fun c => isParticleCall c = false) (calls (performConversion ctx pa bg T og0 self)).
Proof.
  intros Hconv Hself.
  destruct (wasInterrupted (calls self)) eqn:Hint.
  { rewrite performConversion_interrupted by exact Hint. exact Hself. }
  rewrite performConversion_unfold by exact Hint. cbv zeta.
  set (tg := targetGrid bg T og0 self).
  set (bw := ceil (to_float (bg / mVoxelSize (snd tg)))).
  set (pc := primaryConversion ctx pa T bw (fst tg) (snd tg)).
  assert (Htg : Forall (fun c => isParticleCall c = false) (calls (snd tg))).
  { unfold tg, targetGrid. destruct og0; cbn [snd FloatGrid_create logCall calls];
      [exact Hself|]. apply Forall_app. split; [exact Hself | repeat constructor]. }
  assert (Hpc : Forall (fun c => isParticleCall c = false) (calls (snd pc))).
  { destruct (primaryConversion_topology Ext ctx pa T bw (fst tg) (snd tg) Hconv)
      as [Hs _]. fold pc in Hs. rewrite Hs. cbn [calls].
    apply Forall_app. split; [exact Htg | repeat constructor]. }
  replace (conversion (parms ctx) =? 0) with false
    by (symmetry; apply Z.eqb_neq; exact Hconv).
  destruct (exportOutputGrid_calls (parms ctx) (fst (fst pc))
              (if to_bool (buildmask (parms ctx))
               then buildMaskVolume ctx pa bg T false bw (snd (fst pc)) (snd pc)
               else snd pc)) as (cs & -> & Hcs).
  apply Forall_app. split; [|exact Hcs].
  destruct (to_bool (buildmask (parms ctx))); [|exact Hpc].
  destruct (buildMaskVolume_topology_calls Ext ctx pa bg T bw (snd (fst pc)) (snd pc))
    as (cs' & -> & Hcs').
  apply Forall_app. split; assumption.
Qed.

Lemma exportOutputGrid_nothing P og self :
  builddistance P = 0 -> buildfog P = 0 -> exportOutputGrid P og self = self.
Proof. intros Hd Hf. unfold exportOutputGrid. rewrite Hd, Hf. reflexivity. Qed.

(** The conversion on the topology path when no mask, distance or fog
    output is requested. *)
Lemma performConversion_topology_only (Ext : Externals) ctx pa bg T og0 self :
  wasInterrupted (calls self) = false ->
  conversion (parms ctx) <> 0 ->
  builddistance (parms ctx) = 0 -> buildfog (parms ctx) = 0 -> buildmask (parms ctx) = 0 ->
  gdp (performConversion ctx pa bg T og0 self) = gdp self
  /\ messages (performConversion ctx pa bg T og0 self) = messages self
  /\ calls (performConversion ctx pa bg T og0 self)
     = calls self
       ++ match og0 with Some _ => [] | None => [Call_FloatGrid_create bg] end
       ++ [Call_GUvdbCreatePointMaskGrid T;
           Call_topologyToLevelSet (ceil (to_float (bg / mVoxelSize self)))
             (closing (parms ctx)) (dilation (parms ctx)) (smoothing (parms ctx));
           Call_csgUnion].
Proof.
  intros Hint Hconv Hd Hf Hm. rewrite performConversion_unfold by exact Hint. cbv zeta.
  rewrite Hm. cbn [to_bool Z.eqb negb].
  rewrite (exportOutputGrid_nothing _ _ _ Hd Hf).
  set (tg := targetGrid bg T og0 self).
  destruct (primaryConversion_topology Ext ctx pa T
              (ceil (to_float (bg / mVoxelSize (snd tg)))) (fst tg) (snd tg) Hconv)
    as [-> _].
  unfold tg, targetGrid. destruct og0 as [g|];
    cbn [FloatGrid_create fst snd logCall gdp messages calls mVoxelSize];
    rewrite <- ?app_assoc; repeat split; reflexivity.
Qed.

Lemma useReference_selected P refPrim bg self :
  (forall d, In d (messages self) ->
             severity d <> SOP_Error /\ text d <> [Str "No output selected"]) ->
  forall d, In d (messages (setupNode (useReference P refPrim bg self))) ->
            severity d <> SOP_Error /\ text d <> [Str "No output selected"].
Proof.
  intros Hself d. unfold useReference.
  repeat case_match; simplify_eq; cbn [setupNode messages logCall addWarning addMessage
    addDiagnostic set_mVoxelSize]; intros Hin;
    repeat (apply in_app_or in Hin; destruct Hin as [Hin | Hin]);
    try (apply Hself; exact Hin);
    destruct Hin as [<- | []]; split; discriminate.
Qed.

(** X7.  The topology path never touches the particles' radii or
    attributes: no cook on it starts a rasterization or an attribute
    transfer, whatever the attribute list says, and what it exports is
    at most the mask, the distance field and the fog field, in this
    order.  In particular a cook that requests only attributes, with
    a voxel size that passes the first guard, a reference primitive
    behind the second input when there is one and an interrupter that
    stays quiet, passes the output-selection guard, runs the topology
    conversion (the point mask, the topology build with the closing,
    dilation and smoothing parameters, and the union are its last
    calls, after the grid creation or the deep copy of the reference)
    and exports nothing. *)
Theorem topology_path_ignores_attributes (Ext : Externals) (ctx : OP_Context)
    (self : Node) :
  conversion (parms ctx) <> 0 ->
  let P := parms ctx in
  let r := cookVDBSop ctx self in
  Forall (fun c => isParticleCall c = false) (calls r)
  /\ (gdp r = []
      \/ exists m og,
           gdp r
           = (if to_bool (buildmask P) then [mkPrim (FloatGridB m)] else [])
             ++ (if to_bool (builddistance P)
                 then [mkPrim (FloatGridB (setName (distancename P) og))] else [])
             ++ (if to_bool (buildfog P)
                 then [mkPrim (FloatGridB (setName (fogname P) (sdfToFogVolume og)))]
                 else [])
           /\ gridClass og = GRID_LEVEL_SET
           /\ gridName m = maskname P
           /\ gridClass m = GRID_FOG_VOLUME)
  /\ (builddistance P = 0 -> buildfog P = 0 -> buildmask P = 0 -> attrList P <> [] ->
      (minVoxelSize <= to_float (voxelsize P))%Qc ->
      (forall refGeo, refGeoInput ctx = Some refGeo ->
                      head (matchGroup refGeo (referencevdb P)) <> None) ->
      (forall cs, wasInterrupted cs = false) ->
      passesGuards P = true
      /\ gdp r = []
      /\ (forall d, In d (messages r) ->
                    severity d <> SOP_Error /\ text d <> [Str "No output selected"])
      /\ exists cs T bandWidth,
           calls r
           = cs ++ [Call_GUvdbCreatePointMaskGrid T;
                    Call_topologyToLevelSet bandWidth (closing P) (dilation P)
                      (smoothing P);
                    Call_csgUnion]
           /\ Forall (fun c => c = Call_deepCopyGrid
                               \/ exists bg, c = Call_FloatGrid_create bg) cs).
Proof.
  intros Hconv P r.
  assert (Hcalls : Forall (fun c => isParticleCall c = false) (calls r)).
  { unfold r. destruct (passesGuards (parms ctx)) eqn:Hguards.
    2:{ destruct (cook_guards_fail Ext ctx self Hguards) as [_ ->]. constructor. }
    rewrite (cook_guards_pass Ext ctx self Hguards). cbv zeta.
    destruct (refGeoInput ctx) as [refGeo|].
    - destruct (head (matchGroup refGeo (referencevdb (parms ctx)))) as [refPrim|].
      + apply performConversion_topology_calls; [exact Hconv|].
        destruct (useReference_calls (parms ctx) refPrim (uiBackground (parms ctx))
                    (cookStart (parms ctx) self)) as [-> | ->]; repeat constructor.
      + constructor.
    - apply performConversion_topology_calls; [exact Hconv | constructor]. }
  split; [exact Hcalls|]. split.
  - unfold r.
    destruct (cook_conversion_cases Ext ctx self)
      as [Hnil | (pa & bg & T & og0 & st & -> & Hint & Hst)]; [left; exact Hnil|].
    destruct (performConversion_exports Ext ctx pa bg T og0 st Hint)
      as (attrs & m & og & Hg & Hc & Hn & Hm & Hattrs & _).
    right. exists m, og. rewrite Hg, Hst, (Hattrs (or_introl Hconv)). cbn [app].
    repeat split; assumption.
  - intros Hd Hf Hm Ha Hvs Href Hint.
    assert (Hguards : passesGuards (parms ctx) = true).
    { unfold passesGuards. apply andb_true_intro. split.
      - apply negb_true_iff, Real_ltb_ge. exact Hvs.
      - unfold evalInt_attrList.
        destruct (attrList (parms ctx)) eqn:E; [exfalso; apply Ha; exact E|].
        cbn. rewrite !orb_true_r. reflexivity. }
    split; [exact Hguards|]. unfold r.
    rewrite (cook_guards_pass Ext ctx self Hguards). cbv zeta.
    destruct (refGeoInput ctx) as [refGeo|] eqn:Eref.
    + destruct (head (matchGroup refGeo (referencevdb (parms ctx)))) as [refPrim|] eqn:Ehead;
        [|exfalso; exact (Href refGeo eq_refl Ehead)].
      set (setup := useReference (parms ctx) refPrim (uiBackground (parms ctx))
                      (cookStart (parms ctx) self)).
      destruct (performConversion_topology_only Ext ctx
                  (ParticleList_new (ptGeoInput ctx) (particlescale (parms ctx))
                     (velocityscale (parms ctx)))
                  (setupBackground setup) (setupTransform setup) (setupOutputGrid setup)
                  (setupNode setup) (Hint _) Hconv Hd Hf Hm) as (-> & -> & ->).
      split; [apply useReference_gdp|]. split.
      * apply useReference_selected. intros d [].
      * eexists _, _, _. split; [rewrite app_assoc; reflexivity|].
        destruct (useReference_calls (parms ctx) refPrim (uiBackground (parms ctx))
                    (cookStart (parms ctx) self)) as [Hc | Hc]; fold setup in Hc;
          rewrite Hc; cbn [cookStart beginCook set_mVoxelSize calls app];
          destruct (setupOutputGrid setup); cbn [app];
          repeat (apply Forall_cons_2;
                  [first [left; reflexivity | right; eexists; reflexivity]|]);
          apply Forall_nil_2.
    + destruct (performConversion_topology_only Ext ctx
                  (ParticleList_new (ptGeoInput ctx) (particlescale (parms ctx))
                     (velocityscale (parms ctx)))
                  (uiBackground (parms ctx))
                  (createLinearTransform (to_float (voxelsize (parms ctx)))) None
                  (cookStart (parms ctx) self) (Hint _) Hconv Hd Hf Hm) as (-> & -> & ->).
      split; [reflexivity|]. split; [intros d []|].
      eexists _, _, _. split; [rewrite app_assoc; reflexivity|].
      cbn [cookStart beginCook set_mVoxelSize calls app].
      apply Forall_cons_2; [right; eexists; reflexivity | apply Forall_nil_2].
Qed.

Lemma topology_path_ignores_attributes_witness :
  let ctx := Sample.topologyAttributeOnly in
  let r := cookVDBSop (Ext:=Sample.tools) ctx Sample.freshNode in
  (conversion (parms ctx) <> 0 /\ attrList (parms ctx) <> []
   /\ (minVoxelSize <= to_float (voxelsize (parms ctx)))%Qc)
  /\ gdp r = []
  /\ length (calls r) = 4%nat
  /\ topologyDilations (calls r) = [1]
  /\ Forall (fun c => isParticleCall c = false) (calls r).
Proof.
  intros ctx r.
  assert (Hconv : conversion (parms ctx) <> 0) by discriminate.
  assert (Ha : attrList (parms ctx) <> []) by discriminate.
  assert (Hvs : (minVoxelSize <= to_float (voxelsize (parms ctx)))%Qc)
    by (vm_compute; discriminate).
  split; [split; [exact Hconv | split; [exact Ha | exact Hvs]]|].
  destruct (topology_path_ignores_attributes Sample.tools ctx Sample.freshNode Hconv)
    as (Hcalls & _ & Hnil).
  destruct (Hnil eq_refl eq_refl eq_refl Ha Hvs) as (_ & Hg & _ & _).
  - intros refGeo Href. discriminate Href.
  - intros cs. reflexivity.
  - split; [exact Hg|]. split; [vm_compute; reflexivity|].
    split; [vm_compute; reflexivity | exact Hcalls].
Defined.

Lemma rasterCalls_app cs1 cs2 : rasterCalls (cs1 ++ cs2) = rasterCalls cs1 ++ rasterCalls cs2.
Proof. apply omap_app. Qed.

Lemma rasterCalls_no_particle_call cs :
  Forall (fun c => isParticleCall c = false) cs -> rasterCalls cs = [].
Proof.
  induction 1 as [|c cs Hc _ IH]; [reflexivity|].
  destruct c; try discriminate; exact IH.
Qed.

Lemma convert_rasterCalls (Ext : Externals) P og pa self :
  rasterCalls (calls (snd (convert P og pa self)))
  = rasterCalls (calls self) ++ [(false, minradius P, Rmax, rasterJob P pa, og)].
Proof. rewrite convert_calls, rasterCalls_app. reflexivity. Qed.

Lemma convertWithAttributes_rasterCalls (Ext : Externals) P og pa ptGeo self :
  rasterCalls (calls (snd (convertWithAttributes P og pa ptGeo self)))
  = rasterCalls (calls self) ++ [(true, minradius P, Rmax, rasterJob P pa, og)].
Proof.
  unfold convertWithAttributes.
  set (rc := Call_ParticlesToLevelSet true (minradius P) Rmax (rasterJob P pa) og).
  set (raster := ParticlesToLevelSet true (minradius P) Rmax (rasterJob P pa) og).
  set (self1 := if ignoredParticles raster then _ else _).
  assert (H1 : calls self1 = calls self ++ [rc])
    by (unfold self1; destruct (ignoredParticles raster); reflexivity).
  set (idx := attributeGrid raster (setVoxels (sdfVoxels raster) og)).
  set (st := constructGenericAtttributeList P [] ptGeo idx self1).
  assert (H2 : calls (loopNode st) = calls self ++ [rc]).
  { unfold st, constructGenericAtttributeList.
    destruct (attrLoop_node Ext P ptGeo idx (Z.to_nat (evalInt_attrList P)) 1
                (mkAttrLoop [] (-1) self1)) as (ms & -> & _). exact H1. }
  destruct (wasInterrupted (calls self1)); cbn [snd];
    [rewrite H1, rasterCalls_app; reflexivity|].
  destruct (0 <? evalInt_attrList P); cbn [snd];
    [|rewrite H1, rasterCalls_app; reflexivity].
  destruct (-1 <? closestPointIndexInstance st); cbn [snd];
    rewrite ?transferAttributes_eq; cbn [createVdbPrimitive calls]; rewrite H2;
    rewrite !rasterCalls_app; cbn; rewrite app_nil_r; reflexivity.
Qed.

Lemma primaryConversion_rasterCalls (Ext : Externals) ctx pa T bw og self :
  rasterCalls (calls (snd (primaryConversion ctx pa T bw og self)))
  = rasterCalls (calls self)
    ++ (if conversion (parms ctx) =? 0
        then [(0 <? evalInt_attrList (parms ctx), minradius (parms ctx), Rmax,
               rasterJob (parms ctx) pa, og)]
        else []).
Proof.
  destruct (conversion (parms ctx) =? 0) eqn:Hconv.
  - unfold primaryConversion. rewrite Hconv.
    set (self1 := if _ : bool then addWarning _ self else self).
    assert (H1 : calls self1 = calls self) by (unfold self1; case_match; reflexivity).
    destruct (0 <? evalInt_attrList (parms ctx)).
    + pose proof (convertWithAttributes_rasterCalls Ext (parms ctx) og pa (ptGeoInput ctx)
                    self1) as Hcs.
      destruct (convertWithAttributes _ _ _ _ _) as [g s]. cbn [fst snd] in *.
      rewrite Hcs, H1. reflexivity.
    + pose proof (convert_rasterCalls Ext (parms ctx) og pa self1) as Hcs.
      destruct (convert _ _ _ _) as [g s]. cbn [fst snd] in *.
      rewrite Hcs, H1. reflexivity.
  - apply Z.eqb_neq in Hconv.
    destruct (primaryConversion_topology Ext ctx pa T bw og self Hconv) as [-> _].
    cbn [calls]. rewrite rasterCalls_app. reflexivity.
Qed.

Lemma setRadiusMult_twice a b pa : setRadiusMult b (setRadiusMult a pa) = setRadiusMult b pa.
Proof. reflexivity. Qed.

(** The rasterizations of the mask builder. *)
Lemma buildMaskVolume_rasterCalls (Ext : Externals) ctx pa bg T doSphere bw pm self :
  let P := parms ctx in
  let o := clampOffset (boundinglimit P) in
  rasterCalls (calls (buildMaskVolume ctx pa bg T doSphere bw pm self))
  = rasterCalls (calls self)
    ++ (if doSphere && Real_ltb (real 0) o
        then [(false, minradius P, Rmax,
               rasterJob P (setRadiusMult (radiusMult pa * (1 + o))%Qc pa), maskTarget bg T);
              (false, minradius P, Rmax,
               rasterJob P (setRadiusMult (radiusMult pa * (1 - o))%Qc pa), maskTarget bg T)]
        else []).
Proof.
  intros P o. unfold o, P.
  destruct (Real_ltb (real 0) (clampOffset (boundinglimit (parms ctx)))) eqn:E.
  - destruct doSphere; cbn [andb].
    + rewrite (buildMaskVolume_calls_spheres Ext ctx pa bg T bw pm self E).
      rewrite rasterCalls_app. reflexivity.
    + destruct (buildMaskVolume_topology_calls Ext ctx pa bg T bw pm self)
        as (cs & -> & Hcs).
      rewrite rasterCalls_app, (rasterCalls_no_particle_call cs Hcs). reflexivity.
  - rewrite andb_false_r.
    rewrite (buildMaskVolume_zero_offset Ext ctx pa bg T doSphere bw pm self E).
    cbn [createVdbPrimitive logCall calls]. rewrite !rasterCalls_app. cbn.
    rewrite !app_nil_r. reflexivity.
Qed.

Lemma performConversion_rasterCalls (Ext : Externals) ctx pa bg T og0 self :
  let P := parms ctx in
  let o := clampOffset (boundinglimit P) in
  rasterCalls (calls (performConversion ctx pa bg T og0 self))
  = rasterCalls (calls self)
    ++ (if negb (wasInterrupted (calls self)) && (conversion P =? 0)
        then (0 <? evalInt_attrList P, minradius P, Rmax, rasterJob P pa,
              fst (targetGrid bg T og0 self))
             :: (if to_bool (buildmask P) && Real_ltb (real 0) o
                 then [(false, minradius P, Rmax,
                        rasterJob P (setRadiusMult (radiusMult pa * (1 + o))%Qc pa),
                        maskTarget bg T);
                       (false, minradius P, Rmax,
                        rasterJob P (setRadiusMult (radiusMult pa * (1 - o))%Qc pa),
                        maskTarget bg T)]
                 else [])
        else []).
Proof.
  intros P o. unfold P, o.
  destruct (wasInterrupted (calls self)) eqn:Hint; cbn [negb andb].
  { rewrite performConversion_interrupted by exact Hint. symmetry. apply app_nil_r. }
  rewrite performConversion_unfold by exact Hint. cbv zeta.
  set (tg := targetGrid bg T og0 self).
  set (bw := ceil (to_float (bg / mVoxelSize (snd tg)))).
  set (pc := primaryConversion ctx pa T bw (fst tg) (snd tg)).
  assert (Htg : calls (snd tg) = calls self ++ match og0 with
                                                | Some _ => []
                                                | None => [Call_FloatGrid_create bg]
                                                end).
  { unfold tg, targetGrid. destruct og0; cbn [snd FloatGrid_create logCall calls];
      [symmetry; apply app_nil_r | reflexivity]. }
  assert (Htgr : rasterCalls (calls (snd tg)) = rasterCalls (calls self)).
  { rewrite Htg, rasterCalls_app. destruct og0; cbn; apply app_nil_r. }
  pose proof (primaryConversion_rasterCalls Ext ctx pa T bw (fst tg) (snd tg)) as Hpc.
  fold pc in Hpc. rewrite Htgr in Hpc.
  destruct (exportOutputGrid_calls (parms ctx) (fst (fst pc))
              (if to_bool (buildmask (parms ctx))
               then buildMaskVolume ctx pa bg T (conversion (parms ctx) =? 0) bw
                      (snd (fst pc)) (snd pc)
               else snd pc)) as (cs & -> & Hcs).
  rewrite rasterCalls_app, (rasterCalls_no_particle_call cs Hcs), app_nil_r.
  destruct (to_bool (buildmask (parms ctx))); cbn [andb].
  - rewrite buildMaskVolume_rasterCalls. cbv zeta. rewrite Hpc, <- app_assoc.
    destruct (conversion (parms ctx) =? 0); cbn [andb app]; reflexivity.
  - rewrite Hpc. destruct (conversion (parms ctx) =? 0); reflexivity.
Qed.

(** X8.  A cook rasterizes the particles at most three times, and only
    on the sphere path: once into the output grid, which is the only
    rasterization that may build the index grid, and, when the mask is
    requested with a positive clamped bounding limit, twice more into
    fresh grids for the outer and the inner mask surface.  All of them
    use the same radius limits ([minradius] and 1e15) and the entry
    point chosen for the cook's particle list with only its radius
    multiplier replaced. *)
Theorem cook_rasterizations (Ext : Externals) (ctx : OP_Context) (self : Node) :
  let P := parms ctx in
  let pa := cookParticles ctx in
  let o := clampOffset (boundinglimit P) in
  let rs := rasterCalls (calls (cookVDBSop ctx self)) in
  rs = []
  \/ exists target bg T,
       conversion P = 0
       /\ gridClass target = GRID_LEVEL_SET
       /\ transform target = T
       /\ rs = (0 <? evalInt_attrList P, minradius P, Rmax, rasterJob P pa, target)
               :: (if to_bool (buildmask P) && Real_ltb (real 0) o
                   then [(false, minradius P, Rmax,
                          rasterJob P (setRadiusMult (particlescale P * (1 + o))%Qc pa),
                          maskTarget bg T);
                         (false, minradius P, Rmax,
                          rasterJob P (setRadiusMult (particlescale P * (1 - o))%Qc pa),
                          maskTarget bg T)]
                   else []).
Proof.
  intros P pa o rs. unfold rs.
  assert (Hstage : forall bg T og0 st,
            rasterCalls (calls st) = [] ->
            rasterCalls (calls (performConversion ctx pa bg T og0 st)) = []
            \/ exists target bg' T',
                 conversion P = 0
                 /\ gridClass target = GRID_LEVEL_SET
                 /\ transform target = T'
                 /\ rasterCalls (calls (performConversion ctx pa bg T og0 st))
                    = (0 <? evalInt_attrList P, minradius P, Rmax, rasterJob P pa, target)
                      :: (if to_bool (buildmask P) && Real_ltb (real 0) o
                          then [(false, minradius P, Rmax,
                                 rasterJob P
                                   (setRadiusMult (particlescale P * (1 + o))%Qc pa),
                                 maskTarget bg' T');
                                (false, minradius P, Rmax,
                                 rasterJob P
                                   (setRadiusMult (particlescale P * (1 - o))%Qc pa),
                                 maskTarget bg' T')]
                          else [])).
  { intros bg T og0 st Hst.
    rewrite performConversion_rasterCalls. cbv zeta. rewrite Hst. cbn [app].
    destruct (negb (wasInterrupted (calls st)) && (conversion (parms ctx) =? 0)) eqn:E;
      [|left; reflexivity].
    right. apply andb_prop in E. destruct E as [_ Hconv]. apply Z.eqb_eq in Hconv.
    destruct (targetGrid_spec Ext T bg og0 st) as (_ & HT & HC & _).
    exists (fst (targetGrid bg T og0 st)), bg, T.
    split; [exact Hconv|]. split; [exact HC|]. split; [exact HT|]. reflexivity. }
  destruct (passesGuards (parms ctx)) eqn:Hguards.
  2:{ left. destruct (cook_guards_fail Ext ctx self Hguards) as [_ ->]. reflexivity. }
  rewrite (cook_guards_pass Ext ctx self Hguards). cbv zeta.
  fold (cookParticles ctx). fold pa.
  destruct (refGeoInput ctx) as [refGeo|].
  - destruct (head (matchGroup refGeo (referencevdb (parms ctx)))) as [refPrim|].
    + apply Hstage.
      destruct (useReference_calls (parms ctx) refPrim (uiBackground (parms ctx))
                  (cookStart (parms ctx) self)) as [-> | ->]; reflexivity.
    + left. reflexivity.
  - apply Hstage. reflexivity.
Qed.

(** A cook either does no work at all, or is the conversion stage run
    on the cook's particle list from a state without primitives whose
    only possible earlier call is the copy of the reference grid. *)
Lemma cook_stage (Ext : Externals) ctx self :
  (calls (cookVDBSop ctx self) = [] /\ gdp (cookVDBSop ctx self) = [])
  \/ exists bg T og0 st,
       cookVDBSop ctx self = performConversion ctx (cookParticles ctx) bg T og0 st
       /\ passesGuards (parms ctx) = true
       /\ gdp st = []
       /\ (calls st = [] \/ calls st = [Call_deepCopyGrid]).
Proof.
  destruct (passesGuards (parms ctx)) eqn:Hguards.
  2:{ left. destruct (cook_guards_fail Ext ctx self Hguards) as [-> ->]. auto. }
  rewrite (cook_guards_pass Ext ctx self Hguards). cbv zeta.
  fold (cookParticles ctx).
  destruct (refGeoInput ctx) as [refGeo|].
  - destruct (head (matchGroup refGeo (referencevdb (parms ctx)))) as [refPrim|].
    + right. eexists _, _, _, _. split; [reflexivity|]. split; [reflexivity|].
      split; [apply useReference_gdp|].
      apply (useReference_calls (parms ctx) refPrim (uiBackground (parms ctx))
               (cookStart (parms ctx) self)).
    + left. auto.
  - right. eexists _, _, _, _. split; [reflexivity|]. split; [reflexivity|]. auto.
Qed.

Lemma primaryConversion_trails_warning (Ext : Externals) ctx pa T bw og self :
  conversion (parms ctx) = 0 ->
  velocitytrails (parms ctx) <> 0 ->
  hasVelocity pa = false ->
  In trailsWarning (messages (snd (primaryConversion ctx pa T bw og self))).
Proof.
  intros Hconv Htrails Hvel. unfold primaryConversion. rewrite Hconv, Hvel. cbn [Z.eqb negb].
  replace (velocitytrails (parms ctx) =? 0) with false
    by (symmetry; apply Z.eqb_neq; exact Htrails).
  cbn [negb andb].
  set (self1 := addWarning _ self).
  assert (H1 : In trailsWarning (messages self1))
    by (unfold self1; cbn; apply in_or_app; right; left; reflexivity).
  destruct (0 <? evalInt_attrList (parms ctx)).
  - pose proof (convertWithAttributes_grows Ext (transform og) (parms ctx) og pa
                  (ptGeoInput ctx) self1 eq_refl) as Hg.
    destruct (convertWithAttributes _ _ _ _ _) as [g s]. cbn [fst snd] in *.
    exact (grows_In_messages _ _ _ _ Hg H1).
  - pose proof (convert_grows Ext (transform og) (parms ctx) og pa self1) as Hg.
    destruct (convert _ _ _ _) as [g s]. cbn [fst snd] in *.
    exact (grows_In_messages _ _ _ _ Hg H1).
Qed.

Lemma performConversion_trails_warning (Ext : Externals) ctx pa bg T og0 self :
  wasInterrupted (calls self) = false ->
  conversion (parms ctx) = 0 ->
  velocitytrails (parms ctx) <> 0 ->
  hasVelocity pa = false ->
  In trailsWarning (messages (performConversion ctx pa bg T og0 self)).
Proof.
  intros Hint Hconv Htrails Hvel.
  rewrite performConversion_unfold by exact Hint. cbv zeta.
  set (tg := targetGrid bg T og0 self).
  set (bw := ceil (to_float (bg / mVoxelSize (snd tg)))).
  set (pc := primaryConversion ctx pa T bw (fst tg) (snd tg)).
  destruct (targetGrid_spec Ext T bg og0 self) as (_ & T1 & _ & _). fold tg in T1.
  destruct (primaryConversion_spec Ext ctx pa T bw (fst tg) (snd tg) T1)
    as (_ & T2 & _ & _ & Hpm). fold pc in T2, Hpm.
  pose proof (primaryConversion_trails_warning Ext ctx pa T bw (fst tg) (snd tg)
                Hconv Htrails Hvel) as Hw. fold pc in Hw.
  eapply grows_In_messages; [apply (exportOutputGrid_grows T); exact T2|].
  destruct (to_bool (buildmask (parms ctx))); [|exact Hw].
  eapply grows_In_messages; [apply buildMaskVolume_grows; exact Hpm | exact Hw].
Qed.

Lemma rasterJob_isTrails P pa :
  isTrails (rasterJob P pa) = (velocitytrails P =? 1) && hasVelocity pa.
Proof. unfold rasterJob. repeat case_match; reflexivity. Qed.

(** X9.  Whenever a cook rasterizes, every rasterization of it reads
    velocities (the trail entry point) exactly when [velocitytrails] is
    1 and the first input has a velocity attribute; it then reads them
    through the cook's particle list, whose velocity multiplier is
    [velocityscale] and whose trail spacing is [trailresolution]
    narrowed to single precision.  When trails are requested and the
    velocity attribute is missing, the cook rasterizes spheres and
    records a warning. *)
Theorem velocity_trails (Ext : Externals) (ctx : OP_Context) (self : Node) :
  let P := parms ctx in
  let pa := cookParticles ctx in
  let r := cookVDBSop ctx self in
  rasterCalls (calls r) <> [] ->
  Forall (fun e =>
            let job := snd (fst e) in
            isTrails job = (velocitytrails P =? 1) && hasVelocity pa
            /\ (isTrails job = true ->
                exists pa', job = rasterizeTrails pa' (to_float (trailresolution P))
                            /\ mGdp pa' = ptGeoInput ctx
                            /\ mVelocityMult pa' = velocityscale P))
         (rasterCalls (calls r))
  /\ (velocitytrails P <> 0 -> hasVelocity pa = false -> In trailsWarning (messages r)).
Proof.
  intros P pa r Hrs. unfold r in *.
  destruct (cook_stage Ext ctx self)
    as [[Hc _] | (bg & T & og0 & st & Hr & _ & _ & Hst)];
    [rewrite Hc in Hrs; contradiction|].
  rewrite Hr in *. fold pa in Hrs |- *.
  assert (Hst0 : rasterCalls (calls st) = []) by (destruct Hst as [-> | ->]; reflexivity).
  rewrite performConversion_rasterCalls in Hrs |- *. cbv zeta in Hrs |- *.
  rewrite Hst0 in Hrs |- *. cbn [app] in Hrs |- *.
  destruct (wasInterrupted (calls st)) eqn:Hint; [contradiction|].
  destruct (conversion (parms ctx) =? 0) eqn:Hconv; [|contradiction].
  apply Z.eqb_eq in Hconv. cbn [negb andb].
  assert (Hjob : forall m,
            let job := rasterJob P (setRadiusMult m pa) in
            isTrails job = (velocitytrails P =? 1) && hasVelocity pa
            /\ (isTrails job = true ->
                exists pa', job = rasterizeTrails pa' (to_float (trailresolution P))
                            /\ mGdp pa' = ptGeoInput ctx
                            /\ mVelocityMult pa' = velocityscale P)).
  { intros m job. unfold job. rewrite rasterJob_isTrails. split; [reflexivity|].
    unfold rasterJob. intros Ht.
    change (hasVelocity (setRadiusMult m pa)) with (hasVelocity pa) in *.
    rewrite Ht. eexists. split; [reflexivity|]. split; reflexivity. }
  split.
  - constructor; [exact (Hjob (radiusMult pa))|].
    destruct (to_bool (buildmask (parms ctx)) && _); repeat constructor; apply Hjob.
  - intros Htrails Hvel.
    apply performConversion_trails_warning; assumption.
Qed.

Lemma velocity_trails_witness :
  let without := cookVDBSop (Ext:=Sample.tools) Sample.trailsWithoutVelocity Sample.freshNode in
  let with_ := cookVDBSop (Ext:=Sample.tools) Sample.trailsWithVelocity Sample.freshNode in
  (rasterCalls (calls without) <> [] /\ rasterCalls (calls with_) <> [])
  /\ In trailsWarning (messages without)
  /\ Forall (fun e => isTrails (snd (fst e)) = false) (rasterCalls (calls without))
  /\ Forall (fun e => isTrails (snd (fst e)) = true) (rasterCalls (calls with_)).
Proof.
  intros without with_.
  assert (H1 : rasterCalls (calls without) <> []) by (vm_compute; discriminate).
  assert (H2 : rasterCalls (calls with_) <> []) by (vm_compute; discriminate).
  split; [split; assumption|].
  destruct (velocity_trails Sample.tools Sample.trailsWithoutVelocity Sample.freshNode H1)
    as [Hjobs Hwarn].
  destruct (velocity_trails Sample.tools Sample.trailsWithVelocity Sample.freshNode H2)
    as [Hjobs' _].
  split; [apply Hwarn; [discriminate | reflexivity]|].
  split.
  - eapply Forall_impl; [exact Hjobs|]. intros e [He _]. exact He.
  - eapply Forall_impl; [exact Hjobs'|]. intros e [He _]. exact He.
Defined.

(** ** The attribute descriptors *)

Lemma foldl_push_back (f : Z -> AttributeDetail) (cs : list Z) : forall l,
  foldl (fun acc c => push_back (f c) acc) l cs = l ++ map f cs.
Proof.
  induction cs as [|c cs IH]; intros l; cbn [foldl map].
  - symmetry. apply app_nil_r.
  - rewrite IH. unfold push_back. rewrite <- app_assoc. reflexivity.
Qed.

Lemma append_empty_r (s : string) : String.append s "" = s.
Proof.
  induction s as [|a s IH]; [reflexivity|].
  change (String a (String.append s "") = String a s). rewrite IH. reflexivity.
Qed.

Lemma baseActive_topologyCopy ty (idx : Int32Grid) (v : denote ty) vt :
  baseActive (toBase ty (setVectorType vt (topologyCopy idx v))) = dom (voxels idx)
  /\ baseActive (toBase ty (topologyCopy idx v)) = dom (voxels idx).
Proof. destruct ty; cbn; split; apply dom_fmap_L. Qed.

Lemma addAttributeDetails_descriptors (Ext : Externals) ty l attr aif n idx cn vt :
  exists ds,
    addAttributeDetails ty l attr aif n idx cn vt = l ++ ds
    /\ Forall (fun d => adAttribute d = attr /\ adIsVector d = negb (vt =? -1)) ds.
Proof.
  unfold addAttributeDetails.
  destruct (vt =? -1); cbn [negb].
  - set (f := fun c : Z =>
                let d := mkAttributeDetail
                           (toBase ty (topologyCopy idx (evalAttrDefault ty (getDefaults aif) c)))
                           attr c false (AttributeDetail_defaultName attr c false) in
                if 0 <? Z.of_nat (String.length cn)
                then set_adName
                       (String.append cn
                          (if negb (n =? 1) then String.append "_" (pretty c) else "")) d
                else d).
    exists (map f (seqZ 0 n)).
    split; [exact (foldl_push_back f (seqZ 0 n) l)|].
    apply Forall_fmap, Forall_true. intros c. unfold f. cbn.
    destruct (0 <? Z.of_nat (String.length cn)); split; reflexivity.
  - eexists. unfold push_back. split; [reflexivity|].
    constructor; [|constructor].
    destruct (0 <? Z.of_nat (String.length cn)); split; reflexivity.
Qed.

(** X11.  [addAttributeDetails] keeps the descriptors it is given and
    appends one descriptor when a vector type is passed, and otherwise
    one per tuple component (none for a tuple size below one), in
    component order.  Each new descriptor is bound to the attribute,
    its grid has exactly the active voxels of the index grid, and its
    name is the default name when no output name is given, the output
    name for a vector or a single component, and the output name
    followed by an underscore and the component number otherwise. *)
Theorem addAttributeDetails_components (Ext : Externals) ty l attr aif n idx cn vt :
  exists ds,
    addAttributeDetails ty l attr aif n idx cn vt = l ++ ds
    /\ length ds = (if vt =? -1 then Z.to_nat n else 1%nat)
    /\ forall k d, ds !! k = Some d ->
         adAttribute d = attr
         /\ adIsVector d = negb (vt =? -1)
         /\ adTupleIndex d = (if vt =? -1 then Z.of_nat k else 0)
         /\ baseActive (adGrid d) = dom (voxels idx)
         /\ adName d
            = (if (String.length cn =? 0)%nat
               then AttributeDetail_defaultName attr (adTupleIndex d) (adIsVector d)
               else if (vt =? -1) && negb (n =? 1)
                    then String.append cn (String.append "_" (pretty (Z.of_nat k)))
                    else cn).
Proof.
  unfold addAttributeDetails.
  assert (Hlen : (0 <? Z.of_nat (String.length cn)) = negb (String.length cn =? 0)%nat).
  { destruct cn; reflexivity. }
  rewrite Hlen.
  destruct (vt =? -1) eqn:Hvt; cbn [negb andb].
  - set (f := fun c : Z =>
                let d := mkAttributeDetail
                           (toBase ty (topologyCopy idx (evalAttrDefault ty (getDefaults aif) c)))
                           attr c false (AttributeDetail_defaultName attr c false) in
                if negb (String.length cn =? 0)%nat
                then set_adName
                       (String.append cn
                          (if negb (n =? 1) then String.append "_" (pretty c) else "")) d
                else d).
    exists (map f (seqZ 0 n)).
    split; [exact (foldl_push_back f (seqZ 0 n) l)|].
    split; [rewrite length_map; apply length_seqZ|].
    intros k d Hk. rewrite list_lookup_fmap in Hk.
    destruct (seqZ 0 n !! k) as [c|] eqn:Hc; [|discriminate].
    apply lookup_seqZ in Hc. destruct Hc as [Hc _]. cbn in Hk. injection Hk as <-.
    assert (Hck : c = Z.of_nat k) by lia. subst c. unfold f.
    destruct (String.length cn =? 0)%nat; cbn [negb set_adName adAttribute adIsVector
      adTupleIndex adGrid adName];
      (split; [reflexivity|]); (split; [reflexivity|]); (split; [reflexivity|]);
      (split; [apply baseActive_topologyCopy; exact 0|]); [reflexivity|].
    destruct (n =? 1); cbn [negb]; [apply append_empty_r | reflexivity].
  - eexists. unfold push_back. split; [reflexivity|]. split; [reflexivity|].
    intros k d Hk. destruct k as [|k]; [|destruct k; discriminate].
    cbn in Hk. injection Hk as <-.
    destruct (String.length cn =? 0)%nat; cbn [negb set_adName adAttribute adIsVector
      adTupleIndex adGrid adName];
      (split; [reflexivity|]); (split; [reflexivity|]); (split; [reflexivity|]);
      (split; [apply baseActive_topologyCopy|]); reflexivity.
Qed.

Lemma addAttributeDetails_components_witness :
  exists ds,
    addAttributeDetails (Ext:=Sample.tools) TFloat [] Sample.colour Sample.colourTuple 3
      Sample.emptyIndex "Cd" (-1) = ds
    /\ length ds = 3%nat
    /\ forall d, ds !! 2%nat = Some d ->
                 adName d = "Cd_2" /\ adTupleIndex d = 2 /\ adIsVector d = false.
Proof.
  destruct (addAttributeDetails_components Sample.tools TFloat [] Sample.colour
              Sample.colourTuple 3 Sample.emptyIndex "Cd" (-1)) as (ds & Hds & Hlen & Hk).
  exists ds. split; [exact Hds|]. split; [exact Hlen|].
  intros d Hd. destruct (Hk 2%nat d Hd) as (_ & Hv & Hi & _ & Hn).
  split; [exact Hn|]. split; [exact Hi | exact Hv].
Defined.

Lemma attrLoopBody_step (Ext : Externals) P ptGeo idx i st :
  let name := attribute (evalInst P i) in
  exists ds ws,
    pointAttributes (attrLoopBody P ptGeo idx i st) = pointAttributes st ++ ds
    /\ loopNode (attrLoopBody P ptGeo idx i st) = withMessages ws (loopNode st)
    /\ (length ws <= 1)%nat
    /\ Forall (fun w => severity w = SOP_Warning) ws
    /\ Forall (descriptorOrigin P ptGeo i (i + 1)) ds
    /\ (name <> "" -> name <> point_list_index -> findPointAttribute ptGeo name = None ->
        ws = [unknownAttributeWarning name]).
Proof.
  intros name. unfold attrLoopBody. fold name.
  assert (Hskip : forall s : AttrLoop,
            pointAttributes s = pointAttributes st -> loopNode s = loopNode st ->
            (name <> "" -> name <> point_list_index ->
             findPointAttribute ptGeo name = None -> False) ->
            exists ds ws,
              pointAttributes s = pointAttributes st ++ ds
              /\ loopNode s = withMessages ws (loopNode st)
              /\ (length ws <= 1)%nat
              /\ Forall (fun w => severity w = SOP_Warning) ws
              /\ Forall (descriptorOrigin P ptGeo i (i + 1)) ds
              /\ (name <> "" -> name <> point_list_index ->
                  findPointAttribute ptGeo name = None ->
                  ws = [unknownAttributeWarning name])).
  { intros s Hp Hn Hno. exists [], []. rewrite app_nil_r, withMessages_nil.
    repeat split; auto. intros H1 H2 H3. destruct (Hno H1 H2 H3). }
  assert (Hwarn : forall t,
            (name <> "" -> name <> point_list_index ->
             findPointAttribute ptGeo name = None ->
             mkDiagnostic SOP_Warning t = unknownAttributeWarning name) ->
            exists ds ws,
              pointAttributes st = pointAttributes st ++ ds
              /\ addWarning t (loopNode st) = withMessages ws (loopNode st)
              /\ (length ws <= 1)%nat
              /\ Forall (fun w => severity w = SOP_Warning) ws
              /\ Forall (descriptorOrigin P ptGeo i (i + 1)) ds
              /\ (name <> "" -> name <> point_list_index ->
                  findPointAttribute ptGeo name = None ->
                  ws = [unknownAttributeWarning name])).
  { intros t Ht. exists [], [mkDiagnostic SOP_Warning t]. rewrite app_nil_r.
    split; [reflexivity|]. split; [reflexivity|]. split; [cbn; lia|].
    split; [repeat constructor|]. split; [constructor|].
    intros H1 H2 H3. rewrite (Ht H1 H2 H3). reflexivity. }
  destruct (String.length name =? 0)%nat eqn:Hlen.
  { apply Hskip; try reflexivity. intros Hne _ _. apply Hne.
    apply Nat.eqb_eq in Hlen. destruct name; [reflexivity | discriminate]. }
  destruct (String.eqb name point_list_index) eqn:Hres.
  { apply Hskip; try reflexivity. intros _ Hne _. apply Hne.
    apply String.eqb_eq. exact Hres. }
  apply String.eqb_neq in Hres.
  destruct (findPointAttribute ptGeo name) as [attr|] eqn:Hfind; cbn [pointAttributes loopNode].
  2:{ apply Hwarn. reflexivity. }
  destruct (getAIFTuple attr) as [aif|] eqn:Haif; cbn [pointAttributes loopNode].
  2:{ apply Hwarn. intros _ _ [=]. }
  fold (vectorTypeInfo (getTypeInfo attr)).
  assert (Hadd : forall ty vt,
            supportedStorage (getStorage aif) = true ->
            (vt <> -1 ->
             getStorage aif <> GA_STORE_INT64
             /\ vectorTypeInfo (getTypeInfo attr) || (getTupleSize aif =? 3) = true
             /\ vecType (evalInst P i) <> -1) ->
            exists ds ws,
              addAttributeDetails ty (pointAttributes st) attr aif (getTupleSize aif) idx
                (attributeGridName (evalInst P i)) vt = pointAttributes st ++ ds
              /\ loopNode st = withMessages ws (loopNode st)
              /\ (length ws <= 1)%nat
              /\ Forall (fun w => severity w = SOP_Warning) ws
              /\ Forall (descriptorOrigin P ptGeo i (i + 1)) ds
              /\ (name <> "" -> name <> point_list_index ->
                  Some attr = None ->
                  ws = [unknownAttributeWarning name])).
  { intros ty vt Hsup Hvec.
    destruct (addAttributeDetails_descriptors Ext ty (pointAttributes st) attr aif
                (getTupleSize aif) idx (attributeGridName (evalInst P i)) vt)
      as (ds & Hds & Hall).
    exists ds, []. rewrite withMessages_nil.
    split; [exact Hds|]. split; [reflexivity|]. split; [cbn; lia|].
    split; [constructor|]. split; [|intros _ _ [=]].
    eapply Forall_impl; [exact Hall|]. intros d [Hd Hv].
    exists i, aif. rewrite Hd. fold name.
    split; [lia|]. split; [exact Hfind|]. split; [exact Hlen|]. split; [exact Hres|].
    split; [exact Haif|]. split; [exact Hsup|].
    intros Hisv. rewrite Hisv in Hv. apply Hvec. intros ->. discriminate. }
  destruct (getStorage aif) eqn:Hst; cbn [pointAttributes loopNode];
    try (apply Hwarn; intros _ _ [=]);
    try (destruct (vectorTypeInfo (getTypeInfo attr) || (getTupleSize aif =? 3)) eqn:Hv;
         cbn [pointAttributes loopNode]);
    apply Hadd; try reflexivity;
    try (intros Hvt; exfalso; apply Hvt; reflexivity);
    intros Hvt; (split; [discriminate|]); (split; [reflexivity|]); exact Hvt.
Qed.

Lemma descriptorOrigin_widen P ptGeo lo hi lo' hi' d :
  lo' <= lo -> hi <= hi' ->
  descriptorOrigin P ptGeo lo hi d -> descriptorOrigin P ptGeo lo' hi' d.
Proof.
  intros Hlo Hhi (i & aif & Hi & Hrest). exists i, aif. split; [lia | exact Hrest].
Qed.

Lemma attrLoop_steps (Ext : Externals) P ptGeo idx n : forall i0 st,
  exists ds ws,
    pointAttributes (attrLoop P ptGeo idx n i0 st) = pointAttributes st ++ ds
    /\ loopNode (attrLoop P ptGeo idx n i0 st) = withMessages ws (loopNode st)
    /\ (length ws <= n)%nat
    /\ Forall (fun w => severity w = SOP_Warning) ws
    /\ Forall (descriptorOrigin P ptGeo i0 (i0 + Z.of_nat n)) ds
    /\ (forall i, i0 <= i < i0 + Z.of_nat n ->
          attribute (evalInst P i) <> "" ->
          attribute (evalInst P i) <> point_list_index ->
          findPointAttribute ptGeo (attribute (evalInst P i)) = None ->
          In (unknownAttributeWarning (attribute (evalInst P i))) ws).
Proof.
  induction n as [|n IH]; intros i0 st; cbn [attrLoop].
  - exists [], []. rewrite app_nil_r, withMessages_nil.
    repeat split; auto. intros i Hi. lia.
  - destruct (IH (i0 + 1) (attrLoopBody P ptGeo idx i0 st))
      as (ds2 & ws2 & -> & -> & L2 & W2 & O2 & U2).
    destruct (attrLoopBody_step Ext P ptGeo idx i0 st)
      as (ds1 & ws1 & -> & -> & L1 & W1 & O1 & U1).
    exists (ds1 ++ ds2), (ws1 ++ ws2).
    rewrite withMessages_app, <- app_assoc.
    split; [reflexivity|]. split; [reflexivity|].
    split; [rewrite length_app; lia|].
    split; [apply Forall_app; auto|].
    split.
    + apply Forall_app. split.
      * eapply Forall_impl; [exact O1|]. intros d.
        apply descriptorOrigin_widen; lia.
      * eapply Forall_impl; [exact O2|]. intros d.
        apply descriptorOrigin_widen; lia.
    + intros i Hi H1 H2 H3. apply in_or_app.
      destruct (Z.eq_dec i i0) as [-> | Hne].
      * left. rewrite (U1 H1 H2 H3). left. reflexivity.
      * right. apply U2; [lia | assumption..].
Qed.

(** X12.  [constructGenericAtttributeList] keeps the descriptors it is
    given and changes the node only by warnings, at most one per
    instance.  Every descriptor it appends comes from an instance that
    names, by a name that is neither empty nor reserved, a point
    attribute of the first input with a tuple interface over 16, 32 or 64 bit integers or
    reals; vector descriptors are never built for 64-bit integers nor
    for a vector type of -1, and only for a vector type qualifier or
    three components.  Every instance whose name is neither empty nor
    reserved and is not an attribute of the first input is reported by
    a warning that quotes the name. *)
Theorem attribute_list_construction (Ext : Externals) (P : Parms)
    (l0 : list AttributeDetail) (ptGeo : GU_Detail) (idx : Int32Grid) (self : Node) :
  let N := evalInt_attrList P in
  let r := constructGenericAtttributeList P l0 ptGeo idx self in
  exists ds ws,
    pointAttributes r = l0 ++ ds
    /\ loopNode r = withMessages ws self
    /\ (length ws <= length (attrList P))%nat
    /\ Forall (fun w => severity w = SOP_Warning) ws
    /\ Forall (descriptorOrigin P ptGeo 1 (N + 1)) ds
    /\ (forall i, 1 <= i <= N ->
          attribute (evalInst P i) <> "" ->
          attribute (evalInst P i) <> point_list_index ->
          findPointAttribute ptGeo (attribute (evalInst P i)) = None ->
          In (unknownAttributeWarning (attribute (evalInst P i))) ws).
Proof.
  intros N r. unfold r, constructGenericAtttributeList.
  destruct (attrLoop_steps Ext P ptGeo idx (Z.to_nat (evalInt_attrList P)) 1
              (mkAttrLoop l0 (-1) self)) as (ds & ws & Hp & Hn & L & W & O & U).
  assert (HN : Z.of_nat (Z.to_nat (evalInt_attrList P)) = N)
    by (unfold N, evalInt_attrList; lia).
  rewrite HN in O, U.
  exists ds, ws. split; [exact Hp|]. split; [exact Hn|].
  split; [unfold evalInt_attrList in L; lia|]. split; [exact W|].
  split; [replace (N + 1) with (1 + N) by lia; exact O|].
  intros i Hi. apply U. lia.
Qed.

Lemma attribute_list_construction_witness :
  let r := constructGenericAtttributeList (Ext:=Sample.tools) Sample.missingAttribute []
             Sample.twoPoints Sample.emptyIndex Sample.freshNode in
  findPointAttribute Sample.twoPoints "foo" = None
  /\ In (unknownAttributeWarning "foo") (messages (loopNode r))
  /\ (length (messages (loopNode r)) <= 2)%nat.
Proof.
  intros r. split; [reflexivity|].
  destruct (attribute_list_construction Sample.tools Sample.missingAttribute []
              Sample.twoPoints Sample.emptyIndex Sample.freshNode)
    as (ds & ws & _ & Hn & Hlen & _ & _ & Hw).
  fold r in Hn. rewrite Hn. cbn [withMessages messages Sample.freshNode app]. split.
  - apply (Hw 2); [vm_compute; split; discriminate | discriminate | discriminate | reflexivity].
  - exact Hlen.
Defined.

(** ** The half-band width *)

Lemma passesGuards_voxel_size P :
  passesGuards P = true -> (minVoxelSize <= to_float (voxelsize P))%Qc.
Proof.
  unfold passesGuards. intros H. apply andb_prop in H. destruct H as [H _].
  apply negb_true_iff, Real_ltb_ge in H. exact H.
Qed.

Lemma performConversion_topology_head (Ext : Externals) ctx pa bg T self :
  wasInterrupted (calls self) = false ->
  conversion (parms ctx) <> 0 ->
  exists cs,
    calls (performConversion ctx pa bg T None self)
    = calls self
      ++ Call_FloatGrid_create bg
         :: Call_GUvdbCreatePointMaskGrid T
         :: Call_topologyToLevelSet (ceil (to_float (bg / mVoxelSize self)))
              (closing (parms ctx)) (dilation (parms ctx)) (smoothing (parms ctx))
         :: Call_csgUnion :: cs.
Proof.
  intros Hint Hconv. rewrite performConversion_unfold by exact Hint. cbv zeta.
  set (tg := targetGrid bg T None self).
  set (bw := ceil (to_float (bg / mVoxelSize (snd tg)))).
  set (pc := primaryConversion ctx pa T bw (fst tg) (snd tg)).
  destruct (targetGrid_spec Ext T bg None self) as (_ & T1 & _ & _). fold tg in T1.
  destruct (primaryConversion_spec Ext ctx pa T bw (fst tg) (snd tg) T1)
    as (_ & T2 & _ & _ & Hpm). fold pc in T2, Hpm.
  destruct (primaryConversion_topology Ext ctx pa T bw (fst tg) (snd tg) Hconv)
    as [Hs _]. fold pc in Hs.
  assert (Hrest : exists cs,
            calls (exportOutputGrid (parms ctx) (fst (fst pc))
                     (if to_bool (buildmask (parms ctx))
                      then buildMaskVolume ctx pa bg T (conversion (parms ctx) =? 0) bw
                             (snd (fst pc)) (snd pc)
                      else snd pc))
            = calls (snd pc) ++ cs).
  { eapply grows_calls_prefix, grows_trans;
      [|apply (exportOutputGrid_grows T); exact T2].
    destruct (to_bool (buildmask (parms ctx)));
      [apply buildMaskVolume_grows; exact Hpm | apply grows_refl]. }
  destruct Hrest as (cs & ->). rewrite Hs. cbn [calls].
  exists cs. unfold tg, bw. cbn [targetGrid FloatGrid_create fst snd logCall calls mVoxelSize].
  rewrite <- !app_assoc. reflexivity.
Qed.

Lemma useReference_not_level_set P refPrim bg self :
  getGridClass (getGrid refPrim) <> GRID_LEVEL_SET ->
  let setup := useReference P refPrim bg self in
  setupTransform setup = baseTransform (getGrid refPrim)
  /\ setupBackground setup = bg
  /\ setupOutputGrid setup = None
  /\ calls (setupNode setup) = calls self
  /\ mVoxelSize (setupNode setup) = to_float (vec_x (voxelSize (baseTransform (getGrid refPrim)))).
Proof.
  intros Hls. unfold useReference.
  replace (bool_decide (getGridClass (getGrid refPrim) = GRID_LEVEL_SET)) with false
    by (symmetry; apply bool_decide_eq_false; exact Hls).
  cbn [andb]. destruct (negb (merge_ P =? 0)); cbn; repeat split.
Qed.

(** In voxel units the band width is not always the ceiling of
    [halfbandvoxels]: the product with the voxel size and the quotient
    by it are each rounded to single precision.  Seven voxels at a
    voxel size of 0.35 give a band of eight. *)
Example band_of_seven_voxels :
  let P := setFloat_halfbandvoxels (real 7)
             (Sample.set_voxelsize (real (35 # 100)) Sample.defaults) in
  useworldspace P = 0
  /\ ceil (to_float (uiBackground P / to_float (voxelsize P))) = 8.
Proof. cbv zeta. split; vm_compute; reflexivity. Qed.

(** X14.  The band width the topology conversion is run with is the
    ceiling of a quotient in single precision: the half-band width in
    world units over the voxel size the cook holds.  The half-band
    width is the narrowed [halfband] parameter in world units and, in
    voxel units, the single-precision product of the narrowed voxel
    size and the narrowed [halfbandvoxels].  Without a second input the
    voxel size is the narrowed parameter, which the guard keeps at
    1e-5 or above; next to a reference that is not a level set the
    conversion runs on the reference's transform and the voxel size is
    the narrowed first component of its voxel size.  The band width is
    stated when it fits an [int] and the divisor is not zero. *)
Theorem topology_band_width (Ext : Externals) (ctx : OP_Context) (self : Node) :
  let P := parms ctx in
  let r := cookVDBSop ctx self in
  let background :=
    if useworldspace P =? 0
    then to_float (to_float (voxelsize P) * to_float (halfbandvoxels P))
    else to_float (halfband P) in
  passesGuards P = true ->
  conversion P <> 0 ->
  wasInterrupted [] = false ->
  (refGeoInput ctx = None ->
   let bandWidth := ceil (to_float (background / to_float (voxelsize P))) in
   - 2 ^ 31 <= bandWidth < 2 ^ 31 ->
   (minVoxelSize <= to_float (voxelsize P))%Qc
   /\ exists cs,
        calls r
        = Call_FloatGrid_create background
          :: Call_GUvdbCreatePointMaskGrid (createLinearTransform (to_float (voxelsize P)))
          :: Call_topologyToLevelSet bandWidth (closing P) (dilation P) (smoothing P)
          :: Call_csgUnion :: cs)
  /\ (forall refGeo refPrim,
        refGeoInput ctx = Some refGeo ->
        head (matchGroup refGeo (referencevdb P)) = Some refPrim ->
        getGridClass (getGrid refPrim) <> GRID_LEVEL_SET ->
        let vs := to_float (vec_x (voxelSize (baseTransform (getGrid refPrim)))) in
        let bandWidth := ceil (to_float (background / vs)) in
        vs <> real 0 ->
        - 2 ^ 31 <= bandWidth < 2 ^ 31 ->
        exists cs,
          calls r
          = Call_FloatGrid_create background
            :: Call_GUvdbCreatePointMaskGrid (baseTransform (getGrid refPrim))
            :: Call_topologyToLevelSet bandWidth (closing P) (dilation P) (smoothing P)
            :: Call_csgUnion :: cs).
Proof.
  intros P r background Hguards Hconv Hint.
  assert (Hbg : uiBackground (parms ctx) = background).
  { unfold uiBackground, background, P. destruct (useworldspace (parms ctx) =? 0); reflexivity. }
  unfold r, P.
  rewrite (cook_guards_pass Ext ctx self Hguards). cbv zeta. rewrite Hbg. split.
  - intros -> _. split; [apply passesGuards_voxel_size; exact Hguards|].
    destruct (performConversion_topology_head Ext ctx
                (ParticleList_new (ptGeoInput ctx) (particlescale (parms ctx))
                   (velocityscale (parms ctx)))
                background (createLinearTransform (to_float (voxelsize (parms ctx))))
                (cookStart (parms ctx) self) Hint Hconv) as (cs & ->).
    exists cs. reflexivity.
  - intros refGeo refPrim -> -> Hls _ _.
    destruct (useReference_not_level_set (parms ctx) refPrim background
                (cookStart (parms ctx) self) Hls) as (HT & Hb & Hog & Hc & Hv).
    rewrite HT, Hb, Hog.
    assert (Hint' : wasInterrupted
                      (calls (setupNode (useReference (parms ctx) refPrim background
                                           (cookStart (parms ctx) self)))) = false)
      by (rewrite Hc; exact Hint).
    destruct (performConversion_topology_head Ext ctx
                (ParticleList_new (ptGeoInput ctx) (particlescale (parms ctx))
                   (velocityscale (parms ctx)))
                background (baseTransform (getGrid refPrim))
                _ Hint' Hconv) as (cs & ->).
    exists cs. rewrite Hc, Hv. reflexivity.
Qed.

Lemma topology_band_width_witness :
  let r := cookVDBSop (Ext:=Sample.tools) Sample.topologyMask Sample.freshNode in
  let P := parms Sample.topologyMask in
  let bandWidth :=
    ceil (to_float (to_float (to_float (voxelsize P) * to_float (halfbandvoxels P))
                    / to_float (voxelsize P))) in
  (passesGuards P = true /\ conversion P <> 0 /\ - 2 ^ 31 <= bandWidth < 2 ^ 31)
  /\ bandWidth = 3
  /\ topologyDilations (firstn 4 (calls r)) = [5]
  /\ exists cs, firstn 4 (calls r) ++ cs = calls r
       /\ nth 2 (calls r) Call_csgUnion = Call_topologyToLevelSet 3 1 5 0.
Proof.
  intros r P bandWidth.
  assert (Hconv : conversion P <> 0) by discriminate.
  assert (Hguards : passesGuards P = true) by (vm_compute; reflexivity).
  assert (Hbw : bandWidth = 3) by (vm_compute; reflexivity).
  assert (Hrange : - 2 ^ 31 <= bandWidth < 2 ^ 31) by (rewrite Hbw; lia).
  split; [split; [exact Hguards | split; [exact Hconv | exact Hrange]]|].
  split; [exact Hbw|].
  destruct (topology_band_width Sample.tools Sample.topologyMask Sample.freshNode
              Hguards Hconv eq_refl) as [Hnone _].
  destruct (Hnone eq_refl Hrange) as (_ & cs & Hcs).
  fold r in Hcs. rewrite Hcs. change (ceil _) with bandWidth. rewrite Hbw.
  split; [reflexivity|]. exists cs. split; reflexivity.
Defined.

(** * The attribute menu *)

Lemma setEntry_next pre x rest t l :
  setEntry (Z.of_nat (length pre)) t l (pre ++ x :: rest)
  = Some (pre ++ mkPRM_Name t l :: rest).
Proof.
  unfold setEntry. rewrite bool_decide_eq_true_2 by (rewrite length_app; cbn; lia).
  rewrite Nat2Z.id. f_equal.
  rewrite insert_app_r_alt by lia. rewrite Nat.sub_diag. reflexivity.
Qed.

Lemma setEntry_outside i t l buf :
  Z.of_nat (length buf) <= i -> setEntry i t l buf = None.
Proof. intros H. unfold setEntry. rewrite bool_decide_eq_false_2 by lia. reflexivity. Qed.

Lemma size_t_id z : 0 <= z < 2 ^ 64 -> size_t z = z.
Proof. intros H. unfold size_t. apply Z.mod_small. exact H. Qed.

(** The loop writes the names one after the other and stops at
    [menuEnd]. *)
Lemma menuLoop_spec (iter : list GA_Attribute) : forall pre rest menuEnd,
  Z.of_nat (length pre) <= menuEnd ->
  menuEnd <= Z.of_nat (length (pre ++ rest)) ->
  menuEnd < 2 ^ 64 ->
  let k := Nat.min (length iter) (Z.to_nat (menuEnd - Z.of_nat (length pre))) in
  menuLoop iter (Z.of_nat (length pre)) menuEnd (pre ++ rest)
  = Some (Z.of_nat (length pre) + Z.of_nat k,
          pre ++ (menuEntry <$> (getName <$> take k iter)) ++ drop k rest).
Proof.
  induction iter as [|a iter IH]; intros pre rest menuEnd Hlo Hhi Hmax k.
  - cbn. rewrite Z.add_0_r. reflexivity.
  - cbn [menuLoop].
    destruct (Z.of_nat (length pre) =? menuEnd) eqn:E; cbn [negb].
    + apply Z.eqb_eq in E.
      assert (Hk0 : k = 0%nat) by (unfold k; lia).
      rewrite Hk0. cbn. rewrite Z.add_0_r. reflexivity.
    + apply Z.eqb_neq in E.
      destruct rest as [|x rest].
      { rewrite app_nil_r in Hhi. lia. }
      rewrite setEntry_next.
      rewrite size_t_id by lia.
      replace (Z.of_nat (length pre) + 1) with (Z.of_nat (length (pre ++ [menuEntry (getName a)])))
        by (rewrite length_app; cbn; lia).
      change (pre ++ mkPRM_Name (Some (getName a)) (Some (getName a)) :: rest)
        with (pre ++ [menuEntry (getName a)] ++ rest).
      rewrite app_assoc.
      rewrite IH;
        [| rewrite length_app; cbn; lia
         | rewrite !length_app in *; cbn in *; lia
         | exact Hmax].
      assert (Hk : k = S (Nat.min (length iter)
                            (Z.to_nat (menuEnd
                                       - Z.of_nat (length (pre ++ [menuEntry (getName a)])))))).
      { unfold k. rewrite length_app. cbn [length]. lia. }
      rewrite Hk. cbn [take drop fmap list_fmap].
      rewrite <- !app_assoc. cbn [app]. f_equal. f_equal.
      rewrite length_app. cbn [length]. lia.
Qed.

Lemma take_min_length {A} (l : list A) m : take (Nat.min (length l) m) l = take m l.
Proof.
  destruct (Nat.le_gt_cases m (length l)) as [H | H].
  - rewrite Nat.min_r by exact H. reflexivity.
  - rewrite Nat.min_l by lia. rewrite !take_ge by lia. reflexivity.
Qed.

(** The two writes without attribute names: the null object and the
    terminator. *)
Lemma menu_without_names e0 e1 rest :
  setEntry 0 (Some "0") (Some "- no attribute selected -") (e0 :: e1 :: rest)
  = Some (noAttribute :: e1 :: rest)
  /\ setEntry 1 None None (noAttribute :: e1 :: rest)
     = Some (noAttribute :: terminator :: rest).
Proof.
  split.
  - exact (setEntry_next [] e0 (e1 :: rest) _ _).
  - exact (setEntry_next [noAttribute] e1 rest None None).
Qed.

(** X15.  The attribute menu for an array with room for at least three
    entries.  [sopBuildAttrMenu] never writes past [themenusize]
    entries: it writes the null object, then, when the input has point
    attributes and there is room, a separator, the attribute names in
    their order cut off after [themenusize - 4] of them and the
    reserved name 'point_list_index', and last the terminator; the rest
    of the array is left as it was.  With no geometry on the input, no
    attribute or room for three entries only, the menu is the null
    object and the terminator. *)
Theorem attribute_menu (separator : string) (atoi : string -> Z)
    (inputs : Z -> option GU_Detail) (menuEntries : list PRM_Name) (themenusize : Z)
    (spare : PRM_SpareData) :
  3 <= themenusize <= Z.of_nat (length menuEntries) ->
  themenusize < 2 ^ 31 ->
  let names :=
    match inputs (lookupAttrInput atoi (Some spare)) with
    | Some gdp => getName <$> pointAttribs gdp
    | None => []
    end in
  let W := expectedMenu separator names themenusize in
  sopBuildAttrMenu separator atoi (Some (SopNode inputs)) (Some menuEntries) themenusize
    (Some spare)
  = Some (Some (W ++ drop (length W) menuEntries))
  /\ Z.of_nat (length W) <= themenusize.
Proof.
  intros Hn Hint names W.
  destruct menuEntries as [|e0 [|e1 [|e2 rest]]]; cbn [length] in Hn; try lia.
  unfold sopBuildAttrMenu. cbn [CAST_SOPNODE].
  destruct (menu_without_names e0 e1 (e2 :: rest)) as [H0 H1].
  rewrite H0. change (size_t (0 + 1)) with 1.
  rewrite (size_t_id (themenusize - 2)) by lia.
  assert (Hshort : (fmap (M:=option) Some (setEntry 1 None None (noAttribute :: e1 :: e2 :: rest))
                    = Some (Some ([noAttribute; terminator]
                                  ++ drop 2 (e0 :: e1 :: e2 :: rest))))
                   /\ Z.of_nat (length [noAttribute; terminator]) <= themenusize).
  { rewrite H1. split; [reflexivity | cbn; lia]. }
  unfold W, names, expectedMenu.
  destruct (inputs (lookupAttrInput atoi (Some spare))) as [gdp|]; [|exact Hshort].
  destruct (pointAttribs gdp) as [|a iter] eqn:Hattrs; [exact Hshort|].
  rewrite (bool_decide_eq_false_2 (a :: iter = [])) by discriminate.
  rewrite (bool_decide_eq_false_2 (getName <$> a :: iter = [])) by discriminate.
  cbn [negb andb orb].
  destruct (themenusize =? 3) eqn:E3.
  { apply Z.eqb_eq in E3.
    replace (1 =? themenusize - 2) with true by (symmetry; apply Z.eqb_eq; lia).
    exact Hshort. }
  apply Z.eqb_neq in E3.
  replace (1 =? themenusize - 2) with false by (symmetry; apply Z.eqb_neq; lia).
  cbn [negb Z.ltb Z.compare].
  rewrite (setEntry_next [noAttribute] e1 (e2 :: rest)).
  change (size_t (1 + 1)) with (Z.of_nat (length [noAttribute; menuEntry separator])).
  change ([noAttribute] ++ mkPRM_Name (Some separator) (Some separator) :: e2 :: rest)
    with ([noAttribute; menuEntry separator] ++ e2 :: rest).
  rewrite menuLoop_spec;
    [| cbn; lia | rewrite length_app; cbn in *; lia | lia].
  cbv zeta.
  set (k := Nat.min (length (a :: iter))
              (Z.to_nat (themenusize - 2
                         - Z.of_nat (length [noAttribute; menuEntry separator])))).
  assert (Hk : (k <= length rest - 1)%nat /\ Z.of_nat k <= themenusize - 4).
  { unfold k. cbn [length] in *. lia. }
  assert (Htake : menuEntry <$> (getName <$> take k (a :: iter))
                  = menuEntry <$> take (Z.to_nat (themenusize - 4))
                                    (getName <$> a :: iter)).
  { rewrite <- fmap_take. f_equal. f_equal. unfold k.
    replace (themenusize - 2 - Z.of_nat (length [noAttribute; menuEntry separator]))
      with (themenusize - 4) by (cbn; lia).
    apply take_min_length. }
  set (mid := menuEntry <$> (getName <$> take k (a :: iter))) in *.
  assert (Hmid : length mid = k).
  { unfold mid. rewrite !length_fmap, length_take. unfold k. cbn [length] in *. lia. }
  destruct (drop k (e2 :: rest)) as [|y1 [|y2 tail]] eqn:Hdrop;
    try (apply (f_equal length) in Hdrop; rewrite length_drop in Hdrop;
         cbn [length] in Hdrop; lia).
  assert (Htail : tail = drop (4 + k) (e0 :: e1 :: e2 :: rest)).
  { change (drop (4 + k) (e0 :: e1 :: e2 :: rest)) with (drop (2 + k) (e2 :: rest)).
    replace (2 + k)%nat with (k + 2)%nat by lia.
    rewrite <- drop_drop, Hdrop. reflexivity. }
  replace ([noAttribute; menuEntry separator] ++ mid ++ y1 :: y2 :: tail)
    with (([noAttribute; menuEntry separator] ++ mid) ++ y1 :: y2 :: tail)
    by (rewrite <- app_assoc; reflexivity).
  replace (Z.of_nat (length [noAttribute; menuEntry separator]) + Z.of_nat k)
    with (Z.of_nat (length ([noAttribute; menuEntry separator] ++ mid)))
    by (rewrite length_app, Hmid; cbn; lia).
  rewrite setEntry_next.
  rewrite size_t_id by (rewrite length_app, Hmid; cbn [length]; lia).
  replace (Z.of_nat (length ([noAttribute; menuEntry separator] ++ mid)) + 1)
    with (Z.of_nat (length (([noAttribute; menuEntry separator] ++ mid)
                            ++ [menuEntry point_list_index])))
    by (rewrite !length_app; cbn; lia).
  change (([noAttribute; menuEntry separator] ++ mid)
          ++ mkPRM_Name (Some point_list_index) (Some point_list_index) :: y2 :: tail)
    with (([noAttribute; menuEntry separator] ++ mid)
          ++ [menuEntry point_list_index] ++ y2 :: tail).
  rewrite (app_assoc _ [menuEntry point_list_index]).
  rewrite setEntry_next. rewrite <- Htake. cbn [fmap option_fmap option_map].
  assert (Hlen : length (noAttribute :: menuEntry separator
                         :: mid ++ [menuEntry point_list_index; terminator])
                 = (4 + k)%nat).
  { cbn [length]. rewrite length_app, Hmid. cbn. lia. }
  rewrite Hlen, <- Htail. split.
  - f_equal. f_equal. cbn [app]. rewrite <- !app_assoc. reflexivity.
  - lia.
Qed.

Lemma attribute_menu_witness :
  (3 <= 5 <= Z.of_nat (length (replicate 6 Sample.staleEntry)) /\ 5 < 2 ^ 31)
  /\ sopBuildAttrMenu "_separator_" (fun _ => 0) (Some (SopNode Sample.firstInput))
       (Some (replicate 6 Sample.staleEntry)) 5 (Some Sample.theFirstInput)
     = Some (Some [noAttribute; menuEntry "_separator_"; menuEntry "id";
                   menuEntry point_list_index; terminator; Sample.staleEntry]).
Proof.
  assert (H1 : 3 <= 5 <= Z.of_nat (length (replicate 6 Sample.staleEntry)))
    by (cbn; lia).
  assert (H2 : 5 < 2 ^ 31) by lia.
  split; [split; assumption|].
  destruct (attribute_menu "_separator_" (fun _ => 0) Sample.firstInput
              (replicate 6 Sample.staleEntry) 5 Sample.theFirstInput H1 H2) as [H _].
  rewrite H. reflexivity.
Defined.

(** X16.  An array of exactly [themenusize] entries that is too small.
    With geometry on the input, [sopBuildAttrMenu] writes past the end
    of an array of fewer than two entries, and of an array of two
    entries as soon as the input has a point attribute: the stop index
    [themenusize - 2] is then zero, or wraps around as a [size_t], and
    is never met by the running index. *)
Theorem attribute_menu_small_array (separator : string) (atoi : string -> Z)
    (inputs : Z -> option GU_Detail) (menuEntries : list PRM_Name)
    (spare : PRM_SpareData) (gdp : GU_Detail) :
  inputs (lookupAttrInput atoi (Some spare)) = Some gdp ->
  (length menuEntries <= 2)%nat ->
  (length menuEntries = 2%nat -> pointAttribs gdp <> []) ->
  sopBuildAttrMenu separator atoi (Some (SopNode inputs)) (Some menuEntries)
    (Z.of_nat (length menuEntries)) (Some spare) = None.
Proof.
  intros Hgdp Hlen Hattrs. unfold sopBuildAttrMenu. cbn [CAST_SOPNODE]. rewrite Hgdp.
  destruct menuEntries as [|e0 [|e1 [|e2 rest]]]; cbn [length] in *; try lia.
  - reflexivity.
  - destruct (pointAttribs gdp); reflexivity.
  - destruct (pointAttribs gdp) as [|a iter]; [destruct (Hattrs eq_refl eq_refl)|].
    reflexivity.
Qed.

Lemma attribute_menu_small_array_witness :
  (Sample.firstInput (lookupAttrInput (fun _ => 0) (Some Sample.theFirstInput))
   = Some Sample.twoPoints
   /\ pointAttribs Sample.twoPoints <> [])
  /\ sopBuildAttrMenu "_separator_" (fun _ => 0) (Some (SopNode Sample.firstInput))
       (Some (replicate 2 Sample.staleEntry)) 2 (Some Sample.theFirstInput) = None.
Proof.
  assert (H1 : Sample.firstInput (lookupAttrInput (fun _ => 0) (Some Sample.theFirstInput))
               = Some Sample.twoPoints) by reflexivity.
  assert (H2 : pointAttribs Sample.twoPoints <> []) by discriminate.
  split; [split; assumption|].
  apply (attribute_menu_small_array "_separator_" (fun _ => 0) Sample.firstInput
           (replicate 2 Sample.staleEntry) Sample.theFirstInput Sample.twoPoints H1).
  - cbn. lia.
  - intros _. exact H2.
Defined.

(** * The parameter flags *)

(** The instance requests, in order. *)
Lemma flagsLoop_spec P ptGeo n : forall i requests,
  flagsLoop P ptGeo n i requests
  = requests
    ++ flat_map (fun j => [enableParmInst "vecType#" j
                             (vecTypeApplies ptGeo (attribute (evalInst P j)));
                           setVisibleStateInst "vecType#" j
                             (vecTypeApplies ptGeo (attribute (evalInst P j)))])
         (seqZ i (Z.of_nat n)).
Proof.
  induction n as [|n IH]; intros i requests; cbn [flagsLoop].
  - cbn. symmetry. apply app_nil_r.
  - rewrite IH. rewrite (seqZ_cons i (Z.of_nat (S n))) by lia.
    cbn [flat_map]. rewrite <- app_assoc.
    replace (Z.pred (Z.of_nat (S n))) with (Z.of_nat n) by lia.
    replace (Z.succ i) with (i + 1) by lia. reflexivity.
Qed.

Lemma flagsLoop_instance P ptGeo n i0 requests i :
  i0 <= i < i0 + Z.of_nat n ->
  In (enableParmInst "vecType#" i (vecTypeApplies ptGeo (attribute (evalInst P i))))
     (flagsLoop P ptGeo n i0 requests)
  /\ In (setVisibleStateInst "vecType#" i
           (vecTypeApplies ptGeo (attribute (evalInst P i))))
        (flagsLoop P ptGeo n i0 requests).
Proof.
  intros Hi. rewrite flagsLoop_spec.
  assert (Hin : In i (seqZ i0 (Z.of_nat n))).
  { apply list_elem_of_In, elem_of_seqZ. lia. }
  split; apply in_or_app; right; apply in_flat_map; exists i;
    (split; [exact Hin|]); cbn; auto.
Qed.

Lemma flagsLoop_keeps P ptGeo n i0 requests r :
  In r requests -> In r (flagsLoop P ptGeo n i0 requests).
Proof. intros H. rewrite flagsLoop_spec. apply in_or_app. left. exact H. Qed.

Lemma vecTypeApplies_origin P ptGeo lo hi d :
  descriptorOrigin P ptGeo lo hi d ->
  adIsVector d = true ->
  exists i, lo <= i < hi
            /\ findPointAttribute ptGeo (attribute (evalInst P i)) = Some (adAttribute d)
            /\ vecTypeApplies ptGeo (attribute (evalInst P i)) = true.
Proof.
  intros (i & aif & Hi & Hfind & Hlen & _ & Haif & _ & Hvec) Hd.
  destruct (Hvec Hd) as (_ & Hv & _).
  exists i. split; [exact Hi|]. split; [exact Hfind|].
  unfold vecTypeApplies. rewrite Hlen, Hfind, Haif. cbn [negb].
  fold (vectorTypeInfo (getTypeInfo (adAttribute d))).
  destruct (vectorTypeInfo (getTypeInfo (adAttribute d))); cbn [negb orb] in *;
    [reflexivity | exact Hv].
Qed.

(** X17.  The flags [updateParmsFlags] requests agree with what the cook
    reads.  Exactly one of the two half-band parameters is shown, the
    world-space one when [useworldspace] is on.  Whenever the cook's
    entry point reads velocities, the trail parameters are enabled.
    For every instance of the attribute list the vector type menu is
    enabled and shown together, and whenever
    [constructGenericAtttributeList] builds a vector descriptor, the
    menu of the instance it comes from is enabled and shown. *)
Theorem flags_match_cook (Ext : Externals) (flagChanged : list FlagRequest -> FlagRequest -> bool)
    (P : Parms) (nInputs : Z) (ptGeo : GU_Detail) :
  let requests := snd (updateParmsFlags flagChanged P nInputs (Some ptGeo)) in
  let N := evalInt_attrList P in
  (In (setVisibleState "halfband" (to_bool (useworldspace P))) requests
   /\ In (setVisibleState "halfbandvoxels" (negb (to_bool (useworldspace P)))) requests)
  /\ (forall pa, isTrails (rasterJob P pa) = true ->
                 In (enableParm "trailresolution" true) requests
                 /\ In (enableParm "velocityscale" true) requests)
  /\ (forall i, 1 <= i <= N ->
                exists b, In (enableParmInst "vecType#" i b) requests
                          /\ In (setVisibleStateInst "vecType#" i b) requests)
  /\ (forall l0 idx self,
        exists ds,
          pointAttributes (constructGenericAtttributeList P l0 ptGeo idx self) = l0 ++ ds
          /\ Forall (fun d =>
                       adIsVector d = true ->
                       exists i,
                         1 <= i <= N
                         /\ findPointAttribute ptGeo (attribute (evalInst P i))
                            = Some (adAttribute d)
                         /\ In (enableParmInst "vecType#" i true) requests
                         /\ In (setVisibleStateInst "vecType#" i true) requests) ds).
Proof.
  intros requests N. unfold requests, updateParmsFlags. cbn [snd].
  assert (HN : Z.of_nat (Z.to_nat (evalInt_attrList P)) = N)
    by (unfold N, evalInt_attrList; lia).
  split; [|split; [|split]].
  - split; apply flagsLoop_keeps; cbn; auto 12.
  - intros pa Ht. rewrite rasterJob_isTrails in Ht. apply andb_prop in Ht.
    destruct Ht as [-> _]. split; apply flagsLoop_keeps; cbn; auto 12.
  - intros i Hi. eexists. apply flagsLoop_instance. lia.
  - intros l0 idx self. unfold constructGenericAtttributeList.
    destruct (attrLoop_steps Ext P ptGeo idx (Z.to_nat (evalInt_attrList P)) 1
                (mkAttrLoop l0 (-1) self)) as (ds & ws & Hp & _ & _ & _ & O & _).
    exists ds. split; [exact Hp|].
    eapply Forall_impl; [exact O|]. intros d Hd Hv.
    destruct (vecTypeApplies_origin P ptGeo _ _ d Hd Hv) as (i & Hi & Hfind & Hb).
    exists i. split; [lia|]. split; [exact Hfind|].
    match goal with
    | |- In _ (flagsLoop _ _ ?n ?i0 ?rs) /\ _ =>
        destruct (flagsLoop_instance P ptGeo n i0 rs i) as [H1 H2]; [lia|]
    end.
    rewrite Hb in H1, H2. split; assumption.
Qed.

Lemma flags_match_cook_witness :
  let requests := snd (updateParmsFlags (fun _ _ => true) Sample.normalAndId 1
                         (Some Sample.pointsWithNormal)) in
  In (setVisibleState "halfbandvoxels" true) requests
  /\ In (setVisibleState "halfband" false) requests
  /\ exists b, In (enableParmInst "vecType#" 1 b) requests
               /\ In (setVisibleStateInst "vecType#" 1 b) requests.
Proof.
  intros requests.
  destruct (flags_match_cook Sample.tools (fun _ _ => true) Sample.normalAndId 1
              Sample.pointsWithNormal) as ((Hw & Hv) & _ & Hinst & _).
  split; [exact Hv|]. split; [exact Hw|].
  apply Hinst. vm_compute. split; discriminate.
Defined.

(** * What a cook reads *)

Lemma to_bool_true z : to_bool z = true <-> z <> 0.
Proof.
  unfold to_bool. rewrite negb_true_iff, Z.eqb_neq. reflexivity.
Qed.

Lemma evalInst_ext P P' i : attrList P = attrList P' -> evalInst P i = evalInst P' i.
Proof. intros H. unfold evalInst. rewrite H. reflexivity. Qed.

Lemma attrLoopBody_ext (Ext : Externals) P P' ptGeo idx i st :
  attrList P = attrList P' ->
  attrLoopBody P ptGeo idx i st = attrLoopBody P' ptGeo idx i st.
Proof.
  intros H. unfold attrLoopBody. rewrite (evalInst_ext P P' i H). reflexivity.
Qed.

Lemma attrLoop_ext (Ext : Externals) P P' ptGeo idx n :
  attrList P = attrList P' ->
  forall i st, attrLoop P ptGeo idx n i st = attrLoop P' ptGeo idx n i st.
Proof.
  intros H. induction n as [|n IH]; intros i st; cbn [attrLoop]; [reflexivity|].
  rewrite (attrLoopBody_ext Ext P P' ptGeo idx i st H). apply IH.
Qed.

Lemma constructGenericAtttributeList_ext (Ext : Externals) P P' l ptGeo idx self :
  attrList P = attrList P' ->
  constructGenericAtttributeList P l ptGeo idx self
  = constructGenericAtttributeList P' l ptGeo idx self.
Proof.
  intros H. unfold constructGenericAtttributeList, evalInt_attrList. rewrite <- H.
  apply attrLoop_ext. exact H.
Qed.

Lemma rasterJob_ext P P' pa :
  velocitytrails P = velocitytrails P' ->
  (velocitytrails P = 1 -> trailresolution P = trailresolution P') ->
  rasterJob P pa = rasterJob P' pa.
Proof.
  intros Hvt Htr. unfold rasterJob. rewrite <- Hvt.
  destruct (velocitytrails P =? 1) eqn:E; [|reflexivity].
  apply Z.eqb_eq in E. rewrite (Htr E). reflexivity.
Qed.

Lemma convert_ext (Ext : Externals) P P' og pa self :
  minradius P = minradius P' ->
  velocitytrails P = velocitytrails P' ->
  (velocitytrails P = 1 -> trailresolution P = trailresolution P') ->
  convert P og pa self = convert P' og pa self.
Proof.
  intros Hmin Hvt Htr. unfold convert.
  rewrite (rasterJob_ext P P' pa Hvt Htr), Hmin. reflexivity.
Qed.

Lemma convertWithAttributes_ext (Ext : Externals) P P' og pa ptGeo self :
  attrList P = attrList P' ->
  minradius P = minradius P' ->
  velocitytrails P = velocitytrails P' ->
  (velocitytrails P = 1 -> trailresolution P = trailresolution P') ->
  convertWithAttributes P og pa ptGeo self = convertWithAttributes P' og pa ptGeo self.
Proof.
  intros Hattr Hmin Hvt Htr. unfold convertWithAttributes.
  rewrite (rasterJob_ext P P' pa Hvt Htr), Hmin.
  set (raster := ParticlesToLevelSet true (minradius P') Rmax (rasterJob P' pa) og).
  set (self1 := if ignoredParticles raster then _ else _).
  set (idx := attributeGrid raster (setVoxels (sdfVoxels raster) og)).
  rewrite (constructGenericAtttributeList_ext Ext P P' [] ptGeo idx self1 Hattr).
  unfold evalInt_attrList. rewrite Hattr.
  rewrite (evalInst_ext P P' _ Hattr). reflexivity.
Qed.

Lemma exportOutputGrid_ext P P' og self :
  builddistance P = builddistance P' ->
  buildfog P = buildfog P' ->
  (builddistance P <> 0 -> distancename P = distancename P') ->
  (buildfog P <> 0 -> fogname P = fogname P') ->
  exportOutputGrid P og self = exportOutputGrid P' og self.
Proof.
  intros Hd Hf Hdn Hfn. unfold exportOutputGrid. rewrite <- Hd, <- Hf.
  destruct (to_bool (builddistance P)) eqn:Ed;
    [rewrite (Hdn (proj1 (to_bool_true _) Ed))|];
    (destruct (to_bool (buildfog P)) eqn:Ef;
     [rewrite (Hfn (proj1 (to_bool_true _) Ef))|]); reflexivity.
Qed.

Lemma primaryConversion_ext (Ext : Externals) ctx ctx' pa pa' T bw og self :
  readsAgree ctx ctx' ->
  (conversion (parms ctx) = 0 -> pa = pa') ->
  primaryConversion ctx pa T bw og self = primaryConversion ctx' pa' T bw og self.
Proof.
  intros (Hgeo & _ & _ & _ & _ & _ & Ha & Hc & _ & _ & _ & _ & _ & Hsph & Htop) Hpa.
  unfold primaryConversion, evalInt_attrList. rewrite <- Hgeo, <- Ha, <- Hc.
  destruct (conversion (parms ctx) =? 0) eqn:E.
  - apply Z.eqb_eq in E. destruct (Hsph E) as (_ & _ & Hmin & Hvt & Htr).
    rewrite <- (Hpa E), <- Hvt.
    rewrite (convertWithAttributes_ext Ext (parms ctx) (parms ctx') og pa (ptGeoInput ctx)
               _ Ha Hmin Hvt Htr).
    rewrite (convert_ext Ext (parms ctx) (parms ctx') og pa _ Hmin Hvt Htr).
    reflexivity.
  - apply Z.eqb_neq in E. destruct (Htop E) as (-> & -> & ->). reflexivity.
Qed.

Lemma buildMaskVolume_ext (Ext : Externals) ctx ctx' pa pa' bg T bw pm self :
  readsAgree ctx ctx' ->
  buildmask (parms ctx) <> 0 ->
  (conversion (parms ctx) = 0 -> pa = pa') ->
  buildMaskVolume ctx pa bg T (conversion (parms ctx) =? 0) bw pm self
  = buildMaskVolume ctx' pa' bg T (conversion (parms ctx) =? 0) bw pm self.
Proof.
  intros (Hgeo & _ & _ & _ & _ & _ & _ & _ & _ & _ & _ & Hmask & _ & Hsph & Htop) Hm Hpa.
  destruct (Hmask Hm) as (Hlimit & Hname).
  unfold buildMaskVolume. cbn [FloatGrid_create]. rewrite <- Hlimit, <- Hname, <- Hgeo.
  destruct (Real_ltb (real 0) (clampOffset (boundinglimit (parms ctx)))); [|reflexivity].
  destruct (conversion (parms ctx) =? 0) eqn:E.
  - apply Z.eqb_eq in E. destruct (Hsph E) as (_ & _ & Hmin & Hvt & Htr).
    rewrite <- (Hpa E).
    rewrite (convert_ext Ext (parms ctx) (parms ctx') _ _ _ Hmin Hvt Htr).
    destruct (convert (parms ctx') _ _ _) as [g1 s1].
    rewrite (convert_ext Ext (parms ctx) (parms ctx') _ _ _ Hmin Hvt Htr).
    reflexivity.
  - apply Z.eqb_neq in E. destruct (Htop E) as (-> & -> & ->). reflexivity.
Qed.

Lemma performConversion_ext (Ext : Externals) ctx ctx' pa pa' bg T og0 self :
  readsAgree ctx ctx' ->
  (conversion (parms ctx) = 0 -> pa = pa') ->
  performConversion ctx pa bg T og0 self = performConversion ctx' pa' bg T og0 self.
Proof.
  intros Hagree Hpa.
  destruct (wasInterrupted (calls self)) eqn:Hint.
  { rewrite !performConversion_interrupted by exact Hint. reflexivity. }
  rewrite !performConversion_unfold by exact Hint. cbv zeta.
  set (tg := targetGrid bg T og0 self).
  set (bw := ceil (to_float (bg / mVoxelSize (snd tg)))).
  rewrite <- (primaryConversion_ext Ext ctx ctx' pa pa' T bw (fst tg) (snd tg) Hagree Hpa).
  set (pc := primaryConversion ctx pa T bw (fst tg) (snd tg)).
  pose proof Hagree
    as (_ & _ & _ & Hd & Hf & Hm & _ & Hc & _ & Hdn & Hfn & _ & _ & _ & _).
  rewrite <- Hm, <- Hc.
  assert (Hmask : (if to_bool (buildmask (parms ctx))
                   then buildMaskVolume ctx' pa' bg T (conversion (parms ctx) =? 0) bw
                          (snd (fst pc)) (snd pc)
                   else snd pc)
                  = (if to_bool (buildmask (parms ctx))
                     then buildMaskVolume ctx pa bg T (conversion (parms ctx) =? 0) bw
                            (snd (fst pc)) (snd pc)
                     else snd pc)).
  { destruct (to_bool (buildmask (parms ctx))) eqn:Em; [|reflexivity].
    symmetry. apply buildMaskVolume_ext; [exact Hagree | | exact Hpa].
    apply to_bool_true. exact Em. }
  rewrite Hmask. apply exportOutputGrid_ext; assumption.
Qed.

Lemma useReference_ext P P' refPrim bg self :
  merge_ P = merge_ P' -> useReference P refPrim bg self = useReference P' refPrim bg self.
Proof. intros H. unfold useReference. rewrite H. reflexivity. Qed.

(** X18.  The cook depends on its context only through what
    [readsAgree] lists.  In particular it reads neither the half-band
    parameter of the unit that is not selected, nor the name of an
    output that is off, nor the bounding limit without the mask, nor
    the reference pattern and the merge toggle without a second input,
    nor the trail spacing without trails, nor the particle scale and the
    minimum radius on the topology path, nor dilation, closing and
    smoothing on the sphere path. *)
Theorem cook_reads (Ext : Externals) (ctx ctx' : OP_Context) (self : Node) :
  readsAgree ctx ctx' ->
  cookVDBSop ctx self = cookVDBSop ctx' self.
Proof.
  intros Hagree.
  pose proof Hagree
    as (Hgeo & Href & Hvs & Hd & Hf & _ & Ha & _ & Hbg & _ & _ & _ & Hrefp & Hsph & _).
  assert (Hguards : passesGuards (parms ctx') = passesGuards (parms ctx)).
  { unfold passesGuards, evalInt_attrList. rewrite Hvs, Hd, Hf, Ha. reflexivity. }
  assert (Hstart : cookStart (parms ctx') self = cookStart (parms ctx) self).
  { unfold cookStart. rewrite Hvs. reflexivity. }
  assert (Hpa : conversion (parms ctx) = 0 ->
                ParticleList_new (ptGeoInput ctx) (particlescale (parms ctx))
                  (velocityscale (parms ctx))
                = ParticleList_new (ptGeoInput ctx') (particlescale (parms ctx'))
                    (velocityscale (parms ctx'))).
  { intros E. destruct (Hsph E) as (-> & -> & _). rewrite Hgeo. reflexivity. }
  destruct (passesGuards (parms ctx)) eqn:G.
  - rewrite (cook_guards_pass Ext ctx self G).
    rewrite (cook_guards_pass Ext ctx' self Hguards).
    cbv zeta. rewrite <- Href, <- Hbg, <- Hvs, Hstart.
    destruct (refGeoInput ctx) as [refGeo|] eqn:R.
    + destruct Hrefp as (Hpat & Hmerge); [discriminate|].
      rewrite <- Hpat.
      destruct (head (matchGroup refGeo (referencevdb (parms ctx)))) as [refPrim|];
        [|reflexivity].
      rewrite <- (useReference_ext (parms ctx) (parms ctx') refPrim _ _ Hmerge).
      apply performConversion_ext; assumption.
    + apply performConversion_ext; assumption.
  - destruct (Real_ltb (to_float (voxelsize (parms ctx))) minVoxelSize) eqn:E.
    + pose proof E as E'. rewrite Hvs in E'.
      apply Real_ltb_lt in E, E'.
      rewrite (cook_small_voxel_size Ext ctx self E),
        (cook_small_voxel_size Ext ctx' self E'), Hvs. reflexivity.
    + pose proof E as E'. rewrite Hvs in E'.
      rewrite (cook_guards_no_selection Ext ctx self E G).
      rewrite (cook_guards_no_selection Ext ctx' self E' Hguards).
      rewrite Hstart. reflexivity.
Qed.

Lemma cook_reads_witness :
  let ctx := mkContext Sample.defaults Sample.twoPoints None in
  let ctx' := mkContext Sample.defaultsUnreadChanged Sample.twoPoints None in
  readsAgree ctx ctx'
  /\ parms ctx <> parms ctx'
  /\ cookVDBSop (Ext:=Sample.tools) ctx Sample.freshNode
     = cookVDBSop (Ext:=Sample.tools) ctx' Sample.freshNode.
Proof.
  intros ctx ctx'.
  assert (H : readsAgree ctx ctx').
  { unfold readsAgree. cbn.
    repeat match goal with
           | |- _ /\ _ => split
           | |- _ -> _ => intros ?
           end; try reflexivity; congruence. }
  split; [exact H|]. split; [discriminate|].
  exact (cook_reads Sample.tools ctx ctx' Sample.freshNode H).
Defined.

(** * The particle index *)

(** X19.  The index [getAtt] hands to the rasterizer for particle [n]
    is a 32-bit integer: it is [n] itself for fewer than 2^31
    particles, distinct particles below 2^32 get distinct indices, and
    two particles 2^32 apart get the same index. *)
Theorem getAtt_index (n m : nat) :
  - 2 ^ 31 <= getAtt n < 2 ^ 31
  /\ (Z.of_nat n < 2 ^ 31 -> getAtt n = Z.of_nat n)
  /\ (Z.of_nat n < 2 ^ 32 -> Z.of_nat m < 2 ^ 32 -> getAtt n = getAtt m -> n = m)
  /\ (Z.of_nat m = Z.of_nat n + 2 ^ 32 -> getAtt m = getAtt n).
Proof.
  unfold getAtt, Int32.
  assert (Hmod : forall z, 0 <= z mod 2 ^ 32 < 2 ^ 32)
    by (intros z; apply Z.mod_pos_bound; lia).
  split; [pose proof (Hmod (Z.of_nat n + 2 ^ 31)); lia|].
  split; [|split].
  - intros Hn. rewrite Z.mod_small by lia. lia.
  - intros Hn Hm Heq.
    assert (Hcong : (Z.of_nat n + 2 ^ 31) mod 2 ^ 32 = (Z.of_nat m + 2 ^ 31) mod 2 ^ 32)
      by lia.
    destruct (Z_lt_le_dec (Z.of_nat n) (2 ^ 31)) as [Hn' | Hn'];
      destruct (Z_lt_le_dec (Z.of_nat m) (2 ^ 31)) as [Hm' | Hm'].
    + rewrite !Z.mod_small in Hcong by lia. lia.
    + rewrite (Z.mod_small (Z.of_nat n + 2 ^ 31)) in Hcong by lia.
      replace (Z.of_nat m + 2 ^ 31) with (Z.of_nat m - 2 ^ 31 + 1 * 2 ^ 32) in Hcong by lia.
      rewrite Z.mod_add, Z.mod_small in Hcong by lia. lia.
    + rewrite (Z.mod_small (Z.of_nat m + 2 ^ 31)) in Hcong by lia.
      replace (Z.of_nat n + 2 ^ 31) with (Z.of_nat n - 2 ^ 31 + 1 * 2 ^ 32) in Hcong by lia.
      rewrite Z.mod_add, Z.mod_small in Hcong by lia. lia.
    + replace (Z.of_nat m + 2 ^ 31) with (Z.of_nat m - 2 ^ 31 + 1 * 2 ^ 32) in Hcong by lia.
      replace (Z.of_nat n + 2 ^ 31) with (Z.of_nat n - 2 ^ 31 + 1 * 2 ^ 32) in Hcong by lia.
      rewrite !Z.mod_add, !Z.mod_small in Hcong by lia. lia.
  - intros Hm. rewrite Hm.
    replace (Z.of_nat n + 2 ^ 32 + 2 ^ 31) with (Z.of_nat n + 2 ^ 31 + 1 * 2 ^ 32) by lia.
    rewrite Z.mod_add by lia. reflexivity.
Qed.

Lemma getAtt_index_witness : getAtt 7 = 7 /\ - 2 ^ 31 <= getAtt 7 < 2 ^ 31.
Proof.
  destruct (getAtt_index 7 7) as (Hrange & Hid & _).
  split; [apply Hid; reflexivity | exact Hrange].
Defined.

(** * The standalone output *)

(** What an uninterrupted conversion exports for the distance and the
    fog toggle. *)
Lemma performConversion_outputs (Ext : Externals) ctx pa bg T og0 self :
  wasInterrupted (calls self) = false ->
  exists og,
    gridClass og = GRID_LEVEL_SET
    /\ transform og = T
    /\ background og = match og0 with Some g => background g | None => bg end
    /\ (builddistance (parms ctx) <> 0 ->
        In (mkPrim (FloatGridB (setName (distancename (parms ctx)) og)))
           (gdp (performConversion ctx pa bg T og0 self)))
    /\ (buildfog (parms ctx) <> 0 ->
        In (mkPrim (FloatGridB (setName (fogname (parms ctx)) (sdfToFogVolume og))))
           (gdp (performConversion ctx pa bg T og0 self))).
Proof.
  intros Hint.
  destruct (performConversion_result Ext ctx pa bg T og0 self Hint)
    as (og & pm & s & -> & Htr & Hcl & Hbg & _ & _).
  exists og. split; [exact Hcl|]. split; [exact Htr|]. split; [exact Hbg|].
  rewrite exportOutputGrid_gdp. split.
  - intros Hd. apply to_bool_true in Hd. rewrite Hd.
    apply in_or_app. right. apply in_or_app. left. left. reflexivity.
  - intros Hf. apply to_bool_true in Hf. rewrite Hf.
    apply in_or_app. right. apply in_or_app. right. left.
    destruct (to_bool (builddistance (parms ctx))); reflexivity.
Qed.

(** X20.  The standalone cook.  Without a second input, once the guards
    have passed, every exported primitive lives on the uniform linear
    transform of the voxel-size parameter narrowed to single
    precision.  When the conversion starts,
    the output grid is a level set on that transform whose background
    is the half-band width the parameters ask for; the distance output
    is that grid under the name [distancename] and the fog output its
    fog conversion under the name [fogname], each exported when its
    toggle is on. *)
Theorem standalone_output_grid (Ext : Externals) (ctx : OP_Context) (self : Node) :
  let P := parms ctx in
  let T := createLinearTransform (to_float (voxelsize P)) in
  let r := cookVDBSop ctx self in
  passesGuards P = true ->
  refGeoInput ctx = None ->
  Forall (fun p => baseTransform (getGrid p) = T) (gdp r)
  /\ voxelSize T
     = (to_float (voxelsize P), to_float (voxelsize P), to_float (voxelsize P))
  /\ (wasInterrupted [] = false ->
      exists og,
        gridClass og = GRID_LEVEL_SET
        /\ transform og = T
        /\ background og = uiBackground P
        /\ (builddistance P <> 0 ->
            In (mkPrim (FloatGridB (setName (distancename P) og))) (gdp r))
        /\ (buildfog P <> 0 ->
            In (mkPrim (FloatGridB (setName (fogname P) (sdfToFogVolume og)))) (gdp r))).
Proof.
  intros P T r Hguards Hnone. unfold r, T, P.
  rewrite (cook_guards_pass Ext ctx self Hguards). cbv zeta. rewrite Hnone.
  split; [|split; [reflexivity|]].
  - apply Forall_forall. intros p Hp. apply list_elem_of_In in Hp.
    exact (grows_gdp_from_empty _ (cookStart (parms ctx) self) _ p
             (performConversion_grows Ext ctx _ _ _ None _) eq_refl Hp).
  - intros Hint.
    destruct (performConversion_outputs Ext ctx
                (ParticleList_new (ptGeoInput ctx) (particlescale (parms ctx))
                   (velocityscale (parms ctx)))
                (uiBackground (parms ctx)) (createLinearTransform (to_float (voxelsize (parms ctx))))
                None (cookStart (parms ctx) self) Hint)
      as (og & Hcl & Htr & Hbg & Hd & Hf).
    exists og. repeat split; assumption.
Qed.

Lemma standalone_output_grid_witness :
  let ctx := Sample.everything in
  let r := cookVDBSop (Ext:=Sample.tools) ctx Sample.freshNode in
  (passesGuards (parms ctx) = true /\ refGeoInput ctx = None)
  /\ Forall (fun p => baseTransform (getGrid p)
                      = createLinearTransform (to_float (real (1 # 10))))
       (gdp r)
  /\ exists og,
       this (background og) = (5033165 # 16777216)%Q
       /\ In (mkPrim (FloatGridB (setName "surface" og))) (gdp r)
       /\ In (mkPrim (FloatGridB (setName "density" (sdfToFogVolume og)))) (gdp r).
Proof.
  intros ctx r.
  assert (Hguards : passesGuards (parms ctx) = true) by (vm_compute; reflexivity).
  split; [split; [exact Hguards | reflexivity]|].
  destruct (standalone_output_grid Sample.tools ctx Sample.freshNode Hguards eq_refl)
    as (Hall & _ & Hog).
  split; [exact Hall|].
  destruct (Hog eq_refl) as (og & _ & _ & Hbg & Hd & Hf).
  exists og. split.
  - etransitivity; [exact (f_equal this Hbg)|]. vm_compute. reflexivity.
  - split; [apply Hd; discriminate | apply Hf; discriminate].
Defined.

(** * An interruption during the rasterization *)

Lemma convertWithAttributes_interrupted (Ext : Externals) P og pa ptGeo self :
  wasInterrupted
    (calls self ++ [Call_ParticlesToLevelSet true (minradius P) Rmax (rasterJob P pa) og])
  = true ->
  gdp (snd (convertWithAttributes P og pa ptGeo self)) = gdp self.
Proof.
  intros Hint. unfold convertWithAttributes.
  set (rc := Call_ParticlesToLevelSet true (minradius P) Rmax (rasterJob P pa) og) in *.
  set (raster := ParticlesToLevelSet true (minradius P) Rmax (rasterJob P pa) og).
  set (self1 := if ignoredParticles raster then _ else _).
  assert (H1 : calls self1 = calls self ++ [rc])
    by (unfold self1; destruct (ignoredParticles raster); reflexivity).
  assert (H2 : gdp self1 = gdp self)
    by (unfold self1; destruct (ignoredParticles raster); reflexivity).
  rewrite H1, Hint. exact H2.
Qed.

(** [convertWithAttributes] when the interrupter has fired by the end
    of the rasterization: the grid as the rasterization left it, and
    the node with the call and the warning about ignored particles. *)
Lemma convertWithAttributes_returns_early (Ext : Externals) P og pa ptGeo self :
  let rc := Call_ParticlesToLevelSet true (minradius P) Rmax (rasterJob P pa) og in
  let raster := ParticlesToLevelSet true (minradius P) Rmax (rasterJob P pa) og in
  wasInterrupted (calls self ++ [rc]) = true ->
  convertWithAttributes P og pa ptGeo self
  = (setVoxels (sdfVoxels raster) og,
     if ignoredParticles raster
     then addWarning (ignoredWarning raster) (logCall rc self)
     else logCall rc self).
Proof.
  intros rc raster Hint. unfold convertWithAttributes. fold rc raster.
  set (self1 := if ignoredParticles raster then _ else _).
  assert (H1 : calls self1 = calls self ++ [rc])
    by (unfold self1; destruct (ignoredParticles raster); reflexivity).
  rewrite H1, Hint. reflexivity.
Qed.

Lemma quietly_refl s : quietly s s.
Proof. split; exists []; rewrite app_nil_r; split; solve [reflexivity | constructor]. Qed.

Lemma quietly_trans s1 s2 s3 : quietly s1 s2 -> quietly s2 s3 -> quietly s1 s3.
Proof.
  intros [(w1 & M1 & F1) (c1 & C1 & G1)] [(w2 & M2 & F2) (c2 & C2 & G2)]. split.
  - exists (w1 ++ w2). rewrite M2, M1, app_assoc.
    split; [reflexivity | apply Forall_app; auto].
  - exists (c1 ++ c2). rewrite C2, C1, app_assoc.
    split; [reflexivity | apply Forall_app; auto].
Qed.

Lemma quietly_same s s' : messages s' = messages s -> calls s' = calls s -> quietly s s'.
Proof.
  intros Hm Hc. split; exists []; rewrite app_nil_r; split;
    solve [assumption | constructor].
Qed.

Lemma quietly_logCall c s : isTransferCall c = false -> quietly s (logCall c s).
Proof.
  intros Hc. split.
  - exists []. rewrite app_nil_r. split; [reflexivity | constructor].
  - exists [c]. split; [reflexivity | repeat constructor; exact Hc].
Qed.

Lemma quietly_addWarning t s :
  ~ descriptorWarning (mkDiagnostic SOP_Warning t) -> quietly s (addWarning t s).
Proof.
  intros Ht. split.
  - exists [mkDiagnostic SOP_Warning t]. split; [reflexivity | repeat constructor; exact Ht].
  - exists []. rewrite app_nil_r. split; [reflexivity | constructor].
Qed.

Lemma quietly_if (b : bool) s s1 s2 :
  quietly s s1 -> quietly s s2 -> quietly s (if b then s1 else s2).
Proof. destruct b; auto. Qed.

Lemma ignoredWarning_quiet raster :
  ~ descriptorWarning (mkDiagnostic SOP_Warning (ignoredWarning raster)).
Proof. intros [[a H] | H]; discriminate H. Qed.

Ltac quietly_calls :=
  repeat first [ apply quietly_refl
               | eapply quietly_trans; [|apply quietly_logCall; reflexivity] ].

Lemma convert_quietly (Ext : Externals) P og pa self :
  quietly self (snd (convert P og pa self)).
Proof.
  unfold convert. cbn [snd].
  apply quietly_if.
  - eapply quietly_trans; [|apply quietly_addWarning, ignoredWarning_quiet].
    quietly_calls.
  - quietly_calls.
Qed.

Lemma buildMaskVolume_quietly (Ext : Externals) ctx pa bg T doSphere bw pm self :
  quietly self (buildMaskVolume ctx pa bg T doSphere bw pm self).
Proof.
  assert (Hfinal : forall (g : FloatGrid) s,
            quietly self s ->
            quietly self
              (createVdbPrimitive (FloatGridB g) None
                 (logCall Call_sdfToFogVolume (logCall Call_csgDifference s)))).
  { intros g s Hs. eapply quietly_trans; [exact Hs|].
    eapply quietly_trans; [|apply quietly_same; reflexivity]. quietly_calls. }
  assert (H0 : quietly self (logCall (Call_FloatGrid_create bg)
                               (logCall (Call_FloatGrid_create bg) self))).
  { quietly_calls. }
  unfold buildMaskVolume. cbn [FloatGrid_create]. fold (maskTarget bg T).
  destruct (Real_ltb (real 0) (clampOffset (boundinglimit (parms ctx)))).
  - destruct doSphere.
    + set (pa1 := setRadiusMult _ pa).
      set (s0 := logCall _ (logCall _ self)) in *.
      pose proof (convert_quietly Ext (parms ctx) (maskTarget bg T) pa1 s0) as Q1.
      destruct (convert (parms ctx) (maskTarget bg T) pa1 s0) as [g1 s1]. cbn [snd] in Q1.
      set (pa2 := setRadiusMult _ pa1).
      pose proof (convert_quietly Ext (parms ctx) (maskTarget bg T) pa2 s1) as Q2.
      destruct (convert (parms ctx) (maskTarget bg T) pa2 s1) as [g2 s2]. cbn [snd] in Q2.
      apply Hfinal. eapply quietly_trans; [exact H0|]. eapply quietly_trans; eassumption.
    + destruct pm as [m|]; apply Hfinal; quietly_calls.
  - apply Hfinal. exact H0.
Qed.

Lemma exportOutputGrid_quietly P og self : quietly self (exportOutputGrid P og self).
Proof.
  unfold exportOutputGrid.
  destruct (to_bool (builddistance P)), (to_bool (buildfog P));
    try (apply quietly_same; reflexivity).
  - eapply quietly_trans; [|apply quietly_same; reflexivity].
    eapply quietly_trans; [|apply (quietly_logCall Call_sdfToFogVolume); reflexivity].
    eapply quietly_trans; [|apply (quietly_logCall Call_deepCopy); reflexivity].
    apply quietly_same; reflexivity.
  - eapply quietly_trans; [|apply quietly_same; reflexivity].
    apply (quietly_logCall Call_sdfToFogVolume). reflexivity.
Qed.

Lemma targetGrid_quietly bg T og0 self : quietly self (snd (targetGrid bg T og0 self)).
Proof.
  unfold targetGrid. destruct og0; cbn [snd FloatGrid_create].
  - apply quietly_refl.
  - apply quietly_logCall. reflexivity.
Qed.

Lemma useReference_quietly P refPrim bg self :
  quietly self (setupNode (useReference P refPrim bg self)).
Proof.
  assert (Hnote : forall s, quietly s (addMessage matchingNote s)).
  { intros s. split.
    - exists [mkDiagnostic SOP_Message matchingNote]. split; [reflexivity|].
      repeat constructor. intros [[a H] | H]; discriminate H.
    - exists []. rewrite app_nil_r. split; [reflexivity | constructor]. }
  assert (Hvs : forall v s, quietly s (set_mVoxelSize v s))
    by (intros v s; apply quietly_same; reflexivity).
  assert (Hw1 : forall s, quietly s (addWarning notFloatWarning s)).
  { intros s. apply quietly_addWarning. intros [[a H] | H]; discriminate H. }
  assert (Hw2 : forall s, quietly s (addWarning notLevelSetWarning s)).
  { intros s. apply quietly_addWarning. intros [[a H] | H]; discriminate H. }
  unfold useReference.
  repeat case_match; simplify_eq; cbn [setupNode];
    repeat first [ apply quietly_refl
                 | eapply quietly_trans; [|apply Hw1]
                 | eapply quietly_trans; [|apply Hw2]
                 | eapply quietly_trans; [|apply Hnote]
                 | eapply quietly_trans; [|apply (quietly_logCall Call_deepCopyGrid);
                                                reflexivity]
                 | apply Hvs ].
Qed.

Lemma useReference_calls_merge P refPrim bg self :
  merge_ P = 0 -> calls (setupNode (useReference P refPrim bg self)) = calls self.
Proof.
  intros Hm. unfold useReference. rewrite Hm. cbn [Z.eqb negb].
  repeat case_match; reflexivity.
Qed.

(** The conversion on the sphere path with attributes requested, when
    the interrupter has fired by the end of the rasterization. *)
Lemma performConversion_interrupted_raster (Ext : Externals) ctx pa bg T og0 self :
  let P := parms ctx in
  let target := fst (targetGrid bg T og0 self) in
  let raster := ParticlesToLevelSet true (minradius P) Rmax (rasterJob P pa) target in
  wasInterrupted (calls self) = false ->
  conversion P = 0 ->
  attrList P <> [] ->
  (forall cs job og,
      wasInterrupted (cs ++ [Call_ParticlesToLevelSet true (minradius P) Rmax job og])
      = true) ->
  exists s,
    performConversion ctx pa bg T og0 self
    = exportOutputGrid P (setVoxels (sdfVoxels raster) target)
        (if to_bool (buildmask P)
         then buildMaskVolume ctx pa bg T true
                (ceil (to_float (bg / mVoxelSize self))) None s
         else s)
    /\ gdp s = gdp self
    /\ quietly self s.
Proof.
  intros P target raster Hint Hconv Hattrs Hfired.
  rewrite performConversion_unfold by exact Hint. cbv zeta.
  replace (mVoxelSize (snd (targetGrid bg T og0 self))) with (mVoxelSize self)
    by (unfold targetGrid; destruct og0; reflexivity).
  unfold primaryConversion. fold P. rewrite Hconv. cbn [Z.eqb].
  replace (0 <? evalInt_attrList P) with true.
  2:{ symmetry. apply Z.ltb_lt. unfold evalInt_attrList.
      destruct (attrList P) eqn:E; [exfalso; apply Hattrs; reflexivity | cbn; lia]. }
  set (tg := targetGrid bg T og0 self).
  set (self1 := if _ : bool then addWarning _ (snd tg) else snd tg).
  assert (Q1 : quietly self self1).
  { eapply quietly_trans; [apply targetGrid_quietly|]. fold tg. unfold self1.
    apply quietly_if; [|apply quietly_refl].
    apply quietly_addWarning. intros [[a H] | H]; discriminate H. }
  assert (G1 : gdp self1 = gdp self).
  { unfold self1, tg, targetGrid.
    destruct (negb (velocitytrails P =? 0) && negb (hasVelocity pa)), og0; reflexivity. }
  rewrite (convertWithAttributes_returns_early Ext P (fst tg) pa (ptGeoInput ctx) self1
             (Hfired _ _ _)).
  cbn [fst snd]. fold target raster.
  set (rc := Call_ParticlesToLevelSet true (minradius P) Rmax (rasterJob P pa) target).
  eexists. split; [reflexivity|]. split.
  - destruct (ignoredParticles _); exact G1.
  - eapply quietly_trans; [exact Q1|].
    apply quietly_if.
    + eapply quietly_trans; [|apply quietly_addWarning, ignoredWarning_quiet].
      apply quietly_logCall. reflexivity.
    + apply quietly_logCall. reflexivity.
Qed.

(** X21.  An interruption during the rasterization suppresses the
    attribute fields and nothing else.  On the sphere path with
    attributes requested, with or without a reference primitive behind
    the second input, when the interrupter is quiet as the conversion
    starts and has fired by the end of the rasterization,
    [convertWithAttributes] returns before building descriptors: the
    cook records no descriptor warning and never calls the attribute
    transfer.  The cook does not ask the interrupter again: it still
    builds the mask and exports the distance and fog outputs from the
    grid as the rasterization left it. *)
Theorem interrupted_rasterization (Ext : Externals) (ctx : OP_Context) (self : Node) :
  let P := parms ctx in
  let r := cookVDBSop ctx self in
  passesGuards P = true ->
  conversion P = 0 ->
  attrList P <> [] ->
  (forall refGeo, refGeoInput ctx = Some refGeo ->
                  head (matchGroup refGeo (referencevdb P)) <> None) ->
  wasInterrupted [] = false ->
  (merge_ P <> 0 -> wasInterrupted [Call_deepCopyGrid] = false) ->
  (forall cs job og,
      wasInterrupted (cs ++ [Call_ParticlesToLevelSet true (minradius P) Rmax job og])
      = true) ->
  exists target m,
    let raster := ParticlesToLevelSet true (minradius P) Rmax
                    (rasterJob P (cookParticles ctx)) target in
    let og := setVoxels (sdfVoxels raster) target in
    gdp r
    = (if to_bool (buildmask P) then [mkPrim (FloatGridB m)] else [])
      ++ (if to_bool (builddistance P)
          then [mkPrim (FloatGridB (setName (distancename P) og))] else [])
      ++ (if to_bool (buildfog P)
          then [mkPrim (FloatGridB (setName (fogname P) (sdfToFogVolume og)))] else [])
    /\ gridClass og = GRID_LEVEL_SET
    /\ gridName m = maskname P
    /\ gridClass m = GRID_FOG_VOLUME
    /\ (exists cs,
          rasterCalls (calls r)
          = (true, minradius P, Rmax, rasterJob P (cookParticles ctx), target) :: cs)
    /\ Forall (fun c => isTransferCall c = false) (calls r)
    /\ Forall (fun d => ~ descriptorWarning d) (messages r).
Proof.
  intros P r Hguards Hconv Hattrs Href Hint0 Hint1 Hfired.
  assert (Hstage : exists bg T og0 st,
             r = performConversion ctx (cookParticles ctx) bg T og0 st
             /\ wasInterrupted (calls st) = false
             /\ gdp st = []
             /\ rasterCalls (calls st) = []
             /\ quietly (cookStart P self) st).
  { unfold r. rewrite (cook_guards_pass Ext ctx self Hguards). cbv zeta.
    fold (cookParticles ctx). fold P.
    destruct (refGeoInput ctx) as [refGeo|] eqn:Eref.
    - destruct (head (matchGroup refGeo (referencevdb P))) as [refPrim|] eqn:Ehead;
        [|exfalso; exact (Href refGeo eq_refl Ehead)].
      set (setup := useReference P refPrim (uiBackground P) (cookStart P self)).
      assert (Hc : calls (setupNode setup) = []
                   \/ (merge_ P <> 0 /\ calls (setupNode setup) = [Call_deepCopyGrid])).
      { destruct (Z.eq_dec (merge_ P) 0) as [Hm | Hm].
        - left. unfold setup. rewrite (useReference_calls_merge _ _ _ _ Hm). reflexivity.
        - destruct (useReference_calls P refPrim (uiBackground P) (cookStart P self))
            as [H | H]; fold setup in H; rewrite H; [left | right; split; [exact Hm|]];
            reflexivity. }
      exists (setupBackground setup), (setupTransform setup), (setupOutputGrid setup),
        (setupNode setup).
      split; [reflexivity|].
      split; [destruct Hc as [-> | [Hm ->]]; [exact Hint0 | exact (Hint1 Hm)]|].
      split; [apply useReference_gdp|].
      split; [destruct Hc as [-> | [_ ->]]; reflexivity|].
      apply useReference_quietly.
    - exists (uiBackground P), (createLinearTransform (to_float (voxelsize P))), None,
        (cookStart P self).
      split; [reflexivity|]. split; [exact Hint0|]. split; [reflexivity|].
      split; [reflexivity | apply quietly_refl]. }
  destruct Hstage as (bg & T & og0 & st & Hr & Hint & Hgdp & Hraster & Hq).
  destruct (performConversion_interrupted_raster Ext ctx (cookParticles ctx) bg T og0 st
              Hint Hconv Hattrs Hfired) as (s & Hpc & Hgs & Hqs).
  fold P in Hpc.
  set (target := fst (targetGrid bg T og0 st)) in *.
  set (raster := ParticlesToLevelSet true (minradius P) Rmax
                   (rasterJob P (cookParticles ctx)) target) in *.
  set (og := setVoxels (sdfVoxels raster) target) in *.
  set (bw := ceil (to_float (bg / mVoxelSize st))) in *.
  destruct (buildMaskVolume_export Ext ctx (cookParticles ctx) bg T true bw None s)
    as (m & Hm & Hname & Hclass & _).
  exists target, m. cbv zeta. fold raster og.
  assert (Hfinal : quietly (cookStart P self) r).
  { rewrite Hr, Hpc. eapply quietly_trans; [exact Hq|].
    eapply quietly_trans; [exact Hqs|].
    eapply quietly_trans; [|apply exportOutputGrid_quietly].
    apply quietly_if; [apply buildMaskVolume_quietly | apply quietly_refl]. }
  split; [|split; [|split; [exact Hname|split; [exact Hclass|split; [|split]]]]].
  - rewrite Hr, Hpc, exportOutputGrid_gdp.
    replace (sdfToFogVolume (if to_bool (builddistance P)
                             then setName (distancename P) og else og))
      with (setName (if to_bool (builddistance P)
                     then distancename P else gridName og) (sdfToFogVolume og))
      by (destruct (to_bool (builddistance P)); reflexivity).
    destruct (to_bool (buildmask P)); [rewrite Hm|]; rewrite Hgs, Hgdp; reflexivity.
  - destruct (targetGrid_spec Ext T bg og0 st) as (_ & _ & C1 & _). exact C1.
  - rewrite Hr. rewrite performConversion_rasterCalls. cbv zeta. fold P.
    rewrite Hraster, Hint, Hconv. cbn [negb andb Z.eqb app].
    replace (0 <? evalInt_attrList P) with true.
    2:{ symmetry. apply Z.ltb_lt. unfold evalInt_attrList.
        destruct (attrList P) eqn:E; [exfalso; apply Hattrs; reflexivity | cbn; lia]. }
    eexists. reflexivity.
  - destruct Hfinal as [_ (cs & -> & Hcs)]. exact Hcs.
  - destruct Hfinal as [(ws & -> & Hws) _]. exact Hws.
Qed.

Lemma interrupted_rasterization_witness :
  let r := cookVDBSop (Ext:=Sample.interruptedTools) Sample.everything Sample.freshNode in
  let r' := cookVDBSop (Ext:=Sample.tools) Sample.everything Sample.freshNode in
  (passesGuards (parms Sample.everything) = true
   /\ attrList (parms Sample.everything) <> []
   /\ wasInterrupted (Externals:=Sample.interruptedTools) [] = false)
  /\ length (gdp r) = 3%nat
  /\ length (gdp r') = 4%nat
  /\ Forall (fun c => isTransferCall c = false) (calls r)
  /\ existsb isTransferCall (calls r') = true.
Proof.
  intros r r'.
  assert (Hattrs : attrList (parms Sample.everything) <> []) by discriminate.
  assert (Hguards : passesGuards (parms Sample.everything) = true)
    by (vm_compute; reflexivity).
  split; [split; [exact Hguards | split; [exact Hattrs | reflexivity]]|].
  destruct (interrupted_rasterization Sample.interruptedTools Sample.everything
              Sample.freshNode Hguards eq_refl Hattrs)
    as (target & m & Hg & _ & _ & _ & _ & Hcalls & _).
  - intros refGeo Href. discriminate Href.
  - reflexivity.
  - intros Hm. exfalso. apply Hm. reflexivity.
  - intros cs job og. destruct cs; reflexivity.
  - fold r in Hg, Hcalls. rewrite Hg.
    split; [reflexivity|]. split; [vm_compute; reflexivity|].
    split; [exact Hcalls | vm_compute; reflexivity].
Defined.

(** * The diagnostics of a cook *)

Lemma warnsOnly_refl s : warnsOnly s s.
Proof. exists []. rewrite app_nil_r. split; [reflexivity | constructor]. Qed.

Lemma warnsOnly_trans s1 s2 s3 : warnsOnly s1 s2 -> warnsOnly s2 s3 -> warnsOnly s1 s3.
Proof.
  intros (w1 & H1 & F1) (w2 & H2 & F2). exists (w1 ++ w2).
  rewrite H2, H1, app_assoc. split; [reflexivity | apply Forall_app; auto].
Qed.

Lemma warnsOnly_same s s' : messages s' = messages s -> warnsOnly s s'.
Proof. intros H. exists []. rewrite app_nil_r. split; [exact H | constructor]. Qed.

Lemma warnsOnly_addWarning t s : warnsOnly s (addWarning t s).
Proof. exists [mkDiagnostic SOP_Warning t]. split; [reflexivity | repeat constructor]. Qed.

Lemma warnsOnly_if (b : bool) s s1 s2 :
  warnsOnly s s1 -> warnsOnly s s2 -> warnsOnly s (if b then s1 else s2).
Proof. destruct b; auto. Qed.

Lemma convert_warns (Ext : Externals) P og pa self :
  warnsOnly self (snd (convert P og pa self)).
Proof.
  unfold convert. cbn [snd].
  apply warnsOnly_if; [|apply warnsOnly_same; reflexivity].
  eapply warnsOnly_trans; [|apply warnsOnly_addWarning].
  apply warnsOnly_same. reflexivity.
Qed.

Lemma convertWithAttributes_warns (Ext : Externals) P og pa ptGeo self :
  warnsOnly self (snd (convertWithAttributes P og pa ptGeo self)).
Proof.
  unfold convertWithAttributes.
  set (rc := Call_ParticlesToLevelSet true (minradius P) Rmax (rasterJob P pa) og).
  set (raster := ParticlesToLevelSet true (minradius P) Rmax (rasterJob P pa) og).
  set (self1 := if ignoredParticles raster then _ else _).
  assert (H1 : warnsOnly self self1).
  { unfold self1. apply warnsOnly_if; [|apply warnsOnly_same; reflexivity].
    eapply warnsOnly_trans; [|apply warnsOnly_addWarning].
    apply warnsOnly_same. reflexivity. }
  set (idx := attributeGrid raster (setVoxels (sdfVoxels raster) og)).
  set (st := constructGenericAtttributeList P [] ptGeo idx self1).
  assert (H2 : warnsOnly self1 (loopNode st)).
  { unfold st, constructGenericAtttributeList.
    destruct (attrLoop_steps Ext P ptGeo idx (Z.to_nat (evalInt_attrList P)) 1
                (mkAttrLoop [] (-1) self1)) as (ds & ws & _ & -> & _ & W & _).
    exists ws. split; [reflexivity | exact W]. }
  destruct (wasInterrupted (calls self1)); cbn [snd]; [exact H1|].
  destruct (0 <? evalInt_attrList P); cbn [snd]; [|exact H1].
  eapply warnsOnly_trans; [exact H1|]. eapply warnsOnly_trans; [exact H2|].
  destruct (-1 <? closestPointIndexInstance st); cbn [snd];
    rewrite transferAttributes_eq; apply warnsOnly_same; reflexivity.
Qed.

Lemma primaryConversion_warns (Ext : Externals) ctx pa T bw og self :
  warnsOnly self (snd (primaryConversion ctx pa T bw og self)).
Proof.
  unfold primaryConversion.
  destruct (conversion (parms ctx) =? 0).
  - set (self1 := if _ : bool then addWarning _ self else self).
    assert (H1 : warnsOnly self self1)
      by (unfold self1; apply warnsOnly_if;
          [apply warnsOnly_addWarning | apply warnsOnly_refl]).
    destruct (0 <? evalInt_attrList (parms ctx)).
    + pose proof (convertWithAttributes_warns Ext (parms ctx) og pa (ptGeoInput ctx) self1)
        as Hw.
      destruct (convertWithAttributes _ _ _ _ _) as [g s]. cbn [fst snd] in *.
      eapply warnsOnly_trans; eassumption.
    + pose proof (convert_warns Ext (parms ctx) og pa self1) as Hw.
      destruct (convert _ _ _ _) as [g s]. cbn [fst snd] in *.
      eapply warnsOnly_trans; eassumption.
  - apply warnsOnly_same. reflexivity.
Qed.

Lemma buildMaskVolume_warns (Ext : Externals) ctx pa bg T doSphere bw pm self :
  warnsOnly self (buildMaskVolume ctx pa bg T doSphere bw pm self).
Proof.
  unfold buildMaskVolume. cbn [FloatGrid_create].
  destruct (Real_ltb (real 0) (clampOffset (boundinglimit (parms ctx))));
    [|apply warnsOnly_same; reflexivity].
  destruct doSphere.
  - set (pa1 := setRadiusMult _ pa).
    set (s0 := logCall _ (logCall _ self)).
    pose proof (convert_warns Ext (parms ctx)
                  (setTransform T (setGridClass GRID_LEVEL_SET (Grid_create bg))) pa1 s0)
      as W1.
    destruct (convert (parms ctx) _ pa1 s0) as [g1 s1]. cbn [snd] in W1.
    set (pa2 := setRadiusMult _ pa1).
    pose proof (convert_warns Ext (parms ctx)
                  (setTransform T (setGridClass GRID_LEVEL_SET (Grid_create bg))) pa2 s1)
      as W2.
    destruct (convert (parms ctx) _ pa2 s1) as [g2 s2]. cbn [snd] in W2.
    eapply warnsOnly_trans; [apply (warnsOnly_same self s0); reflexivity|].
    eapply warnsOnly_trans; [exact W1|]. eapply warnsOnly_trans; [exact W2|].
    apply warnsOnly_same. reflexivity.
  - destruct pm; apply warnsOnly_same; reflexivity.
Qed.

Lemma exportOutputGrid_messages P og self :
  messages (exportOutputGrid P og self) = messages self.
Proof.
  unfold exportOutputGrid.
  destruct (to_bool (builddistance P)), (to_bool (buildfog P)); reflexivity.
Qed.

Lemma performConversion_warns (Ext : Externals) ctx pa bg T og0 self :
  warnsOnly self (performConversion ctx pa bg T og0 self).
Proof.
  destruct (wasInterrupted (calls self)) eqn:Hint.
  { rewrite performConversion_interrupted by exact Hint. apply warnsOnly_refl. }
  rewrite performConversion_unfold by exact Hint. cbv zeta.
  set (tg := targetGrid bg T og0 self).
  set (bw := ceil (to_float (bg / mVoxelSize (snd tg)))).
  set (pc := primaryConversion ctx pa T bw (fst tg) (snd tg)).
  eapply warnsOnly_trans; [|apply warnsOnly_same, exportOutputGrid_messages].
  eapply warnsOnly_trans;
    [apply (warnsOnly_same self (snd tg)); unfold tg, targetGrid; destruct og0; reflexivity|].
  eapply warnsOnly_trans; [apply (primaryConversion_warns Ext ctx pa T bw (fst tg) (snd tg))|].
  fold pc. apply warnsOnly_if; [apply buildMaskVolume_warns | apply warnsOnly_refl].
Qed.

Lemma useReference_messages P refPrim bg self :
  exists ws,
    messages (setupNode (useReference P refPrim bg self))
    = messages self
      ++ (if bool_decide (getGridClass (getGrid refPrim) = GRID_LEVEL_SET)
             && isFloatGrid (getGrid refPrim)
          then [mkDiagnostic SOP_Message matchingNote] else [])
      ++ ws
    /\ Forall (fun d => severity d = SOP_Warning) ws.
Proof.
  unfold useReference.
  destruct (bool_decide (getGridClass (getGrid refPrim) = GRID_LEVEL_SET));
    destruct (getGrid refPrim); cbn [isFloatGrid gridPtrCast_Float andb];
    destruct (negb (merge_ P =? 0));
    cbn [setupNode messages logCall addWarning addMessage addDiagnostic set_mVoxelSize];
    rewrite <- ?app_assoc;
    first [ exists []; split; [rewrite ?app_nil_r; reflexivity | constructor]
          | eexists [_]; split; [reflexivity | repeat constructor] ].
Qed.

(** X22.  The diagnostics of a cook that does not abort.  They are the
    note about the matched half-band width, recorded first and exactly
    when the guards pass and the reference primitive is a float level
    set, followed by warnings only.  The note is the only diagnostic of
    its severity the cook ever records. *)
Theorem cook_diagnostics (Ext : Externals) (ctx : OP_Context) (self : Node) :
  let r := cookVDBSop ctx self in
  error r <> UT_ERROR_ABORT ->
  exists ws,
    messages r
    = (if referenceMatched ctx then [mkDiagnostic SOP_Message matchingNote] else []) ++ ws
    /\ Forall (fun d => severity d = SOP_Warning) ws.
Proof.
  intros r Hok. unfold r in *. unfold referenceMatched.
  destruct (passesGuards (parms ctx)) eqn:Hguards; cbn [andb].
  - revert Hok. rewrite (cook_guards_pass Ext ctx self Hguards). cbv zeta.
    destruct (refGeoInput ctx) as [refGeo|].
    + destruct (head (matchGroup refGeo (referencevdb (parms ctx)))) as [refPrim|].
      * intros _.
        destruct (useReference_messages (parms ctx) refPrim (uiBackground (parms ctx))
                    (cookStart (parms ctx) self)) as (ws1 & H1 & F1).
        destruct (performConversion_warns Ext ctx
                    (ParticleList_new (ptGeoInput ctx) (particlescale (parms ctx))
                       (velocityscale (parms ctx)))
                    (setupBackground (useReference (parms ctx) refPrim
                                        (uiBackground (parms ctx))
                                        (cookStart (parms ctx) self)))
                    (setupTransform (useReference (parms ctx) refPrim
                                       (uiBackground (parms ctx))
                                       (cookStart (parms ctx) self)))
                    (setupOutputGrid (useReference (parms ctx) refPrim
                                        (uiBackground (parms ctx))
                                        (cookStart (parms ctx) self)))
                    (setupNode (useReference (parms ctx) refPrim
                                  (uiBackground (parms ctx))
                                  (cookStart (parms ctx) self))))
          as (ws2 & H2 & F2).
        exists (ws1 ++ ws2). rewrite H2, H1. cbn [cookStart beginCook set_mVoxelSize messages app].
        rewrite <- app_assoc. split; [reflexivity | apply Forall_app; auto].
      * intros Hok. exfalso. apply Hok. reflexivity.
    + intros _.
      destruct (performConversion_warns Ext ctx
                  (ParticleList_new (ptGeoInput ctx) (particlescale (parms ctx))
                     (velocityscale (parms ctx)))
                  (uiBackground (parms ctx))
                  (createLinearTransform (to_float (voxelsize (parms ctx)))) None
                  (cookStart (parms ctx) self)) as (ws & H & F).
      exists ws. rewrite H. split; [reflexivity | exact F].
  - destruct (Real_ltb (to_float (voxelsize (parms ctx))) minVoxelSize) eqn:Evs.
    + exfalso. apply Hok. apply Real_ltb_lt in Evs.
      rewrite (cook_small_voxel_size Ext ctx self Evs). reflexivity.
    + rewrite (cook_guards_no_selection Ext ctx self Evs Hguards).
      eexists [_]. split; [reflexivity | repeat constructor].
Qed.

Lemma cook_diagnostics_witness :
  let r := cookVDBSop (Ext:=Sample.tools) Sample.withLevelSetReference Sample.freshNode in
  (error r <> UT_ERROR_ABORT
   /\ referenceMatched (Ext:=Sample.tools) Sample.withLevelSetReference = true)
  /\ exists ws, messages r = mkDiagnostic SOP_Message matchingNote :: ws
                /\ Forall (fun d => severity d = SOP_Warning) ws.
Proof.
  intros r.
  assert (Hok : error r <> UT_ERROR_ABORT) by (vm_compute; discriminate).
  assert (Hm : referenceMatched (Ext:=Sample.tools) Sample.withLevelSetReference = true)
    by reflexivity.
  split; [split; assumption|].
  destruct (cook_diagnostics Sample.tools Sample.withLevelSetReference Sample.freshNode Hok)
    as (ws & Hms & Hws).
  rewrite Hm in Hms. exists ws. split; [exact Hms | exact Hws].
Defined.

(** * The attribute transfer *)

Lemma baseName_baseSetName n g : baseName (baseSetName n g) = n.
Proof. destruct g; reflexivity. Qed.

(** X23.  [transferAttributes] runs the transfer kernel once, on the
    whole descriptor list, also when the list is empty, and then
    appends one primitive per descriptor, in the order of the list:
    the grid the kernel filled for that descriptor, moved to the given
    transform and named by the descriptor.  Diagnostics and the cached
    voxel size are untouched. *)
Theorem transfer_exports_one_field_per_descriptor (Ext : Externals)
    (l : list AttributeDetail) (idx : Int32Grid) (T : Transform) (ptGeo : GU_Detail)
    (self : Node) :
  let r := transferAttributes l idx T ptGeo self in
  exists ps,
    gdp r = gdp self ++ ps
    /\ length ps = length l
    /\ (forall k d, l !! k = Some d ->
          exists p, ps !! k = Some p
                    /\ getGrid p
                       = baseSetName (adName d)
                           (baseSetTransform T (PointAttrTransfer d idx ptGeo))
                    /\ baseName (getGrid p) = adName d
                    /\ baseTransform (getGrid p) = T)
    /\ calls r = calls self ++ [Call_PointAttrTransfer (length l)]
    /\ messages r = messages self
    /\ mVoxelSize r = mVoxelSize self.
Proof.
  intros r. unfold r. rewrite transferAttributes_eq. cbn [gdp calls messages mVoxelSize].
  exists (transferredPrims Ext l idx T ptGeo).
  split; [reflexivity|]. unfold transferredPrims.
  split; [apply length_map|]. split; [|repeat split].
  intros k d Hk. eexists. split.
  - change (map ?f ?xs) with (f <$> xs). rewrite list_lookup_fmap, Hk. reflexivity.
  - cbn [getGrid]. split; [reflexivity|].
    split; [apply baseName_baseSetName|].
    rewrite baseTransform_baseSetName. apply baseTransform_baseSetTransform.
Qed.

Lemma transfer_exports_one_field_per_descriptor_witness :
  let d := mkAttributeDetail (Int32GridB Sample.emptyIndex) Sample.colour 0 false "Cd" in
  let r := transferAttributes (Ext:=Sample.tools) [d] Sample.emptyIndex
             (createLinearTransform (real (1 # 10))) Sample.twoPoints Sample.freshNode in
  [d] !! 0%nat = Some d
  /\ map (fun p => baseName (getGrid p)) (gdp r) = ["Cd"]
  /\ calls r = [Call_PointAttrTransfer 1].
Proof.
  intros d r. split; [reflexivity|].
  destruct (transfer_exports_one_field_per_descriptor Sample.tools [d] Sample.emptyIndex
              (createLinearTransform (real (1 # 10))) Sample.twoPoints Sample.freshNode)
    as (ps & Hg & Hlen & Hk & Hc & _).
  destruct (Hk 0%nat d eq_refl) as (p & Hp & _ & Hname & _).
  fold r in Hg, Hc. rewrite Hg, Hc. split; [|reflexivity].
  destruct ps as [|p' [|p'' ps]]; try discriminate.
  cbn in Hp. injection Hp as ->. cbn. rewrite Hname. reflexivity.
Defined.
